(** * UCPG payment gateway: escrow, commission, promo-claim and webhook core

    A shallow embedding of the money-handling core of the Django project
    (apps/payments and apps/providers) together with the properties that
    its specification states about it.

    Conventions of the embedding:
    - database tables are finite maps keyed by their unique column
      ([gmap]) or lists in query order when [.first()] or slicing matters;
    - a Python [Decimal] is a coefficient and an exponent, and arithmetic
      rounds to the default context (28 significant digits, half-even)
      exactly as the [decimal] module does;
    - a [DecimalField(max_digits=20, decimal_places=8)] balance is the
      integer number of 10^-8 units it stores; [save()] writes to such a
      column the Decimal found in memory rounded half-even to eight
      places, and raises when the result has more than 20 digits;
    - a column declared without [null=True] refuses [None];
    - timestamps are seconds ([Z]);
    - Python exceptions are an explicit result type, and code that reads
      and writes the database threads it explicitly. *)

From stdpp Require Import gmap strings list pretty.
From Stdlib Require Import ZArith Lia Ascii.

Local Open Scope string_scope.
Local Open Scope Z_scope.

(** ** Python's [decimal.Decimal] under the default context *)

Module PyDecimal.

(** A finite decimal: [coef * 10 ^ expo].  (Signed zeros, NaN and the
    infinities never arise in the code modelled here.) *)
Record Decimal := mkDec { coef : Z; expo : Z }.

(** [getcontext().prec] of a fresh interpreter; Django leaves it alone. *)
Definition prec : Z := 28.

Fixpoint ndigits_aux (fuel : nat) (n : Z) : Z :=
  match fuel with
  | O => 0
  | S f => if n =? 0 then 0 else 1 + ndigits_aux f (n / 10)
  end.

(** Number of decimal digits of [|n|] (0 for 0). *)
Definition ndigits (n : Z) : Z :=
  ndigits_aux (S (Z.to_nat (Z.log2 (Z.abs n)))) (Z.abs n).

(** ROUND_HALF_EVEN of [q + r / p]. *)
Definition round_half_even (q r p : Z) : Z :=
  if (2 * r >? p) || ((2 * r =? p) && Z.odd q) then q + 1 else q.

(** Rounding of an exact result to [prec] significant digits. *)
Definition round (c e : Z) : Decimal :=
  if Z.abs c <? 10 ^ prec then mkDec c e
  else
    let d := ndigits c - prec in
    let p := 10 ^ d in
    let q := round_half_even (Z.abs c / p) (Z.abs c mod p) p in
    if q =? 10 ^ prec
    then mkDec (Z.sgn c * 10 ^ (prec - 1)) (e + d + 1)
    else mkDec (Z.sgn c * q) (e + d).

(** Coefficient of [x] rescaled to the exponent [m <= expo x]. *)
Definition align (x : Decimal) (m : Z) : Z := coef x * 10 ^ (expo x - m).

(** [x * y] *)
Definition mul (x y : Decimal) : Decimal :=
  round (coef x * coef y) (expo x + expo y).

(** [x + y] *)
Definition add (x y : Decimal) : Decimal :=
  let m := Z.min (expo x) (expo y) in
  round (align x m + align y m) m.

(** [x - y] *)
Definition sub (x y : Decimal) : Decimal :=
  let m := Z.min (expo x) (expo y) in
  round (align x m - align y m) m.

(** [x == y]: numerical equality, whatever the exponents. *)
Definition eqb (x y : Decimal) : bool :=
  let m := Z.min (expo x) (expo y) in
  align x m =? align y m.

(** [bool(x)]: a Decimal is truthy unless it is zero. *)
Definition truthy (x : Decimal) : bool := negb (coef x =? 0).

(** The exact (unrounded) sum and product, as mathematics has them;
    used only to state properties. *)
Definition exact_add (x y : Decimal) : Decimal :=
  let m := Z.min (expo x) (expo y) in
  mkDec (align x m + align y m) m.

Definition exact_mul (x y : Decimal) : Decimal :=
  mkDec (coef x * coef y) (expo x + expo y).

End PyDecimal.

Import PyDecimal.

(** ** Python exceptions and the few [str] methods the code calls *)

Module Py.

Inductive Exn :=
| TypeError (msg : string)
| ValueError (msg : string)
| IndexError (msg : string)
| IntegrityError (msg : string)
| InvalidOperation (msg : string).

(** The outcome of a call that may raise. *)
Inductive Res (A : Type) :=
| Ok (a : A)
| Raise (e : Exn).
Arguments Ok {A} a.
Arguments Raise {A} e.

Definition bind {A B} (r : Res A) (k : A -> Res B) : Res B :=
  match r with
  | Ok a => k a
  | Raise e => Raise e
  end.

(** [c.lower()] on one character. *)
Definition lower_ascii (c : ascii) : ascii :=
  let n := nat_of_ascii c in
  if (Nat.leb 65 n && Nat.leb n 90)%bool then ascii_of_nat (n + 32) else c.

(** [s.lower()] *)
Fixpoint lower (s : string) : string :=
  match s with
  | EmptyString => EmptyString
  | String c rest => String (lower_ascii c) (lower rest)
  end.

Fixpoint drop (n : nat) (s : string) : string :=
  match n, s with
  | O, _ => s
  | S n', EmptyString => EmptyString
  | S n', String _ rest => drop n' rest
  end.

(** Left-to-right replacement of every occurrence of a non-empty [old];
    [fuel] bounds the number of characters still to scan. *)
Fixpoint replace_all (fuel : nat) (old new s : string) : string :=
  match fuel with
  | O => s
  | S f =>
      match s with
      | EmptyString => EmptyString
      | String c rest =>
          if String.prefix old s
          then new ++ replace_all f old new (drop (String.length old) s)
          else String c (replace_all f old new rest)
      end
  end.

(** [s.replace(...)] with the positional arguments [args]: [str.replace] takes [old] and [new] (and an
    optional count, unused here); called with fewer than two arguments
    it raises [TypeError]. *)
Definition replace (s : string) (args : list string) : Res string :=
  match args with
  | [old; new] => Ok (replace_all (String.length s) old new s)
  | _ => Raise (TypeError "replace expected at least 2 arguments")
  end.

(** [seq[i]] on a string, as a one-character string. *)
Fixpoint char_at (s : string) (i : nat) : option string :=
  match s, i with
  | EmptyString, _ => None
  | String c _, O => Some (String c EmptyString)
  | String _ rest, S i' => char_at rest i'
  end.

(** [string.ascii_uppercase] and [string.digits] *)
Definition ascii_uppercase : string := "ABCDEFGHIJKLMNOPQRSTUVWXYZ".
Definition digits : string := "0123456789".

End Py.

Import Py.

#[global] Instance res_ret : MRet Res := @Ok.
#[global] Instance res_bind : MBind Res := fun A B k r => Py.bind r k.

(** ** More of Python: ordering of Decimals, more [str] methods *)

Module PyMore.

(** [x < y] and [x <= y] on Decimals: exact numerical comparison. *)
Definition ltb (x y : Decimal) : bool :=
  let m := Z.min (expo x) (expo y) in
  align x m <? align y m.

Definition leb (x y : Decimal) : bool :=
  let m := Z.min (expo x) (expo y) in
  align x m <=? align y m.

(** [c.upper()] on one character. *)
Definition upper_ascii (c : ascii) : ascii :=
  let n := nat_of_ascii c in
  if (Nat.leb 97 n && Nat.leb n 122)%bool then ascii_of_nat (n - 32) else c.

(** [s.upper()] *)
Fixpoint upper (s : string) : string :=
  match s with
  | EmptyString => EmptyString
  | String c rest => String (upper_ascii c) (upper rest)
  end.

(** [s.startswith(prefix)] *)
Definition startswith (s prefix : string) : bool := String.prefix prefix s.

(** [d.quantize(Decimal(1).scaleb(-places), context)] under a context of
    [digits] digits and half-even rounding, which is how Django's
    [DecimalField] prepares a value for a column of [max_digits=digits]
    and [decimal_places=places] when it saves: the coefficient of the
    value rounded to [places] decimals, or [InvalidOperation] when that
    takes more than [digits] digits. *)
Definition quantize (digits places : Z) (d : Decimal) : Res Z :=
  let c :=
    if expo d >=? - places then align d (- places)
    else
      let p := 10 ^ (- places - expo d) in
      Z.sgn (coef d)
      * round_half_even (Z.abs (coef d) / p) (Z.abs (coef d) mod p) p in
  if Z.abs c <? 10 ^ digits then Ok c
  else Raise (InvalidOperation "quantize result has too many digits").

End PyMore.

Import PyMore.

(** ** apps/payments/models.py and apps/providers/models.py: the rows *)

Module Models.

(** [Currency] (the implicit integer primary key is [cur_id]). *)
Record Currency := mkCurrency {
  cur_id : nat;
  code : string;
  is_crypto : bool;
  cur_is_active : bool;
  decimal_places : Z
}.

(** [Provider], with the fields the payment core reads. *)
Record Provider := mkProvider {
  prov_id : string;
  prov_is_active : bool;
  commission_rate : Decimal
}.

(** [CommissionSetting]: both foreign keys are nullable. *)
Record CommissionSetting := mkSetting {
  set_currency : option nat;
  set_provider : option string;
  rate : Decimal;
  set_is_active : bool;
  is_global : bool
}.

End Models.

Import Models.

(** ** apps/payments/services/commission_service.py *)

Module CommissionService.

(** The two tables the service queries.  [settings] is the
    [CommissionSetting] table in the order the queries return rows
    (Meta.ordering), so that [.first()] is the head of the filtered
    list. *)
Record Tables := mkTables {
  providers : list Provider;
  settings : list CommissionSetting
}.

(** [CommissionService.__init__]: [default_rate] comes from
    [settings.UCPG_SETTINGS['DEFAULT_COMMISSION_RATE']]. *)
Record Service := mkService {
  default_rate : Decimal;
  max_rate : Decimal
}.

(** [Provider.objects.get(id=provider_id, is_active=True)];
    [None] stands for [Provider.DoesNotExist]. *)
Definition get_active_provider (t : Tables) (pid : string) : option Provider :=
  List.find (fun p => String.eqb (prov_id p) pid && prov_is_active p)
            (providers t).

(** [CommissionSetting.objects.filter(...).first()] *)
Definition first_setting (t : Tables) (f : CommissionSetting -> bool)
  : option CommissionSetting :=
  head (List.filter f (settings t)).

Definition fk_is {A} (eqb : A -> A -> bool) (fk : option A) (x : A) : bool :=
  match fk with Some y => eqb y x | None => false end.

Definition fk_isnull {A} (fk : option A) : bool :=
  match fk with Some _ => false | None => true end.

(** filter(provider=provider, currency=currency, is_active=True) *)
Definition q_provider_currency (p : Provider) (c : Currency)
           (s : CommissionSetting) : bool :=
  fk_is String.eqb (set_provider s) (prov_id p)
  && fk_is Nat.eqb (set_currency s) (cur_id c)
  && set_is_active s.

(** filter(provider=provider, currency__isnull=True, is_active=True) *)
Definition q_provider_only (p : Provider) (s : CommissionSetting) : bool :=
  fk_is String.eqb (set_provider s) (prov_id p)
  && fk_isnull (set_currency s)
  && set_is_active s.

(** filter(currency=currency, provider__isnull=True, is_active=True) *)
Definition q_currency_only (c : Currency) (s : CommissionSetting) : bool :=
  fk_is Nat.eqb (set_currency s) (cur_id c)
  && fk_isnull (set_provider s)
  && set_is_active s.

(** filter(is_global=True, is_active=True) *)
Definition q_global (s : CommissionSetting) : bool :=
  is_global s && set_is_active s.

(** [_get_commission_rate(currency, provider_id=None)].
    [provider_id] is [None] or a string; the empty string is falsy. *)
Definition _get_commission_rate (svc : Service) (t : Tables)
           (currency : option Currency) (provider_id : option string)
  : Decimal :=
  let provider :=
    match provider_id with
    | Some pid => if String.eqb pid "" then None else get_active_provider t pid
    | None => None
    end in
  let from_currency_down :=
    match
      match currency with
      | Some c => first_setting t (q_currency_only c)
      | None => None
      end
    with
    | Some setting => rate setting
    | None =>
        match first_setting t q_global with
        | Some global_setting => rate global_setting
        | None => default_rate svc
        end
    end in
  let from_provider_down :=
    match provider with
    | Some p =>
        match first_setting t (q_provider_only p) with
        | Some setting => rate setting
        | None =>
            if truthy (commission_rate p) then commission_rate p
            else from_currency_down
        end
    | None => from_currency_down
    end in
  match provider, currency with
  | Some p, Some c =>
      match first_setting t (q_provider_currency p c) with
      | Some setting => rate setting
      | None => from_provider_down
      end
  | _, _ => from_provider_down
  end.

(** The dict that [calculate_commission] returns. *)
Record CommissionResult := mkResult {
  res_rate : Decimal;
  res_amount : Decimal;
  res_net_amount : Decimal;
  res_original_amount : Decimal;
  res_currency : string
}.

(** [calculate_commission(amount, currency, provider_id=None)] *)
Definition calculate_commission (svc : Service) (t : Tables)
           (amount : Decimal) (currency : Currency)
           (provider_id : option string) : CommissionResult :=
  let commission_rate := _get_commission_rate svc t (Some currency) provider_id in
  let commission_amount := mul amount commission_rate in
  let net_amount := sub amount commission_amount in
  {| res_rate := commission_rate;
     res_amount := commission_amount;
     res_net_amount := net_amount;
     res_original_amount := amount;
     res_currency := code currency |}.

End CommissionService.

(** ** apps/payments/models.py: [EscrowAccount] *)

Module Escrow.

(** A row of the table.  Each balance is a
    [DecimalField(max_digits=20, decimal_places=8)]: the row holds the
    integer number of 10^-8 units. *)
Record EscrowAccount := mkEscrow {
  account_type : string;
  account_reference : string;
  currency : nat;
  total_balance : Z;
  available_balance : Z;
  reserved_balance : Z
}.

(** The row with other balances. *)
Definition with_balances (self : EscrowAccount) (total available reserved : Z)
  : EscrowAccount :=
  {| account_type := account_type self;
     account_reference := account_reference self;
     currency := currency self;
     total_balance := total;
     available_balance := available;
     reserved_balance := reserved |}.

(** The Decimal a balance column gives when the row is loaded. *)
Definition field (units : Z) : Decimal := mkDec units (-8).

(** What a balance column keeps of the Decimal found in memory. *)
Definition to_column (d : Decimal) : Res Z := quantize 20 8 d.

(** [self.save()], the three balances being the Decimals the method has
    left in memory: every column is written, each rounded on its own. *)
Definition save (self : EscrowAccount) (total available reserved : Decimal)
  : Res EscrowAccount :=
  t ← to_column total;
  a ← to_column available;
  r ← to_column reserved;
  Ok (with_balances self t a r).

(** [EscrowAccount.reserve_funds(amount)] on a row as loaded: the
    comparison and the arithmetic are Decimal's, the flag is the method's
    return value and the account is the row as stored afterwards. *)
Definition reserve_funds (self : EscrowAccount) (amount : Decimal)
  : Res (bool * EscrowAccount) :=
  let total := field (total_balance self) in
  let available := field (available_balance self) in
  let reserved := field (reserved_balance self) in
  if leb amount available then
    row ← save self total (sub available amount) (add reserved amount);
    Ok (true, row)
  else Ok (false, self).

(** [EscrowAccount.release_funds(amount)] *)
Definition release_funds (self : EscrowAccount) (amount : Decimal)
  : Res (bool * EscrowAccount) :=
  let total := field (total_balance self) in
  let available := field (available_balance self) in
  let reserved := field (reserved_balance self) in
  if leb amount reserved then
    row ← save self (sub total amount) available (sub reserved amount);
    Ok (true, row)
  else Ok (false, self).

(** [EscrowAccount.return_funds(amount)] *)
Definition return_funds (self : EscrowAccount) (amount : Decimal)
  : Res (bool * EscrowAccount) :=
  let total := field (total_balance self) in
  let available := field (available_balance self) in
  let reserved := field (reserved_balance self) in
  if leb amount reserved then
    row ← save self total (add available amount) (sub reserved amount);
    Ok (true, row)
  else Ok (false, self).

(** The "Add funds to escrow" lines of
    [StripePaymentService._move_to_escrow] and
    [CryptoWalletService._move_crypto_to_escrow]:
    [total_balance += net_amount; available_balance += net_amount],
    [net_amount] being the column of a stored transaction. *)
Definition add_funds (self : EscrowAccount) (net_amount : Z) : EscrowAccount :=
  {| account_type := account_type self;
     account_reference := account_reference self;
     currency := currency self;
     total_balance := total_balance self + net_amount;
     available_balance := available_balance self + net_amount;
     reserved_balance := reserved_balance self |}.

(** [EscrowAccount.objects.get_or_create(account_type=.., currency=..,
    defaults={...})] on the table keyed by (account type, currency). *)
Definition get_or_create (tbl : gmap (string * nat) EscrowAccount)
           (ty : string) (cur : Currency) : EscrowAccount :=
  match tbl !! (ty, cur_id cur) with
  | Some a => a
  | None =>
      {| account_type := ty;
         account_reference := ty ++ "_escrow_" ++ lower (code cur);
         currency := cur_id cur;
         total_balance := 0;
         available_balance := 0;
         reserved_balance := 0 |}
  end.

(** [_move_to_escrow]: fetch or create the account, add the net
    amount, save. *)
Definition _move_to_escrow (tbl : gmap (string * nat) EscrowAccount)
           (ty : string) (cur : Currency) (net_amount : Z)
  : gmap (string * nat) EscrowAccount :=
  <[ (ty, cur_id cur) := add_funds (get_or_create tbl ty cur) net_amount ]> tbl.

(** One ledger call on an account: the three methods with the Decimal
    they are given, a deposit with the stored net amount. *)
Inductive Op :=
| Reserve (amount : Decimal)
| Release (amount : Decimal)
| Return (amount : Decimal)
| Deposit (net_amount : Z).

(** The stored row after a call on [self]: a refused call and a call
    whose [save()] raises leave it as it was. *)
Definition row_after (self : EscrowAccount) (r : Res (bool * EscrowAccount))
  : EscrowAccount :=
  match r with
  | Ok (_, row) => row
  | Raise _ => self
  end.

Definition apply_op (self : EscrowAccount) (o : Op) : EscrowAccount :=
  match o with
  | Reserve a => row_after self (reserve_funds self a)
  | Release a => row_after self (release_funds self a)
  | Return a => row_after self (return_funds self a)
  | Deposit n => add_funds self n
  end.

(** A sequence of calls, each on the row as the one before left it. *)
Definition run (self : EscrowAccount) (ops : list Op) : EscrowAccount :=
  fold_left apply_op ops self.

(** The amount of a call is not negative. *)
Definition nonnegative (o : Op) : Prop :=
  match o with
  | Reserve a | Release a | Return a => 0 <= coef a
  | Deposit n => 0 <= n
  end.

(** The amount of a call has at most eight decimal places. *)
Definition eight_decimals (o : Op) : Prop :=
  match o with
  | Reserve a | Release a | Return a => -8 <= expo a
  | Deposit _ => True
  end.

(** An amount of at most eight decimal places, counted in 10^-8 units. *)
Definition units (amount : Decimal) : Z := align amount (-8).

(** A number of units that a balance column can hold (20 digits). *)
Definition storable (n : Z) : Prop := Z.abs n < 10 ^ 20.

(** The ledger invariant of the data model. *)
Definition balanced (a : EscrowAccount) : Prop :=
  total_balance a = available_balance a + reserved_balance a
  /\ 0 <= total_balance a
  /\ 0 <= available_balance a
  /\ 0 <= reserved_balance a.

End Escrow.

(** ** apps/payments/models.py: [Transaction], [PromoLink], [PayoutRequest],
       [TransactionLog] and the tables that hold them *)

Module Ledger.

(** [Transaction]; [status] is the CharField as the code writes and
    compares it. *)
Record Transaction := mkTx {
  tx_id : string;
  status : string;
  net_amount : Z;
  converted_currency : string;
  payment_reference : string;
  tx_provider : option string;
  tx_expires_at : Z;
  completed_at : option Z
}.

(** [PromoLink]; [transaction] is the one-to-one foreign key. *)
Record PromoLink := mkPromo {
  promo_code : string;
  transaction : string;
  qr_code_data : string;
  link_url : string;
  is_used : bool;
  used_at : option Z;
  used_ip : option string;
  recipient_wallet : string;
  recipient_email : string;
  recipient_telegram : string;
  expires_at : Z
}.

Record PayoutRequest := mkPayout {
  payout_promo_link : string;
  payout_method : string;
  payout_amount : Z;
  payout_currency : string;
  recipient_crypto_address : string;
  payout_recipient_email : string;
  payout_status : string
}.

Record TransactionLog := mkLog {
  log_transaction : string;
  action : string;
  old_status : string;
  new_status : string;
  details : gmap string string
}.

(** The database: transactions by id, promo links by their unique code,
    payout requests and the append-only log (newest first). *)
Record DB := mkDB {
  transactions : gmap string Transaction;
  promo_links : gmap string PromoLink;
  payout_requests : list PayoutRequest;
  logs : list TransactionLog
}.

Definition with_status (tx : Transaction) (s : string) : Transaction :=
  {| tx_id := tx_id tx; status := s; net_amount := net_amount tx;
     converted_currency := converted_currency tx;
     payment_reference := payment_reference tx;
     tx_provider := tx_provider tx; tx_expires_at := tx_expires_at tx;
     completed_at := completed_at tx |}.

(** [transaction.save()]: every column of the in-memory row is written. *)
Definition save_transaction (tx : Transaction) (db : DB) : DB :=
  {| transactions := <[tx_id tx := tx]> (transactions db);
     promo_links := promo_links db;
     payout_requests := payout_requests db;
     logs := logs db |}.

(** [promo_link.save()] *)
Definition save_promo_link (p : PromoLink) (db : DB) : DB :=
  {| transactions := transactions db;
     promo_links := <[promo_code p := p]> (promo_links db);
     payout_requests := payout_requests db;
     logs := logs db |}.

(** [TransactionLog.objects.create(...)] *)
Definition create_log (l : TransactionLog) (db : DB) : DB :=
  {| transactions := transactions db;
     promo_links := promo_links db;
     payout_requests := payout_requests db;
     logs := l :: logs db |}.

(** [PayoutRequest.objects.create(...)] *)
Definition create_payout_request (r : PayoutRequest) (db : DB) : DB :=
  {| transactions := transactions db;
     promo_links := promo_links db;
     payout_requests := r :: payout_requests db;
     logs := logs db |}.

(** [PromoLink.is_expired]: [timezone.now() > self.expires_at] *)
Definition is_expired (now : Z) (p : PromoLink) : bool := now >? expires_at p.

(** [d.get(k, dflt)] on a dict of strings. *)
Definition dict_get (d : gmap string string) (k dflt : string) : string :=
  match d !! k with Some v => v | None => dflt end.

(** The [recipient_data] dict: its entries are strings or [None] (the
    claim view puts [None] under the key of every recipient field the
    request left out). *)
Definition Recipient : Type := gmap string (option string).

(** [bool(recipient_data)]: [None] and the empty dict are falsy. *)
Definition dict_truthy (d : option Recipient) : bool :=
  match d with
  | Some m => negb (bool_decide (m = ∅))
  | None => false
  end.

(** [recipient_data.get(k, dflt)]: the default stands in for a missing
    key only, a [None] under the key is returned as it is. *)
Definition recipient_get (d : Recipient) (k dflt : string) : option string :=
  match d !! k with Some v => v | None => Some dflt end.

(** What the database makes of a value written to a column without
    [null=True]. *)
Definition not_null (v : option string) : Res string :=
  match v with
  | Some s => Ok s
  | None => Raise (IntegrityError "NOT NULL constraint failed")
  end.

(** [PromoLink.mark_as_used(ip_address, recipient_data)]: the
    assignments and the [save()], which the three recipient columns,
    declared without [null=True], refuse for a [None]; the result is the
    row as saved.  (Strings are taken to fit the width and the format of
    their columns.) *)
Definition mark_as_used (now : Z) (ip_address : option string)
           (recipient_data : option Recipient) (self : PromoLink)
  : Res PromoLink :=
  let filled := dict_truthy recipient_data in
  let d := default ∅ recipient_data in
  wallet ← not_null (if filled then recipient_get d "wallet" ""
                     else Some (recipient_wallet self));
  email ← not_null (if filled then recipient_get d "email" ""
                    else Some (recipient_email self));
  telegram ← not_null (if filled then recipient_get d "telegram" ""
                       else Some (recipient_telegram self));
  Ok {| promo_code := promo_code self;
        transaction := transaction self;
        qr_code_data := qr_code_data self;
        link_url := link_url self;
        is_used := true;
        used_at := Some now;
        used_ip := ip_address;
        recipient_wallet := wallet;
        recipient_email := email;
        recipient_telegram := telegram;
        expires_at := expires_at self |}.

(** The revert of [process_promo_claim_with_payout]:
    [is_used = False; used_at = None]. *)
Definition unmark_used (self : PromoLink) : PromoLink :=
  {| promo_code := promo_code self;
     transaction := transaction self;
     qr_code_data := qr_code_data self;
     link_url := link_url self;
     is_used := false;
     used_at := None;
     used_ip := used_ip self;
     recipient_wallet := recipient_wallet self;
     recipient_email := recipient_email self;
     recipient_telegram := recipient_telegram self;
     expires_at := expires_at self |}.

End Ledger.

Import Ledger.

(** ** apps/payments/services/promo_service.py *)

Module PromoLinkService.

(** [PromoLinkService.__init__] reads [PROMO_CODE_LENGTH]; the front-end
    base URL is [settings.FRONTEND_URL]; rendering the QR image is left
    to the [qrcode] package ([qr_image]). *)
Record Service := mkService {
  code_length : nat;
  base_url : string;
  qr_image : string -> string
}.

(** The dicts the service returns. *)
Record Response := mkResponse {
  success : bool;
  message : string;
  error_code : option string;
  reference : option string;
  estimated_delivery : option string
}.

Definition failure (msg code : string) : Response :=
  {| success := false; message := msg; error_code := Some code;
     reference := None; estimated_delivery := None |}.

(** [secrets.choice(seq)] with the random draw [r]. *)
Definition choice (seq : string) (r : nat) : Res string :=
  match char_at seq (r mod String.length seq)%nat with
  | Some c => Ok c
  | None => Raise (IndexError "Cannot choose from an empty sequence")
  end.

(** [''.join(secrets.choice(chars) for _ in range(n))], the draws being
    [rnd k], [rnd (k + 1)], ... *)
Fixpoint join_choices (chars : string) (rnd : nat -> nat) (k n : nat)
  : Res string :=
  match n with
  | O => Ok ""
  | S n' =>
      c ← choice chars (rnd k);
      rest ← join_choices chars rnd (S k) n';
      Ok (c ++ rest)
  end.

(** [_generate_promo_code]: the alphabet is built by four chained
    [replace] calls, the last of which is written [.replace('I')]. *)
Definition _generate_promo_code (svc : Service) (rnd : nat -> nat) (k : nat)
  : Res string :=
  let chars := ascii_uppercase ++ digits in
  chars ← (c1 ← replace chars ["0"; ""];
           c2 ← replace c1 ["O"; ""];
           c3 ← replace c2 ["1"; ""];
           replace c3 ["I"]);
  join_choices chars rnd k (code_length svc).

(** [_build_promo_url] *)
Definition _build_promo_url (svc : Service) (promo_code : string) : string :=
  base_url svc ++ "/claim/" ++ promo_code.

(** [PromoLink.objects.filter(code=promo_code).exists()] *)
Definition code_exists (db : DB) (c : string) : bool :=
  bool_decide (is_Some (promo_links db !! c)).

(** The loop [while ...exists(): promo_code = self._generate_promo_code()];
    [None] when [fuel] iterations did not reach a free code. *)
Fixpoint retry_until_free (fuel : nat) (svc : Service) (rnd : nat -> nat)
         (db : DB) (k : nat) (c : string) : option (Res string) :=
  if code_exists db c then
    match fuel with
    | O => None
    | S f =>
        match _generate_promo_code svc rnd k with
        | Ok c' => retry_until_free f svc rnd db (k + code_length svc) c'
        | Raise e => Some (Raise e)
        end
    end
  else Some (Ok c).

(** [PromoLink.objects.create(...)]: [code] is unique and [transaction]
    is one-to-one. *)
Definition create (p : PromoLink) (db : DB) : Res PromoLink * DB :=
  if code_exists db (promo_code p) then
    (Raise (IntegrityError "duplicate code"), db)
  else if bool_decide (map_Exists (fun _ q => Ledger.transaction q = Ledger.transaction p)
                                  (promo_links db)) then
    (Raise (IntegrityError "duplicate transaction"), db)
  else (Ok p, save_promo_link p db).

(** [create_promo_link(transaction)]; the [except] clause logs and
    re-raises. *)
Definition create_promo_link (fuel : nat) (svc : Service) (rnd : nat -> nat)
           (db : DB) (tx : Transaction) : option (Res PromoLink * DB) :=
  match _generate_promo_code svc rnd 0 with
  | Raise e => Some (Raise e, db)
  | Ok c0 =>
      match retry_until_free fuel svc rnd db (code_length svc) c0 with
      | None => None
      | Some (Raise e) => Some (Raise e, db)
      | Some (Ok c) =>
          let url := _build_promo_url svc c in
          Some (create {| promo_code := c;
                          Ledger.transaction := tx_id tx;
                          qr_code_data := qr_image svc url;
                          link_url := url;
                          is_used := false;
                          used_at := None;
                          used_ip := None;
                          recipient_wallet := "";
                          recipient_email := "";
                          recipient_telegram := "";
                          expires_at := tx_expires_at tx |} db)
      end
  end.

(** [x in [...]] on strings *)
Definition in_list (x : string) (l : list string) : bool :=
  existsb (String.eqb x) l.

Record Validation := mkValidation {
  valid : bool;
  v_message : string;
  v_error_code : option string
}.

(** [_validate_promo_link(promo_link)]; [tx] is [promo_link.transaction]
    and [now] the clock read by [is_expired]. *)
Definition _validate_promo_link (now : Z) (promo_link : PromoLink)
           (tx : Transaction) : Validation :=
  if is_used promo_link then
    {| valid := false;
       v_message := "This promo code has already been used";
       v_error_code := Some "ALREADY_USED" |}
  else if is_expired now promo_link then
    {| valid := false;
       v_message := "This promo code has expired";
       v_error_code := Some "EXPIRED" |}
  else if negb (in_list (status tx) ["completed"; "pending"]) then
    {| valid := false;
       v_message := "This promo code is no longer valid";
       v_error_code := Some "INVALID_TRANSACTION" |}
  else
    {| valid := true;
       v_message := "Promo code is valid and ready to claim";
       v_error_code := None |}.

(** [recipient_data.get(k)] is truthy: present, not [None] and not the
    empty string. *)
Definition has_key (d : Recipient) (k : string) : bool :=
  match d !! k with
  | Some (Some v) => negb (String.eqb v "")
  | _ => false
  end.

(** [_validate_recipient_data(recipient_data)] *)
Definition _validate_recipient_data (recipient_data : option Recipient)
  : bool :=
  if negb (dict_truthy recipient_data) then false
  else
    let d := default ∅ recipient_data in
    has_key d "email" || has_key d "telegram" || has_key d "wallet".

(** [_simulate_payout(transaction, recipient_data)] *)
Definition _simulate_payout (tx : Transaction) (d : Recipient)
  : Response :=
  if has_key d "wallet" then
    {| success := true; message := ""; error_code := None;
       reference := Some ("crypto_payout_" ++ tx_id tx);
       estimated_delivery := Some "10-30 minutes" |}
  else if has_key d "email" then
    {| success := true; message := ""; error_code := None;
       reference := Some ("email_payout_" ++ tx_id tx);
       estimated_delivery := Some "1-2 business days" |}
  else
    {| success := true; message := ""; error_code := None;
       reference := Some ("payout_" ++ tx_id tx);
       estimated_delivery := Some "1-3 business days" |}.

(** [_process_claim(promo_link, recipient_data, ip_address)] *)
Definition _process_claim (tx : Transaction)
           (recipient_data : option Recipient) : Response :=
  if negb (_validate_recipient_data recipient_data) then
    failure "Invalid recipient information provided" "INVALID_RECIPIENT_DATA"
  else
    let payout_result := _simulate_payout tx (default ∅ recipient_data) in
    if success payout_result then
      {| success := true;
         message := "Funds claimed successfully";
         error_code := None;
         reference := Some (default "" (reference payout_result));
         estimated_delivery := Some (default "" (estimated_delivery payout_result)) |}
    else
      failure (message payout_result) "PAYOUT_FAILED".

(** The arguments of one [claim_promo_link] call and the clock it reads. *)
Record ClaimCall := mkCall {
  call_code : string;
  call_recipient : option Recipient;
  call_ip : option string;
  call_now : Z
}.

(** [PromoLink.objects.select_related('transaction').get(code=promo_code)]:
    the in-memory copies of the two rows, or [None] for [DoesNotExist]. *)
Definition load (db : DB) (c : string) : option (PromoLink * Transaction) :=
  p ← promo_links db !! c;
  tx ← transactions db !! Ledger.transaction p;
  Some (p, tx).

(** The rest of [claim_promo_link] once the rows are in memory: validate,
    process, then [mark_as_used] (which saves the in-memory promo link)
    and the status update of the in-memory transaction.  An exception
    of [mark_as_used] is caught by the method's [except Exception] and
    answered with CLAIM_ERROR. *)
Definition finish (call : ClaimCall) (rows : option (PromoLink * Transaction))
           (db : DB) : Response * DB :=
  match rows with
  | None => (failure "Promo code not found" "PROMO_NOT_FOUND", db)
  | Some (promo_link, tx) =>
      let validation_result := _validate_promo_link (call_now call) promo_link tx in
      if negb (valid validation_result) then
        ({| success := false;
            message := v_message validation_result;
            error_code := v_error_code validation_result;
            reference := None; estimated_delivery := None |}, db)
      else
        let claim_result := _process_claim tx (call_recipient call) in
        if success claim_result then
          match mark_as_used (call_now call) (call_ip call) (call_recipient call)
                             promo_link with
          | Raise _ =>
              (failure "An error occurred while processing your claim"
                       "CLAIM_ERROR", db)
          | Ok used =>
              let db1 := save_promo_link used db in
              let db2 :=
                if String.eqb (status tx) "completed"
                then save_transaction (with_status tx "claimed") db1
                else db1 in
              (claim_result, db2)
          end
        else (claim_result, db)
  end.

(** [claim_promo_link(promo_code, recipient_data, ip_address)] run
    without interruption. *)
Definition claim_promo_link (db : DB) (call : ClaimCall) : Response * DB :=
  finish call (load db (call_code call)) db.

(** *** Two claim requests served by concurrent workers

    Nothing in [claim_promo_link] locks the row (no [select_for_update],
    no conditional update): a worker reads the rows, decides on its
    in-memory copy and writes it back.  A worker is therefore two
    database steps, and a schedule says which worker moves next. *)

Inductive Worker :=
| Ready (call : ClaimCall)
| Loaded (call : ClaimCall) (rows : option (PromoLink * Transaction))
| Returned (r : Response).

Definition step (w : Worker) (db : DB) : Worker * DB :=
  match w with
  | Ready call => (Loaded call (load db (call_code call)), db)
  | Loaded call rows =>
      let (r, db') := finish call rows db in (Returned r, db')
  | Returned r => (w, db)
  end.

Record Config := mkConfig {
  cfg_db : DB;
  worker_a : Worker;
  worker_b : Worker
}.

Inductive Who := WorkerA | WorkerB.

Definition sched_step (cfg : Config) (who : Who) : Config :=
  match who with
  | WorkerA =>
      let (w, db') := step (worker_a cfg) (cfg_db cfg) in
      {| cfg_db := db'; worker_a := w; worker_b := worker_b cfg |}
  | WorkerB =>
      let (w, db') := step (worker_b cfg) (cfg_db cfg) in
      {| cfg_db := db'; worker_a := worker_a cfg; worker_b := w |}
  end.

Definition run_schedule (cfg : Config) (schedule : list Who) : Config :=
  fold_left sched_step schedule cfg.

End PromoLinkService.

(** ** apps/payments/services/payment_service.py *)

Module PaymentService.

Import PromoLinkService.

(** [_log_transaction_action(transaction_obj, action, old_status=None,
    new_status=None, details=None)] *)
Definition _log_transaction_action (tx : Transaction) (act : string)
           (old new : option string) (dt : option (gmap string string))
           (db : DB) : DB :=
  create_log {| log_transaction := tx_id tx;
                action := act;
                old_status := default "" old;
                new_status := default (status tx) new;
                details := default ∅ dt |} db.

(** [_process_stripe_payment]: the simulated charge. *)
Definition _process_stripe_payment (tx : Transaction) : gmap string string * bool :=
  ({[ "success" := "True";
      "reference" := "stripe_" ++ tx_id tx;
      "message" := "Payment processed successfully" ]}, true).

Record FiatResult := mkFiatResult {
  fiat_success : bool;
  fiat_transaction_id : string;
  fiat_status : string;
  fiat_reference : string;
  fiat_message : string
}.

(** [process_fiat_payment(transaction_id, payment_method_data)].  The
    method runs outside [transaction.atomic()], so what was saved before
    an exception stays saved. *)
Definition process_fiat_payment (now : Z) (db : DB) (transaction_id : string)
           (payment_method_data : gmap string string)
  : Res FiatResult * DB :=
  match transactions db !! transaction_id with
  | None => (Raise (ValueError "Transaction not found"), db)
  | Some tx =>
      if negb (String.eqb (status tx) "pending") then
        (Raise (ValueError "Transaction is not in pending status"), db)
      else
        let tx1 := with_status tx "processing" in
        let db1 := save_transaction tx1 db in
        let db2 := _log_transaction_action tx1 "status_changed"
                     (Some "pending") (Some "processing") None db1 in
        if bool_decide (payment_method_data !! "method" = Some "stripe") then
          let (result, ok) := _process_stripe_payment tx1 in
          if ok then
            let tx2 :=
              {| tx_id := tx_id tx1; status := "completed";
                 net_amount := net_amount tx1;
                 converted_currency := converted_currency tx1;
                 payment_reference := dict_get result "reference" "";
                 tx_provider := tx_provider tx1;
                 tx_expires_at := tx_expires_at tx1;
                 completed_at := Some now |} in
            let db3 := save_transaction tx2 db2 in
            let db4 := _log_transaction_action tx2 "payment_completed"
                         None None (Some result) db3 in
            (Ok {| fiat_success := true;
                   fiat_transaction_id := tx_id tx2;
                   fiat_status := status tx2;
                   fiat_reference := payment_reference tx2;
                   fiat_message := dict_get result "message" "" |}, db4)
          else
            let tx2 := with_status tx1 "failed" in
            let db3 := save_transaction tx2 db2 in
            let db4 := _log_transaction_action tx2 "payment_failed"
                         None None (Some result) db3 in
            (Ok {| fiat_success := false;
                   fiat_transaction_id := tx_id tx2;
                   fiat_status := status tx2;
                   fiat_reference := payment_reference tx2;
                   fiat_message := dict_get result "message" "" |}, db4)
        else (Raise (ValueError "Unsupported payment method"), db2)
  end.

(** [_create_payout_request(promo_link, recipient_data)]: the row that
    [PayoutRequest.objects.create] inserts, whose text columns refuse a
    [None]. *)
Definition _create_payout_request (p : PromoLink) (tx : Transaction)
           (d : Recipient) : Res PayoutRequest :=
  method ← not_null (recipient_get d "payout_method" "crypto_wallet");
  wallet ← not_null (recipient_get d "wallet" "");
  email ← not_null (recipient_get d "email" "");
  Ok {| payout_promo_link := promo_code p;
        payout_method := method;
        payout_amount := net_amount tx;
        payout_currency := converted_currency tx;
        recipient_crypto_address := wallet;
        payout_recipient_email := email;
        payout_status := "pending" |}.

(** [_process_payout(payout_request)]; [rail_ok] is what the external
    rail (Stripe or the crypto wallet) answers. *)
Definition _process_payout (r : PayoutRequest) (rail_ok : bool) : bool :=
  if in_list (payout_method r) ["stripe_card"; "bank_transfer"] then rail_ok
  else if String.eqb (payout_method r) "crypto_wallet" then rail_ok
  else false.

(** [process_promo_claim_with_payout(promo_code, recipient_data,
    ip_address)] *)
Definition process_promo_claim_with_payout (db : DB) (call : ClaimCall)
           (rail_ok : bool) : Response * DB :=
  let (claim_result, db1) := claim_promo_link db call in
  if negb (success claim_result) then (claim_result, db1)
  else
    match load db1 (call_code call) with
    | None => (failure "Error processing payout" "PAYOUT_ERROR", db)
    | Some (promo_link, tx) =>
        if negb (String.eqb (status tx) "ready_for_claim") then
          (failure "Transaction is not ready for claim" "NOT_READY", db1)
        else
          match _create_payout_request promo_link tx
                  (default ∅ (call_recipient call)) with
          | Raise _ => (failure "Error processing payout" "PAYOUT_ERROR", db)
          | Ok payout_request =>
              let db2 := create_payout_request payout_request db1 in
              if _process_payout payout_request rail_ok then
                let tx' := with_status tx "claim_processing" in
                let db3 := save_transaction tx' db2 in
                let db4 := _log_transaction_action tx' "payout_initiated"
                             None None None db3 in
                ({| success := true;
                    message := "Payout initiated successfully";
                    error_code := None;
                    reference := None;
                    estimated_delivery := None |}, db4)
              else
                let db3 := save_promo_link (unmark_used promo_link) db2 in
                let db4 := save_transaction (with_status tx "ready_for_claim") db3 in
                ({| success := false; message := "payout failed";
                    error_code := None; reference := None;
                    estimated_delivery := None |}, db4)
          end
    end.

End PaymentService.

(** ** apps/providers/models.py: [ProviderWebhook], and the delivery task
       of apps/payments/tasks.py *)

Module Webhooks.

Record ProviderWebhook := mkWebhook {
  event : string;
  delivered : bool;
  delivery_attempts : nat;
  last_attempt : option Z;
  next_retry : option Z;
  response_code : option Z;
  response_body : string;
  error_message : string;
  delivered_at : option Z
}.

(** [retry_delays = [300, 900, 1800, 3600, 7200]] (seconds) *)
Definition retry_delays : list Z := [300; 900; 1800; 3600; 7200].

(** [ProviderWebhook.mark_delivered(response_code, response_body)] *)
Definition mark_delivered (now : Z) (code : Z) (body : string)
           (self : ProviderWebhook) : ProviderWebhook :=
  {| event := event self;
     delivered := true;
     delivery_attempts := delivery_attempts self;
     last_attempt := last_attempt self;
     next_retry := next_retry self;
     response_code := Some code;
     response_body := body;
     error_message := error_message self;
     delivered_at := Some now |}.

(** [ProviderWebhook.mark_failed(error_message, response_code=None)] *)
Definition mark_failed (now : Z) (msg : string) (code : option Z)
           (self : ProviderWebhook) : ProviderWebhook :=
  let attempts := S (delivery_attempts self) in
  {| event := event self;
     delivered := delivered self;
     delivery_attempts := attempts;
     last_attempt := Some now;
     next_retry :=
       if (attempts <=? length retry_delays)%nat then
         match retry_delays !! (attempts - 1)%nat with
         | Some delay => Some (now + delay)
         | None => next_retry self
         end
       else next_retry self;
     response_code := code;
     response_body := response_body self;
     error_message := msg;
     delivered_at := delivered_at self |}.

(** The filter of [send_provider_webhooks]:
    [delivered=False, delivery_attempts__lt=5, next_retry__lte=now]
    (a NULL [next_retry] never satisfies [<=]). *)
Definition is_pending (now : Z) (w : ProviderWebhook) : bool :=
  negb (delivered w)
  && (delivery_attempts w <? 5)%nat
  && match next_retry w with
     | Some t => t <=? now
     | None => false
     end.

(** What one delivery attempt meets: an HTTP response, or an exception
    (time-out, connection error, ...); [at_time] is the clock when the
    outcome is recorded. *)
Inductive Outcome :=
| Responded (status_code : Z) (text : string)
| Raised (msg : string).

Record Attempt := mkAttempt { outcome : Outcome; at_time : Z }.

(** The body of the task's loop for one webhook. *)
Definition deliver (a : Attempt) (w : ProviderWebhook) : ProviderWebhook :=
  match outcome a with
  | Responded status_code text =>
      if (200 <=? status_code) && (status_code <? 300) then
        mark_delivered (at_time a) status_code (String.substring 0 1000 text) w
      else
        mark_failed (at_time a)
          ("HTTP " ++ pretty status_code ++ ": " ++ String.substring 0 500 text)
          (Some status_code) w
  | Raised msg => mark_failed (at_time a) msg None w
  end.

(** One run of [send_provider_webhooks] over the table (in query order):
    the first [budget] pending rows are attempted, the others are left
    alone.  [net] is the network: what the attempt for a row meets. *)
Fixpoint process (budget : nat) (now : Z) (net : ProviderWebhook -> Attempt)
         (table : list ProviderWebhook) : list ProviderWebhook :=
  match table with
  | [] => []
  | w :: rest =>
      if is_pending now w then
        match budget with
        | O => w :: rest
        | S b => deliver (net w) w :: process b now net rest
        end
      else w :: process budget now net rest
  end.

(** [...[:50]]: 50 rows at a time. *)
Definition send_provider_webhooks (now : Z) (net : ProviderWebhook -> Attempt)
           (table : list ProviderWebhook) : list ProviderWebhook :=
  process 50 now net table.

(** A sequence of task runs, each with its clock and network. *)
Definition run_tasks (runs : list (Z * (ProviderWebhook -> Attempt)))
           (table : list ProviderWebhook) : list ProviderWebhook :=
  fold_left (fun tbl r => send_provider_webhooks (fst r) (snd r) tbl) runs table.

End Webhooks.

(** ** apps/payments/services/exchange_service.py *)

Module ExchangeRateService.

(** [convert_currency]: [converted_amount = amount * rate] *)
Definition convert_currency (amount rate : Decimal) : Decimal := mul amount rate.

End ExchangeRateService.

(** * The vocabulary of the specification *)

Module Spec.

Import CommissionService.

(** A Decimal as the rate columns hold it: at most five digits, at most
    four decimal places ([max_digits=5, decimal_places=4]). *)
Definition rate_shaped (r : Decimal) : Prop :=
  Z.abs (coef r) < 10 ^ 5 /\ -4 <= expo r <= 0.

(** A Decimal with at most 20 significant digits ([max_digits=20]). *)
Definition amount_shaped (a : Decimal) : Prop :=
  Z.abs (coef a) < 10 ^ 20.

(** The calculation forms three numbers: the product amount x rate, the
    amount written with the decimals of that product, and their
    difference.  As long as each has at most 28 digits the Decimal
    context rounds none of them. *)
Definition unrounded (amount rate : Decimal) : Prop :=
  expo rate <= 0
  /\ Z.abs (coef amount * coef rate) < 10 ^ prec
  /\ Z.abs (coef amount * 10 ^ (- expo rate)) < 10 ^ prec
  /\ Z.abs (coef amount * 10 ^ (- expo rate) - coef amount * coef rate) < 10 ^ prec.

(** Numerical equality of two Decimals. *)
Definition dec_eq (x y : Decimal) : Prop := PyDecimal.eqb x y = true.

(** "commission_amount + net_amount == amount exactly": the sum is the
    mathematical one, no rounding in it. *)
Definition splits_exactly (r : CommissionResult) : Prop :=
  dec_eq (exact_add (res_amount r) (res_net_amount r)) (res_original_amount r).

(** The same check as Python evaluates it, with Decimal [+] and [==]. *)
Definition splits_in_python (r : CommissionResult) : Prop :=
  dec_eq (add (res_amount r) (res_net_amount r)) (res_original_amount r).

(** The specification's words for the commission: "amount x rate rounded
    to the currency's decimal_places" (half-even, on the exact product). *)
Definition spec_commission_amount (amount rate : Decimal) (places : Z) : Decimal :=
  let x := exact_mul amount rate in
  if expo x >=? - places then mkDec (align x (- places)) (- places)
  else
    let p := 10 ^ (- places - expo x) in
    mkDec (Z.sgn (coef x) *
           round_half_even (Z.abs (coef x) / p) (Z.abs (coef x) mod p) p)
          (- places).

(** Example rows. *)
Definition usd : Currency :=
  {| cur_id := 1; code := "USD"; is_crypto := false; cur_is_active := true;
     decimal_places := 2 |}.

Definition usdt : Currency :=
  {| cur_id := 2; code := "USDT"; is_crypto := true; cur_is_active := true;
     decimal_places := 6 |}.

(** A service with a 5% default rate. *)
Definition svc5 : Service :=
  {| default_rate := mkDec 5 (-2); max_rate := mkDec 10 (-2) |}.

Definition no_rows : Tables := {| providers := []; settings := [] |}.

(** One global setting of 4.93%. *)
Definition global_493 : Tables :=
  {| providers := [];
     settings := [ {| set_currency := None; set_provider := None;
                      rate := mkDec 493 (-4); set_is_active := true;
                      is_global := true |} ] |}.

(** 3297.50973432 units converted at 451588.44700820. *)
Definition modest_converted : Decimal :=
  ExchangeRateService.convert_currency
    (mkDec 329750973432 (-8)) (mkDec 45158844700820 (-8)).

(** 591307661934.23885869 units converted at 9876.26523992. *)
Definition big_converted : Decimal :=
  ExchangeRateService.convert_currency
    (mkDec 59130766193423885869 (-8)) (mkDec 987626523992 (-8)).

(** The six levels of the commission waterfall, highest precedence
    first, and what each one offers, as the code has it, for a currency
    and a resolved (active) provider, if any: the provider's own default
    rate is an offer only when it is not zero. *)
Inductive Level :=
| ProviderCurrency
| ProviderOnly
| ProviderDefault
| CurrencyOnly
| GlobalSetting
| SystemDefault.

Definition precedence : list Level :=
  [ProviderCurrency; ProviderOnly; ProviderDefault; CurrencyOnly;
   GlobalSetting; SystemDefault].

Definition offer (svc : Service) (t : Tables) (c : Currency)
           (p : option Provider) (l : Level) : option Decimal :=
  match l with
  | ProviderCurrency =>
      p' ← p; rate <$> first_setting t (q_provider_currency p' c)
  | ProviderOnly =>
      p' ← p; rate <$> first_setting t (q_provider_only p')
  | ProviderDefault =>
      p' ← p;
      if truthy (commission_rate p') then Some (commission_rate p') else None
  | CurrencyOnly => rate <$> first_setting t (q_currency_only c)
  | GlobalSetting => rate <$> first_setting t q_global
  | SystemDefault => Some (default_rate svc)
  end.

(** The provider a [provider_id] argument resolves to. *)
Definition resolved_provider (t : Tables) (provider_id : option string)
  : option Provider :=
  pid ← provider_id;
  if String.eqb pid "" then None else get_active_provider t pid.

(** The waterfall as the specification words it.  The provider is the
    one the request names; level 3 is "the provider's own default rate
    field", whatever it holds; and "the first match wins". *)
Definition named_provider (t : Tables) (provider_id : option string)
  : option Provider :=
  pid ← provider_id;
  List.find (fun p => String.eqb (prov_id p) pid) (providers t).

Definition spec_offer (svc : Service) (t : Tables) (c : Currency)
           (p : option Provider) (l : Level) : option Decimal :=
  match l with
  | ProviderDefault => commission_rate <$> p
  | _ => offer svc t c p l
  end.

Fixpoint first_match (offers : Level -> option Decimal) (levels : list Level)
  : option Decimal :=
  match levels with
  | [] => None
  | l :: rest =>
      match offers l with
      | Some r => Some r
      | None => first_match offers rest
      end
  end.

Definition spec_resolve (svc : Service) (t : Tables) (c : Currency)
           (provider_id : option string) : option Decimal :=
  first_match (spec_offer svc t c (named_provider t provider_id)) precedence.

(** Settings at all five scopes for USDT and the provider "p-1", whose
    own default is 4%. *)
Definition all_scopes : Tables :=
  {| providers :=
       [ {| prov_id := "p-1"; prov_is_active := true;
            commission_rate := mkDec 400 (-4) |} ];
     settings :=
       [ {| set_currency := None; set_provider := None;
            rate := mkDec 500 (-4); set_is_active := true; is_global := true |};
         {| set_currency := Some 2%nat; set_provider := None;
            rate := mkDec 300 (-4); set_is_active := true; is_global := false |};
         {| set_currency := None; set_provider := Some "p-1";
            rate := mkDec 200 (-4); set_is_active := true; is_global := false |};
         {| set_currency := Some 2%nat; set_provider := Some "p-1";
            rate := mkDec 100 (-4); set_is_active := true; is_global := false |} ] |}.

(** The same settings, the provider being inactive. *)
Definition all_scopes_inactive : Tables :=
  {| providers :=
       [ {| prov_id := "p-1"; prov_is_active := false;
            commission_rate := mkDec 400 (-4) |} ];
     settings := settings all_scopes |}.

(** An active provider whose own default rate is 0.0000, and a global
    setting of 5%. *)
Definition zero_default : Tables :=
  {| providers :=
       [ {| prov_id := "p-0"; prov_is_active := true;
            commission_rate := mkDec 0 (-4) |} ];
     settings :=
       [ {| set_currency := None; set_provider := None;
            rate := mkDec 500 (-4); set_is_active := true; is_global := true |} ] |}.

(** The promo-link table is indexed by its unique [code] column. *)
Definition indexed_by_code (db : DB) : Prop :=
  forall (c : string) (p : PromoLink),
    promo_links db !! c = Some p -> promo_code p = c.




(** Example rows: transaction "tx-1" expiring at time 1000 and its promo
    link "K7Q2M9" . *)
Definition tx1 (st : string) : Transaction :=
  {| tx_id := "tx-1"; status := st; net_amount := 9500000000;
     converted_currency := "USDT"; payment_reference := "";
     tx_provider := None; tx_expires_at := 1000; completed_at := None |}.

Definition link1 : PromoLink :=
  {| promo_code := "K7Q2M9"; Ledger.transaction := "tx-1";
     qr_code_data := ""; link_url := "https://ucpg.com/claim/K7Q2M9";
     is_used := false; used_at := None; used_ip := None;
     recipient_wallet := ""; recipient_email := ""; recipient_telegram := "";
     expires_at := 1000 |}.

Definition db1 (st : string) : DB :=
  {| transactions := {[ "tx-1" := tx1 st ]};
     promo_links := {[ "K7Q2M9" := link1 ]};
     payout_requests := [];
     logs := [] |}.

Definition call_at (now : Z) (wallet : string) : PromoLinkService.ClaimCall :=
  {| PromoLinkService.call_code := "K7Q2M9";
     PromoLinkService.call_recipient := Some {[ "wallet" := Some wallet ]};
     PromoLinkService.call_ip := None;
     PromoLinkService.call_now := now |}.

(** The recipient data [ClaimPromoView.post] builds for a request that
    gives a wallet only: the fields the request leaves out come as
    [None] ([bank_details], a dict no claim code reads, is left out). *)
Definition call_from_view (now : Z) (wallet : string) : PromoLinkService.ClaimCall :=
  {| PromoLinkService.call_code := "K7Q2M9";
     PromoLinkService.call_recipient :=
       Some {[ "wallet" := Some wallet; "email" := None; "telegram" := None;
               "payout_method" := Some "crypto" ]};
     PromoLinkService.call_ip := Some "203.0.113.7";
     PromoLinkService.call_now := now |}.

(** The transaction table is indexed by the primary key [id]. *)
Definition indexed_by_id (db : DB) : Prop :=
  forall (i : string) (tx : Transaction),
    transactions db !! i = Some tx -> tx_id tx = i.


(** A webhook that has failed [n] times and is due at time [due]. *)
Definition webhook_after (n : nat) (due : Z) : Webhooks.ProviderWebhook :=
  {| Webhooks.event := "payment_completed";
     Webhooks.delivered := false;
     Webhooks.delivery_attempts := n;
     Webhooks.last_attempt := None;
     Webhooks.next_retry := Some due;
     Webhooks.response_code := None;
     Webhooks.response_body := "";
     Webhooks.error_message := "";
     Webhooks.delivered_at := None |}.

(** A network on which every delivery would succeed at once. *)
Definition always_ok (now : Z) (w : Webhooks.ProviderWebhook) : Webhooks.Attempt :=
  {| Webhooks.outcome := Webhooks.Responded 200 "ok"; Webhooks.at_time := now |}.

(** A network on which every delivery times out. *)
Definition timing_out (now : Z) (w : Webhooks.ProviderWebhook) : Webhooks.Attempt :=
  {| Webhooks.outcome := Webhooks.Raised "Read timed out"; Webhooks.at_time := now |}.

(** A delivery fails: the endpoint answers outside 200..299, or the
    request raises (transport failure). *)
Definition delivery_fails (a : Webhooks.Attempt) : Prop :=
  match Webhooks.outcome a with
  | Webhooks.Responded status_code _ => status_code < 200 \/ 300 <= status_code
  | Webhooks.Raised _ => True
  end.

(** Every run of the list happens before time [t]. *)
Definition all_before (t : Z) (runs : list (Z * (Webhooks.ProviderWebhook -> Webhooks.Attempt)))
  : Prop :=
  Forall (fun r => fst r < t) runs.

End Spec.

Import Spec.

(** * More of the code *)

(** ** apps/payments/services/payment_service.py: creating a payment and
       the expiry sweeps; apps/payments/views.py: the admin cancel action *)

Module PaymentLifecycle.

Import CommissionService PromoLinkService PaymentService PyMore.

(** The entries of [settings.UCPG_SETTINGS] the payment service reads. *)
Record Settings := mkSettings {
  min_transaction_amount : Decimal;
  max_transaction_amount : Decimal;
  promo_link_expiry_hours : Z
}.

(** The [payment_data] dict, as the validated serializer hands it over. *)
Record PaymentData := mkPaymentData {
  amount : Decimal;
  from_currency : string;
  to_currency : string;
  contact_email : string;
  contact_telegram : string;
  provider_id : option string;
  payment_method : string
}.

(** What the service is built from and what lies outside it: the
    settings, the two sub-services, the currency and commission tables,
    the exchange-rate service (what [get_exchange_rate] answers for a
    pair), the random draws, the fresh UUID, the column adapter that
    stores a Decimal in a [DecimalField(20, 8)] (or raises), and the
    JSON encoding of the log details. *)
Record Env := mkEnv {
  env_settings : Settings;
  env_commission : CommissionService.Service;
  env_promo : PromoLinkService.Service;
  env_currencies : list Currency;
  env_tables : Tables;
  get_exchange_rate : Currency -> Currency -> Res Decimal;
  env_rnd : nat -> nat;
  uuid4 : string;
  store_decimal : Decimal -> Res Z;
  encode_details : PaymentData -> Res (gmap string string)
}.

(** [_get_currency(currency_code)] *)
Definition _get_currency (env : Env) (currency_code : string) : Res Currency :=
  match List.find (fun c => String.eqb (code c) (upper currency_code)
                            && cur_is_active c) (env_currencies env) with
  | Some c => Ok c
  | None => Raise (ValueError "Currency not found or inactive")
  end.

(** [_validate_amount(amount)] *)
Definition _validate_amount (env : Env) (amount : Decimal) : Res unit :=
  if ltb amount (min_transaction_amount (env_settings env)) then
    Raise (ValueError "Amount is below minimum")
  else if ltb (max_transaction_amount (env_settings env)) amount then
    Raise (ValueError "Amount exceeds maximum")
  else Ok tt.

(** [exchange_service.convert_currency(amount, from_currency, to_currency)],
    as far as its converted amount goes. *)
Definition convert_currency (env : Env) (amount : Decimal) (from to : Currency)
  : Res Decimal :=
  rate ← get_exchange_rate env from to;
  Ok (ExchangeRateService.convert_currency amount rate).

(** [_create_transaction(...)]: [Transaction.objects.create] with the
    primary key, the foreign key to the provider and the stored net
    amount checked by the database. *)
Definition _create_transaction (env : Env) (now : Z) (db : DB)
           (converted_currency : Currency) (commission_data : CommissionResult)
           (payment_data : PaymentData) : Res Transaction * DB :=
  let expires_at := now + promo_link_expiry_hours (env_settings env) * 3600 in
  match store_decimal env (res_net_amount commission_data) with
  | Raise e => (Raise e, db)
  | Ok stored_net =>
      if bool_decide (is_Some (transactions db !! uuid4 env)) then
        (Raise (IntegrityError "duplicate transaction id"), db)
      else if match provider_id payment_data with
              | Some pid =>
                  negb (existsb (fun p => String.eqb (prov_id p) pid)
                                (providers (env_tables env)))
              | None => false
              end then
        (Raise (IntegrityError "provider does not exist"), db)
      else
        let tx := {| tx_id := uuid4 env;
                     status := "pending";
                     net_amount := stored_net;
                     converted_currency := code converted_currency;
                     payment_reference := "";
                     tx_provider := provider_id payment_data;
                     tx_expires_at := expires_at;
                     completed_at := None |} in
        (Ok tx, save_transaction tx db)
  end.

(** What a created payment reports: the dict is read off the new
    transaction and its promo link. *)
Record Created := mkCreated {
  created_transaction : Transaction;
  created_promo_link : PromoLink
}.

(** The body of [with transaction.atomic():] in [create_payment]. *)
Definition create_payment_body (fuel : nat) (env : Env) (now : Z) (db : DB)
           (payment_data : PaymentData) : option (Res Created * DB) :=
  match _get_currency env (from_currency payment_data) with
  | Raise e => Some (Raise e, db)
  | Ok from =>
  match _get_currency env (to_currency payment_data) with
  | Raise e => Some (Raise e, db)
  | Ok to =>
  match _validate_amount env (amount payment_data) with
  | Raise e => Some (Raise e, db)
  | Ok _ =>
  match convert_currency env (amount payment_data) from to with
  | Raise e => Some (Raise e, db)
  | Ok converted_amount =>
      let commission_data :=
        calculate_commission (env_commission env) (env_tables env)
                             converted_amount to (provider_id payment_data) in
      match _create_transaction env now db to commission_data payment_data with
      | (Raise e, db1) => Some (Raise e, db1)
      | (Ok transaction_obj, db1) =>
          match create_promo_link fuel (env_promo env) (env_rnd env) db1
                                  transaction_obj with
          | None => None
          | Some (Raise e, db2) => Some (Raise e, db2)
          | Some (Ok promo_link, db2) =>
              match encode_details env payment_data with
              | Raise e => Some (Raise e, db2)
              | Ok dt =>
                  Some (Ok {| created_transaction := transaction_obj;
                              created_promo_link := promo_link |},
                        _log_transaction_action transaction_obj "created"
                          None None (Some dt) db2)
              end
          end
      end
  end end end end.

(** [create_payment(payment_data)]: the body runs inside
    [transaction.atomic()], so an exception undoes every write before it
    is logged and re-raised. *)
Definition create_payment (fuel : nat) (env : Env) (now : Z) (db : DB)
           (payment_data : PaymentData) : option (Res Created * DB) :=
  match create_payment_body fuel env now db payment_data with
  | None => None
  | Some (Raise e, _) => Some (Raise e, db)
  | Some (Ok r, db') => Some (Ok r, db')
  end.

(** The rows of [Transaction.objects.filter(status='pending',
    expires_at__lt=now)]. *)
Definition stale_pending (now : Z) (tx : Transaction) : bool :=
  String.eqb (status tx) "pending" && (tx_expires_at tx <? now).

(** One turn of the loop of [expire_old_transactions]. *)
Definition expire_one (acc : nat * DB) (tx : Transaction) : nat * DB :=
  let tx' := with_status tx "expired" in
  (S (fst acc),
   _log_transaction_action tx' "auto_expired" None None None
     (save_transaction tx' (snd acc))).

(** [expire_old_transactions()]: the count it returns and the database
    afterwards.  The query is evaluated once, before the loop; the rows
    come in the table's iteration order. *)
Definition expire_old_transactions (now : Z) (db : DB) : nat * DB :=
  fold_left expire_one
            (List.filter (stale_pending now)
                         (List.map snd (map_to_list (transactions db))))
            (0%nat, db).

(** What [AdminTransactionViewSet.cancel] answers. *)
Inductive HttpAnswer :=
| Http200 (message : string)
| Http400 (message : string)
| Http500 (message : string).

(** [AdminTransactionViewSet.cancel(request, pk)]; the [Http404] that
    [get_object()] raises for an unknown key is caught by the method's
    own [except Exception] and answered with a 500. *)
Definition cancel (db : DB) (pk : string) : HttpAnswer * DB :=
  match transactions db !! pk with
  | None => (Http500 "Error cancelling transaction", db)
  | Some tx =>
      if negb (in_list (status tx) ["pending"; "processing"]) then
        (Http400 "Can only cancel pending or processing transactions", db)
      else
        (Http200 "Transaction cancelled successfully",
         save_transaction (with_status tx "cancelled") db)
  end.

End PaymentLifecycle.

(** ** apps/payments/services/promo_service.py: the sweep over expired
       promo links *)

Module PromoSweep.

Import PromoLinkService.

(** The rows of [PromoLink.objects.filter(is_used=False,
    expires_at__lt=now)]. *)
Definition stale_link (now : Z) (p : PromoLink) : bool :=
  negb (is_used p) && (expires_at p <? now).

(** How the sweep ends: with its count, or with the
    [Transaction.DoesNotExist] that [promo_link.transaction] raises when
    the row is gone (what was saved before stays saved). *)
Inductive SweepResult :=
| Done (expired_count : nat) (db : DB)
| DoesNotExist (db : DB).

(** The loop of [expire_old_promo_links]: [promo_link.transaction] is
    fetched when the loop reaches the link. *)
Fixpoint sweep_links (rows : list PromoLink) (expired_count : nat) (db : DB)
  : SweepResult :=
  match rows with
  | [] => Done expired_count db
  | promo_link :: rest =>
      match transactions db !! Ledger.transaction promo_link with
      | None => DoesNotExist db
      | Some tx =>
          let db' :=
            if in_list (status tx) ["pending"; "completed"]
            then save_transaction (with_status tx "expired") db
            else db in
          sweep_links rest (S expired_count) db'
      end
  end.

(** [expire_old_promo_links()]; the query is evaluated once, before the
    loop, and the rows come in the table's iteration order. *)
Definition expire_old_promo_links (now : Z) (db : DB) : SweepResult :=
  sweep_links (List.filter (stale_link now)
                           (List.map snd (map_to_list (promo_links db))))
              0 db.

End PromoSweep.

(** ** apps/payments/models.py and services/commission_service.py: writing
       and describing commission settings *)

Module CommissionAdmin.

Import CommissionService PyMore.

(** [CommissionSetting.clean()]: [None] when the row passes, otherwise
    the message of the [ValidationError]. *)
Definition clean (self : CommissionSetting) : option string :=
  if negb (is_global self) && fk_isnull (set_currency self)
     && fk_isnull (set_provider self) then
    Some "Commission must be global, currency-specific, or provider-specific"
  else if is_global self
          && (negb (fk_isnull (set_currency self))
              || negb (fk_isnull (set_provider self))) then
    Some "Global commission cannot have currency or provider specified"
  else None.

(** The [setting_data] dict. *)
Record SettingData := mkSettingData {
  sd_id : option nat;
  sd_currency_code : option string;
  sd_provider_id : option string;
  sd_rate : Decimal;
  sd_is_global : option bool
}.

(** The tables behind the admin calls; the settings are keyed by their
    integer primary key, [next_id] being the next one the database hands
    out. *)
Record AdminTables := mkAdminTables {
  currencies : list Currency;
  admin_providers : list Provider;
  setting_rows : gmap nat CommissionSetting;
  next_id : nat
}.

(** [unique_together = [['currency', 'provider']]]: another row with the
    same two keys, both set (NULLs never clash). *)
Definition clashes (rows : gmap nat CommissionSetting) (id : nat)
           (s : CommissionSetting) : bool :=
  match set_currency s, set_provider s with
  | Some c, Some p =>
      bool_decide
        (map_Exists (fun i r => i <> id
                                /\ set_currency r = Some c
                                /\ set_provider r = Some p) rows)
  | _, _ => false
  end.

Definition str_truthy (s : option string) : bool :=
  match s with
  | Some v => negb (String.eqb v "")
  | None => false
  end.

(** A row with another rate. *)
Definition with_rate (s : CommissionSetting) (r : Decimal) : CommissionSetting :=
  {| set_currency := set_currency s;
     set_provider := set_provider s;
     rate := r;
     set_is_active := set_is_active s;
     is_global := is_global s |}.

(** [update_commission_setting(setting_data)]: the id and the object it
    reports, and the tables afterwards.  [setting_data['rate']] is taken
    as the Decimal it parses to.  [store_rate] is the column adapter of
    [rate], a [DecimalField(max_digits=5, decimal_places=4)]: what the
    database keeps of a Decimal, or the error it raises; the object in
    memory keeps the Decimal it was given.  [save()] and [create()] do
    not call [clean()].  The messages leave out the values the source
    interpolates. *)
Definition update_commission_setting (svc : Service)
           (store_rate : Decimal -> Res Decimal) (t : AdminTables)
           (setting_data : SettingData)
  : Res (nat * CommissionSetting) * AdminTables :=
  let rate := sd_rate setting_data in
  if ltb rate (mkDec 0 0) || ltb (max_rate svc) rate then
    (Raise (ValueError "Rate must be between 0 and max_rate"), t)
  else
    match
      (if str_truthy (sd_currency_code setting_data) then
         match List.find (fun c => String.eqb (code c)
                                     (upper (default "" (sd_currency_code setting_data)))
                                   && cur_is_active c) (currencies t) with
         | Some c => Ok (Some (cur_id c))
         | None => Raise (ValueError "Currency not found")
         end
       else Ok None)
    with
    | Raise e => (Raise e, t)
    | Ok currency =>
    match
      (if str_truthy (sd_provider_id setting_data) then
         match List.find (fun p => String.eqb (prov_id p)
                                     (default "" (sd_provider_id setting_data))
                                   && prov_is_active p) (admin_providers t) with
         | Some p => Ok (Some (prov_id p))
         | None => Raise (ValueError "Provider not found")
         end
       else Ok None)
    with
    | Raise e => (Raise e, t)
    | Ok provider =>
        match sd_id setting_data with
        | Some (S n) =>
            let id := S n in
            match setting_rows t !! id with
            | None => (Raise (ValueError "Commission setting not found"), t)
            | Some setting =>
                let setting' :=
                  {| set_currency := currency;
                     set_provider := provider;
                     rate := rate;
                     set_is_active := set_is_active setting;
                     is_global := default false (sd_is_global setting_data) |} in
                match store_rate rate with
                | Raise e => (Raise e, t)
                | Ok kept =>
                    if clashes (setting_rows t) id (with_rate setting' kept) then
                      (Raise (IntegrityError "currency and provider are not unique"), t)
                    else
                      (Ok (id, setting'),
                       {| currencies := currencies t;
                          admin_providers := admin_providers t;
                          setting_rows :=
                            <[id := with_rate setting' kept]> (setting_rows t);
                          next_id := next_id t |})
                end
            end
        | _ =>
            let setting :=
              {| set_currency := currency;
                 set_provider := provider;
                 rate := rate;
                 set_is_active := true;
                 is_global := default false (sd_is_global setting_data) |} in
            match store_rate rate with
            | Raise e => (Raise e, t)
            | Ok kept =>
                if clashes (setting_rows t) (next_id t) (with_rate setting kept) then
                  (Raise (IntegrityError "currency and provider are not unique"), t)
                else
                  (Ok (next_id t, setting),
                   {| currencies := currencies t;
                      admin_providers := admin_providers t;
                      setting_rows :=
                        <[next_id t := with_rate setting kept]> (setting_rows t);
                      next_id := S (next_id t) |})
            end
        end
    end end.

(** [_get_rate_source(currency, provider_id)]; [name_of] gives the name
    column of the provider with a given id.  The provider is fetched by
    id alone here. *)
Definition _get_rate_source (t : Tables) (name_of : string -> string)
           (currency : option Currency) (provider_id : option string) : string :=
  let provider :=
    match provider_id with
    | Some pid =>
        if String.eqb pid "" then None
        else List.find (fun p => String.eqb (prov_id p) pid) (providers t)
    | None => None
    end in
  let exists_setting f := match first_setting t f with Some _ => true | None => false end in
  let from_global_down :=
    if exists_setting q_global then "Global Setting" else "System Default" in
  let from_currency_down :=
    match currency with
    | Some c =>
        if exists_setting (q_currency_only c) then "Currency (" ++ code c ++ ")"
        else from_global_down
    | None => from_global_down
    end in
  let from_provider_down :=
    match provider with
    | Some p =>
        if exists_setting (q_provider_only p) then
          "Provider (" ++ name_of (prov_id p) ++ ")"
        else if truthy (commission_rate p) then
          "Provider Default (" ++ name_of (prov_id p) ++ ")"
        else from_currency_down
    | None => from_currency_down
    end in
  match provider, currency with
  | Some p, Some c =>
      if exists_setting (q_provider_currency p c) then
        "Provider + Currency (" ++ name_of (prov_id p) ++ " + " ++ code c ++ ")"
      else from_provider_down
  | _, _ => from_provider_down
  end.

End CommissionAdmin.

(** ** apps/providers/models.py: [Provider.generate_api_key];
       core/middleware/security.py: the API-key gate and the rate limiter *)

Module Security.

Import PromoLinkService PyMore.

(** [Provider.generate_api_key()], the draws being [rnd 0], [rnd 1], ... *)
Definition generate_api_key (rnd : nat -> nat) : Res string :=
  body ← join_choices "abcdefghijklmnopqrstuvwxyz0123456789" rnd 0 32;
  Ok ("ucpg_" ++ body).

(** What a middleware makes of a request: an answer of its own (status
    and error text), or the request goes on to the view. *)
Inductive Verdict :=
| Answer (status : nat) (error : string)
| PassOn.

(** [APIKeyValidationMiddleware.__call__], [api_key] being
    [request.META.get('HTTP_X_API_KEY')]. *)
Definition api_key_gate (path : string) (api_key : option string) : Verdict :=
  if startswith path "/api/v1/providers/api/" then
    match api_key with
    | None => Answer 401 "API key required"
    | Some k =>
        if String.eqb k "" then Answer 401 "API key required"
        else if negb (startswith k "ucpg_") || (String.length k <? 37)%nat
        then Answer 401 "Invalid API key format"
        else PassOn
    end
  else PassOn.

(** Django's cache, as far as the limiter uses it: a value and the time
    it expires. *)
Record Entry := mkEntry { value : nat; expires : Z }.

(** [cache.get(key, default)] *)
Definition cache_get (cache : gmap string Entry) (now : Z) (key : string)
           (dflt : nat) : nat :=
  match cache !! key with
  | Some e => if now <? expires e then value e else dflt
  | None => dflt
  end.

(** [cache.set(key, value, timeout)] *)
Definition cache_set (cache : gmap string Entry) (now : Z) (key : string)
           (v : nat) (timeout : Z) : gmap string Entry :=
  <[key := {| value := v; expires := now + timeout |}]> cache.

(** [RateLimitMiddleware._check_limit(client_id, endpoint, limit, window)] *)
Definition _check_limit (cache : gmap string Entry) (now : Z)
           (client_id endpoint : string) (limit : nat) (window : Z)
  : bool * gmap string Entry :=
  let cache_key := "rate_limit:" ++ endpoint ++ ":" ++ client_id in
  let current_count := cache_get cache now cache_key 0 in
  if (limit <=? current_count)%nat then (true, cache)
  else (false, cache_set cache now cache_key (current_count + 1) window).

(** The requests of one client on one endpoint, at the given times: the
    answers, first to last, and the cache afterwards. *)
Fixpoint check_all (cache : gmap string Entry) (client_id endpoint : string)
         (limit : nat) (window : Z) (times : list Z)
  : list bool * gmap string Entry :=
  match times with
  | [] => ([], cache)
  | now :: rest =>
      let (limited, cache') := _check_limit cache now client_id endpoint limit window in
      let (answers, cache'') := check_all cache' client_id endpoint limit window rest in
      (limited :: answers, cache'')
  end.

End Security.

(** * Further vocabulary *)

Module Vocabulary.

Import CommissionService.



(** The tables without their inactive commission settings. *)
Definition active_only (t : Tables) : Tables :=
  {| providers := providers t;
     settings := List.filter set_is_active (settings t) |}.

#[global] Instance webhook_eq_dec : EqDecision Webhooks.ProviderWebhook.
Proof. solve_decision. Defined.

(** The number of rows in which two versions of the webhook table
    differ. *)
Definition changed_rows (old new : list Webhooks.ProviderWebhook) : nat :=
  length (List.filter (fun p => bool_decide (fst p <> snd p)) (zip old new)).

(** A shop environment: USD and USDT, amounts between 1 and 10000, a
    24-hour expiry, every rate 1.0, and a column adapter that stores
    values of at most eight decimals as units. *)
Definition shop_env : PaymentLifecycle.Env :=
  {| PaymentLifecycle.env_settings :=
       {| PaymentLifecycle.min_transaction_amount := mkDec 1 0;
          PaymentLifecycle.max_transaction_amount := mkDec 10000 0;
          PaymentLifecycle.promo_link_expiry_hours := 24 |};
     PaymentLifecycle.env_commission := svc5;
     PaymentLifecycle.env_promo :=
       {| PromoLinkService.code_length := 8;
          PromoLinkService.base_url := "https://ucpg.com";
          PromoLinkService.qr_image := fun url => url |};
     PaymentLifecycle.env_currencies := [usd; usdt];
     PaymentLifecycle.env_tables := no_rows;
     PaymentLifecycle.get_exchange_rate := fun _ _ => Ok (mkDec 10 (-1));
     PaymentLifecycle.env_rnd := fun n => n;
     PaymentLifecycle.uuid4 := "tx-9";
     PaymentLifecycle.store_decimal :=
       fun d => if expo d >=? -8 then Ok (align d (-8))
                else Raise (ValueError "too many decimal places");
     PaymentLifecycle.encode_details := fun _ => Ok ∅ |}.

Definition hundred_dollars : PaymentLifecycle.PaymentData :=
  {| PaymentLifecycle.amount := mkDec 10000 (-2);
     PaymentLifecycle.from_currency := "usd";
     PaymentLifecycle.to_currency := "usdt";
     PaymentLifecycle.contact_email := "";
     PaymentLifecycle.contact_telegram := "";
     PaymentLifecycle.provider_id := None;
     PaymentLifecycle.payment_method := "stripe_card" |}.

(** Every promo link points at a transaction that exists. *)
Definition links_have_transactions (db : DB) : Prop :=
  forall (c : string) (p : PromoLink),
    promo_links db !! c = Some p ->
    is_Some (transactions db !! Ledger.transaction p).

(** What the promo-link sweep makes of a transaction: expired if it is
    pending or completed and one of the swept links is its own. *)
Definition swept (rows : list PromoLink) (i : string) (tx : Transaction)
  : Transaction :=
  if PromoLinkService.in_list (status tx) ["pending"; "completed"]
     && existsb (fun p => String.eqb (Ledger.transaction p) i) rows
  then with_status tx "expired" else tx.

(** A rate within the bounds [update_commission_setting] enforces. *)
Definition rate_in_range (svc : Service) (s : CommissionSetting) : Prop :=
  PyMore.leb (mkDec 0 0) (rate s) = true
  /\ PyMore.leb (rate s) (max_rate svc) = true.

(** The label [_get_rate_source] has for each level of the waterfall. *)
Definition level_label (name_of : string -> string) (p : option Provider)
           (c : Currency) (l : Level) : string :=
  let pname := match p with Some p' => name_of (prov_id p') | None => "" end in
  match l with
  | ProviderCurrency => "Provider + Currency (" ++ pname ++ " + " ++ code c ++ ")"
  | ProviderOnly => "Provider (" ++ pname ++ ")"
  | ProviderDefault => "Provider Default (" ++ pname ++ ")"
  | CurrencyOnly => "Currency (" ++ code c ++ ")"
  | GlobalSetting => "Global Setting"
  | SystemDefault => "System Default"
  end.

(** None of the three recipient entries that [mark_as_used] writes is
    [None]. *)
Definition stores_recipient (rd : option Recipient) : Prop :=
  forall k : string,
    In k ["wallet"; "email"; "telegram"] -> default ∅ rd !! k <> Some None.

(** The cache key of a client on an endpoint. *)
Definition limit_key (endpoint client_id : string) : string :=
  "rate_limit:" ++ endpoint ++ ":" ++ client_id.

(** A column adapter for [DecimalField(max_digits=5, decimal_places=4)]:
    the value rounded half-even to four decimals, refused when that needs
    more than five digits. *)
Definition four_places (d : Decimal) : Res Decimal :=
  let c :=
    if expo d >=? -4 then align d (-4)
    else
      let p := 10 ^ (-4 - expo d) in
      Z.sgn (coef d)
      * round_half_even (Z.abs (coef d) / p) (Z.abs (coef d) mod p) p in
  if Z.abs c <? 10 ^ 5 then Ok (mkDec c (-4))
  else Raise (ValueError "more than five digits").

(** Successive request times, each less than a window after the one
    before. *)
Fixpoint chained (window prev : Z) (times : list Z) : Prop :=
  match times with
  | [] => True
  | now :: rest => now < prev + window /\ chained window now rest
  end.

End Vocabulary.

Import Vocabulary.

(** * Properties *)

(** ** The model at work *)

Section Examples.

Import CommissionService PromoLinkService.

(** 28 nines plus one half: a tie, rounded to even, carries into a 29th
    digit and is renormalised to 1.000000000000000000000000000E+28. *)
Example add_rounds_half_even_with_carry :
  add (mkDec 9999999999999999999999999999 0) (mkDec 5 (-1))
  = mkDec 1000000000000000000000000000 1
  /\ add (mkDec 1000000000000000000000000000 0) (mkDec 5 (-1))
     = mkDec 1000000000000000000000000000 0
  /\ add (mkDec 1000000000000000000000000001 0) (mkDec 5 (-1))
     = mkDec 1000000000000000000000000002 0.
Proof. repeat split; vm_compute; reflexivity. Qed.

Example mul_keeps_trailing_zeros :
  mul (mkDec 10000000000 (-8)) (mkDec 10 (-1)) = mkDec 100000000000 (-9).
Proof. vm_compute. reflexivity. Qed.

(** The scenario of the specification: 100.00000000 converted at 1.0
    with the 5% default gives a commission of 5 and a net amount of 95. *)
Example commission_of_one_hundred :
  let r := calculate_commission svc5 no_rows
             (ExchangeRateService.convert_currency
                (mkDec 10000000000 (-8)) (mkDec 10 (-1)))
             usdt None in
  dec_eq (res_rate r) (mkDec 5 (-2))
  /\ dec_eq (res_amount r) (mkDec 5 0)
  /\ dec_eq (res_net_amount r) (mkDec 95 0).
Proof. repeat split; vm_compute; reflexivity. Qed.

(** The three well-formed [replace] calls remove 0, O and 1. *)
Example three_replaces :
  (c1 ← replace (ascii_uppercase ++ digits) ["0"; ""];
   c2 ← replace c1 ["O"; ""];
   replace c2 ["1"; ""])
  = Ok "ABCDEFGHIJKLMNPQRSTUVWXYZ23456789".
Proof. vm_compute. reflexivity. Qed.

Example lower_usd : lower "USD" = "usd".
Proof. reflexivity. Qed.

End Examples.

(** ** Decimal arithmetic below the context precision is exact *)

Section DecimalFacts.

Lemma round_small (c e : Z) :
  Z.abs c < 10 ^ prec -> PyDecimal.round c e = mkDec c e.
Proof.
  intros H. unfold PyDecimal.round.
  destruct (Z.ltb_spec (Z.abs c) (10 ^ prec)); [reflexivity | lia].
Qed.

Lemma pow10_pos (n : Z) : 0 <= n -> 0 < 10 ^ n.
Proof. intros. apply Z.pow_pos_nonneg; lia. Qed.

Lemma pow10_le (a b : Z) : 0 <= a <= b -> 10 ^ a <= 10 ^ b.
Proof. intros. apply Z.pow_le_mono_r; lia. Qed.

Lemma abs_mul_lt (a b m n : Z) :
  Z.abs a < m -> Z.abs b < n -> Z.abs (a * b) < m * n.
Proof.
  intros Ha Hb. rewrite Z.abs_mul.
  pose proof (Z.abs_nonneg a). pose proof (Z.abs_nonneg b). nia.
Qed.

Lemma mul_exact (a r : Decimal) :
  amount_shaped a -> rate_shaped r -> mul a r = exact_mul a r.
Proof.
  intros Ha [Hr _]. unfold mul, exact_mul. apply round_small.
  pose proof (abs_mul_lt _ _ _ _ Ha Hr) as H.
  unfold prec. change (10 ^ 20 * 10 ^ 5) with (10 ^ 25) in H.
  assert (10 ^ 25 < 10 ^ 28) by reflexivity. lia.
Qed.

Lemma align_amount (a r : Decimal) :
  rate_shaped r ->
  Z.min (expo a) (expo a + expo r) = expo a + expo r
  /\ align a (expo a + expo r) = coef a * 10 ^ (- expo r)
  /\ Z.abs (coef a * 10 ^ (- expo r)) <= Z.abs (coef a) * 10 ^ 4.
Proof.
  intros [_ He]. split; [lia|]. split.
  - unfold align. f_equal. f_equal. lia.
  - rewrite Z.abs_mul.
    assert (0 < 10 ^ (- expo r)) by (apply pow10_pos; lia).
    assert (10 ^ (- expo r) <= 10 ^ 4) by (apply pow10_le; lia).
    rewrite (Z.abs_eq (10 ^ _)) by lia.
    pose proof (Z.abs_nonneg (coef a)). nia.
Qed.

Lemma sub_exact (a r : Decimal) :
  amount_shaped a -> rate_shaped r ->
  sub a (mul a r)
  = mkDec (coef a * 10 ^ (- expo r) - coef a * coef r) (expo a + expo r).
Proof.
  intros Ha Hr. rewrite (mul_exact a r Ha Hr).
  destruct (align_amount a r Hr) as (Hm & Hal & Hb).
  unfold sub, exact_mul. cbn [expo coef]. rewrite Hm, Hal.
  unfold align at 1. cbn [expo coef].
  replace (expo a + expo r - (expo a + expo r)) with 0 by lia.
  rewrite Z.pow_0_r, Z.mul_1_r. apply round_small.
  destruct Hr as [Hr _].
  pose proof (abs_mul_lt _ _ _ _ Ha Hr) as H.
  unfold amount_shaped in Ha.
  pose proof (Z.abs_triangle (coef a * 10 ^ (- expo r)) (- (coef a * coef r))).
  rewrite Z.abs_opp in *.
  replace (coef a * 10 ^ (- expo r) + - (coef a * coef r))
    with (coef a * 10 ^ (- expo r) - coef a * coef r) in * by lia.
  unfold prec.
  assert (10 ^ 20 * 10 ^ 4 + 10 ^ 20 * 10 ^ 5 < 10 ^ 28) by reflexivity.
  lia.
Qed.

Lemma align_to_product (a r : Decimal) :
  expo r <= 0 ->
  Z.min (expo a) (expo a + expo r) = expo a + expo r
  /\ align a (expo a + expo r) = coef a * 10 ^ (- expo r).
Proof.
  intros He. split; [lia|]. unfold align. f_equal. f_equal. lia.
Qed.

Lemma mul_unrounded (a r : Decimal) : unrounded a r -> mul a r = exact_mul a r.
Proof.
  intros (_ & H & _). unfold mul, exact_mul. apply round_small. exact H.
Qed.

Lemma sub_unrounded (a r : Decimal) :
  unrounded a r ->
  sub a (mul a r)
  = mkDec (coef a * 10 ^ (- expo r) - coef a * coef r) (expo a + expo r).
Proof.
  intros Hu. rewrite (mul_unrounded a r Hu). destruct Hu as (He & _ & _ & Hd).
  destruct (align_to_product a r He) as (Hm & Hal).
  unfold sub, exact_mul. cbn [expo coef]. rewrite Hm, Hal.
  unfold align at 1. cbn [expo coef].
  replace (expo a + expo r - (expo a + expo r)) with 0 by lia.
  rewrite Z.pow_0_r, Z.mul_1_r. apply round_small. exact Hd.
Qed.

(** Amounts of up to 22 digits at a rate as the rate columns hold it are
    within the context. *)
Lemma shaped_unrounded (a r : Decimal) :
  Z.abs (coef a) < 9 * 10 ^ 22 -> rate_shaped r -> unrounded a r.
Proof.
  intros Ha (Hr & He). unfold unrounded, prec.
  assert (Hp : 0 < 10 ^ (- expo r)) by (apply pow10_pos; lia).
  assert (Hp4 : 10 ^ (- expo r) <= 10 ^ 4) by (apply pow10_le; lia).
  assert (H1 : 9 * 10 ^ 22 * 10 ^ 5 < 10 ^ 28) by reflexivity.
  assert (H2 : 10 ^ 4 < 10 ^ 5) by reflexivity.
  assert (H3 : 10 ^ 5 < 10 ^ 28) by reflexivity.
  split; [lia|].
  rewrite <- Z.mul_sub_distr_l, !Z.abs_mul.
  pose proof (Z.abs_nonneg (coef a)).
  assert (Z.abs (coef r) <= 10 ^ 5) by lia.
  assert (Z.abs (10 ^ (- expo r)) <= 10 ^ 5) by lia.
  assert (Z.abs (10 ^ (- expo r) - coef r) <= 10 ^ 4 + 10 ^ 5) by lia.
  assert (Hd : 9 * 10 ^ 22 * (10 ^ 4 + 10 ^ 5) < 10 ^ 28) by reflexivity.
  repeat split; nia.
Qed.

(** On values of a [DecimalField(max_digits=20, decimal_places=8)] the
    Decimal sum and difference are the integer sum and difference of the
    10^-8 units: the escrow balances can be counted in units. *)
Lemma field_arith_exact (a b : Z) :
  Z.abs a < 10 ^ 20 -> Z.abs b < 10 ^ 20 ->
  add (mkDec a (-8)) (mkDec b (-8)) = mkDec (a + b) (-8)
  /\ sub (mkDec a (-8)) (mkDec b (-8)) = mkDec (a - b) (-8).
Proof.
  intros Ha Hb. unfold add, sub, align. cbn [expo coef].
  change (Z.min (-8) (-8)) with (-8). change (-8 - -8) with 0.
  rewrite Z.pow_0_r, !Z.mul_1_r.
  assert (10 ^ 20 + 10 ^ 20 < 10 ^ prec) by reflexivity.
  split; apply round_small; lia.
Qed.

End DecimalFacts.

(** ** Commission calculation *)

Section CommissionCalculation.

Import CommissionService.

(** C4, as the specification states it, fails.  3297.50973432 units
    converted at 451588.44700820 have 26 digits, the 4.93% commission of it has 28 and the net amount is
    rounded by the Decimal context, so commission plus net is not the
    amount.  For the 28-digit amount converted from
    591307661934.23885869 at 9876.26523992 the sum is off by one unit in
    the last place even as Python adds and compares it. *)
Lemma commission_split_drifts :
  ~ splits_exactly (calculate_commission svc5 global_493 modest_converted usdt None)
  /\ ~ splits_exactly (calculate_commission svc5 global_493 big_converted usdt None)
  /\ ~ splits_in_python (calculate_commission svc5 global_493 big_converted usdt None).
Proof. repeat split; intros H; vm_compute in H; discriminate H. Qed.

Lemma add_back_unrounded (a r : Decimal) :
  unrounded a r ->
  exact_add (mul a r) (sub a (mul a r))
  = mkDec (coef a * 10 ^ (- expo r)) (expo a + expo r)
  /\ add (mul a r) (sub a (mul a r))
     = mkDec (coef a * 10 ^ (- expo r)) (expo a + expo r).
Proof.
  intros Hu. rewrite (sub_unrounded a r Hu), (mul_unrounded a r Hu).
  unfold exact_add, add, exact_mul, align. cbn [expo coef].
  rewrite Z.min_id.
  replace (expo a + expo r - (expo a + expo r)) with 0 by lia.
  rewrite Z.pow_0_r, !Z.mul_1_r.
  replace (coef a * coef r + (coef a * 10 ^ (- expo r) - coef a * coef r))
    with (coef a * 10 ^ (- expo r)) by lia.
  split; [reflexivity|]. apply round_small. apply Hu.
Qed.

Lemma dec_eq_to_product (a r : Decimal) :
  expo r <= 0 ->
  dec_eq (mkDec (coef a * 10 ^ (- expo r)) (expo a + expo r)) a.
Proof.
  intros He. destruct (align_to_product a r He) as (Hm & Hal).
  unfold dec_eq, PyDecimal.eqb. cbn [expo coef].
  rewrite Z.min_comm, Hm, Hal. unfold align. cbn [expo coef].
  replace (expo a + expo r - (expo a + expo r)) with 0 by lia.
  rewrite Z.pow_0_r, Z.mul_1_r. apply Z.eqb_refl.
Qed.

(** C4 (amended): as long as the calculation stays within the 28 digits
    of the Decimal context (the product amount x rate, the amount
    written with the decimals of that product, and their difference
    have at most 28 digits each, as is the case for every amount of up
    to 22 digits at a rate of at most five digits and four decimal
    places), the returned commission_amount and net_amount add up to the
    amount exactly, with no rounding drift, net_amount being the amount
    minus the commission. *)
Theorem commission_split_exact
        (svc : Service) (t : Tables) (amount : Decimal) (currency : Currency)
        (provider_id : option string) :
  unrounded amount (_get_commission_rate svc t (Some currency) provider_id) ->
  splits_exactly (calculate_commission svc t amount currency provider_id)
  /\ splits_in_python (calculate_commission svc t amount currency provider_id).
Proof.
  intros Hu. unfold splits_exactly, splits_in_python, calculate_commission.
  cbn [res_amount res_net_amount res_original_amount].
  destruct (add_back_unrounded _ _ Hu) as [-> ->].
  split; apply dec_eq_to_product; apply Hu.
Qed.

(** 100.00000000 converted at 150.12345678 is an amount of 21 digits. *)
Lemma commission_split_exact_witness :
  let converted :=
    ExchangeRateService.convert_currency (mkDec 10000000000 (-8))
                                         (mkDec 15012345678 (-8)) in
  coef converted = 150123456780000000000
  /\ splits_exactly (calculate_commission svc5 no_rows converted usdt None)
  /\ splits_in_python (calculate_commission svc5 no_rows converted usdt None).
Proof.
  intros converted. split; [reflexivity|].
  assert (Hu : unrounded converted
                 (_get_commission_rate svc5 no_rows (Some usdt) None)).
  { apply shaped_unrounded.
    - vm_compute. reflexivity.
    - unfold rate_shaped. vm_compute. intuition discriminate. }
  exact (commission_split_exact svc5 no_rows converted usdt None Hu).
Defined.

End CommissionCalculation.

Section CommissionRounding.

Import CommissionService.

Lemma rate_depends_on_currency_key (svc : Service) (t : Tables)
      (c c' : Currency) (provider_id : option string) :
  cur_id c' = cur_id c ->
  _get_commission_rate svc t (Some c') provider_id
  = _get_commission_rate svc t (Some c) provider_id.
Proof.
  destruct c, c'. cbn [cur_id]. intros ->. reflexivity.
Qed.

(** C6, as the specification states it, fails: 5% of 1.23 USD is
    returned as 0.0615, which is not the 0.06 that half-even rounding to
    the two decimal places of USD gives, nor any other amount with two
    decimal places. *)
Lemma commission_not_rounded_to_currency :
  let r := calculate_commission svc5 no_rows (mkDec 123 (-2)) usd None in
  res_amount r = mkDec 615 (-4)
  /\ spec_commission_amount (mkDec 123 (-2)) (res_rate r) (decimal_places usd)
     = mkDec 6 (-2)
  /\ ~ dec_eq (res_amount r)
       (spec_commission_amount (mkDec 123 (-2)) (res_rate r) (decimal_places usd))
  /\ forall q : Z, ~ dec_eq (res_amount r) (mkDec q (- decimal_places usd)).
Proof.
  cbn zeta. split; [vm_compute; reflexivity|]. split; [vm_compute; reflexivity|].
  split.
  - intros H. vm_compute in H. discriminate H.
  - intros q H. unfold dec_eq, PyDecimal.eqb in H.
    change (res_amount (calculate_commission svc5 no_rows (mkDec 123 (-2)) usd None))
      with (mkDec 615 (-4)) in H.
    cbn [expo coef decimal_places usd] in H.
    change (Z.min (-4) (- (2))) with (-4) in H.
    unfold align in H. cbn [expo coef] in H.
    apply Z.eqb_eq in H.
    change (10 ^ (-4 - -4)) with 1 in H. change (10 ^ (- (2) - -4)) with 100 in H.
    lia.
Qed.

(** C6 (amended): the commission calculation does no currency-precision
    rounding.  As long as it stays within the 28 digits of the Decimal
    context (as it does for every amount of up to 22 digits at a rate of
    at most five digits and four decimal places), commission_amount is
    the exact product amount x rate, net_amount is the amount minus that
    commission (derived by subtraction, not rounded on its own), and
    neither depends on the currency's decimal_places. *)
Theorem commission_is_unrounded_product
        (svc : Service) (t : Tables) (amount : Decimal) (currency : Currency)
        (provider_id : option string) :
  unrounded amount (_get_commission_rate svc t (Some currency) provider_id) ->
  let r := calculate_commission svc t amount currency provider_id in
  res_amount r = exact_mul amount (res_rate r)
  /\ res_net_amount r
     = mkDec (coef amount * 10 ^ (- expo (res_rate r)) - coef (res_amount r))
             (expo (res_amount r))
  /\ forall currency' : Currency,
       cur_id currency' = cur_id currency ->
       let r' := calculate_commission svc t amount currency' provider_id in
       res_amount r' = res_amount r /\ res_net_amount r' = res_net_amount r.
Proof.
  intros Hu. cbn zeta. unfold calculate_commission.
  cbn [res_amount res_net_amount res_rate].
  split; [apply mul_unrounded; assumption|]. split.
  - rewrite (sub_unrounded _ _ Hu), (mul_unrounded _ _ Hu). reflexivity.
  - intros c' Hc. rewrite (rate_depends_on_currency_key svc t currency c' _ Hc).
    split; reflexivity.
Qed.

(** 5% of the 21-digit amount that 100.00000000 converted at
    150.12345678 makes. *)
Lemma commission_is_unrounded_product_witness :
  let converted :=
    ExchangeRateService.convert_currency (mkDec 10000000000 (-8))
                                         (mkDec 15012345678 (-8)) in
  let r := calculate_commission svc5 no_rows converted usd None in
  res_amount r = mkDec 750617283900000000000 (-18)
  /\ res_amount r = exact_mul converted (res_rate r).
Proof.
  intros converted r. split; [vm_compute; reflexivity|].
  assert (Hu : unrounded converted
                 (_get_commission_rate svc5 no_rows (Some usd) None)).
  { apply shaped_unrounded.
    - vm_compute. reflexivity.
    - unfold rate_shaped. vm_compute. intuition discriminate. }
  exact (proj1 (commission_is_unrounded_product svc5 no_rows converted usd None Hu)).
Defined.

End CommissionRounding.

(** ** Commission rate resolution *)

Section CommissionWaterfall.

Import CommissionService.

Ltac settle_level hi l lo :=
  exists hi, l, lo;
  split; [reflexivity|];
  split; [repeat constructor|];
  cbn [offer resolved_provider mbind option_bind fmap option_map mret];
  repeat match goal with
         | H : _ = _ |- _ => rewrite H
         end;
  reflexivity.

Ltac settle :=
  first [ settle_level (@nil Level) ProviderCurrency
            [ProviderOnly; ProviderDefault; CurrencyOnly; GlobalSetting; SystemDefault]
        | settle_level [ProviderCurrency] ProviderOnly
            [ProviderDefault; CurrencyOnly; GlobalSetting; SystemDefault]
        | settle_level [ProviderCurrency; ProviderOnly] ProviderDefault
            [CurrencyOnly; GlobalSetting; SystemDefault]
        | settle_level [ProviderCurrency; ProviderOnly; ProviderDefault] CurrencyOnly
            [GlobalSetting; SystemDefault]
        | settle_level [ProviderCurrency; ProviderOnly; ProviderDefault; CurrencyOnly]
            GlobalSetting [SystemDefault]
        | settle_level [ProviderCurrency; ProviderOnly; ProviderDefault; CurrencyOnly;
                        GlobalSetting]
            SystemDefault (@nil Level) ].

Lemma first_offer_wins (svc : Service) (t : Tables) (c : Currency)
      (provider_id : option string) :
  exists hi l lo,
    precedence = (hi ++ l :: lo)%list
    /\ Forall (fun l' => offer svc t c (resolved_provider t provider_id) l' = None) hi
    /\ offer svc t c (resolved_provider t provider_id) l
       = Some (_get_commission_rate svc t (Some c) provider_id).
Proof.
  unfold _get_commission_rate, resolved_provider.
  destruct provider_id as [pid|]; cbn [mbind option_bind].
  - destruct (String.eqb pid "") eqn:Hpid.
    + destruct (first_setting t (q_currency_only c)) eqn:H4;
      destruct (first_setting t q_global) eqn:H5; settle.
    + destruct (get_active_provider t pid) as [p|] eqn:Hp.
      * destruct (first_setting t (q_provider_currency p c)) eqn:H1;
        destruct (first_setting t (q_provider_only p)) eqn:H2;
        destruct (truthy (commission_rate p)) eqn:H3;
        destruct (first_setting t (q_currency_only c)) eqn:H4;
        destruct (first_setting t q_global) eqn:H5; settle.
      * destruct (first_setting t (q_currency_only c)) eqn:H4;
        destruct (first_setting t q_global) eqn:H5; settle.
  - destruct (first_setting t (q_currency_only c)) eqn:H4;
    destruct (first_setting t q_global) eqn:H5; settle.
Qed.

Lemma find_active_of_named (l : list Provider) (pid : string) :
  (forall p, List.find (fun p => String.eqb (prov_id p) pid) l = Some p ->
             prov_is_active p = true) ->
  List.find (fun p => String.eqb (prov_id p) pid && prov_is_active p) l
  = List.find (fun p => String.eqb (prov_id p) pid) l.
Proof.
  induction l as [|q l IH]; intros Hact; [reflexivity|].
  cbn [List.find] in *. destruct (String.eqb (prov_id q) pid).
  - rewrite (Hact q eq_refl). reflexivity.
  - apply IH, Hact.
Qed.

(** C5, as the specification states it, fails twice.  Level 3, "the
    provider's own default rate field", is skipped when the field is
    zero: for an active provider with default 0.0000 and a global
    setting of 5% the rate returned is 5%, not 0.  And a provider that
    is not active is treated as no provider: with settings at all
    scopes for USDT and an inactive provider the rate returned is the
    currency-only 3%, not the provider+currency 1%. *)
Lemma zero_default_and_inactive_provider_skipped :
  spec_resolve svc5 zero_default usdt (Some "p-0") = Some (mkDec 0 (-4))
  /\ _get_commission_rate svc5 zero_default (Some usdt) (Some "p-0")
     = mkDec 500 (-4)
  /\ spec_resolve svc5 all_scopes_inactive usdt (Some "p-1") = Some (mkDec 100 (-4))
  /\ _get_commission_rate svc5 all_scopes_inactive (Some usdt) (Some "p-1")
     = mkDec 300 (-4).
Proof. repeat split; vm_compute; reflexivity. Qed.

(** C5 (amended): the rate returned is the offer of the first level, in
    the order provider+currency setting, provider-only setting, the
    provider's own default rate when it is not zero, currency-only
    setting, global setting, system default, that has one (every level
    above it has none, the levels below it play no part), the three
    provider levels applying to the active provider that the id names
    and to no other.  In particular, whenever an active provider+currency
    setting exists for that provider, its rate is returned whatever the
    other scopes hold; and whenever the named provider is active with a
    non-zero default rate, or no provider is named, the rate returned is
    the one the specification's waterfall gives. *)
Theorem commission_rate_precedence (svc : Service) (t : Tables) (c : Currency)
        (provider_id : option string) :
  (exists hi l lo,
      precedence = (hi ++ l :: lo)%list
      /\ Forall (fun l' => offer svc t c (resolved_provider t provider_id) l' = None) hi
      /\ offer svc t c (resolved_provider t provider_id) l
         = Some (_get_commission_rate svc t (Some c) provider_id))
  /\ (forall (p : Provider) (s : CommissionSetting),
         resolved_provider t provider_id = Some p ->
         first_setting t (q_provider_currency p c) = Some s ->
         _get_commission_rate svc t (Some c) provider_id = rate s)
  /\ (provider_id <> Some "" ->
      (forall p, named_provider t provider_id = Some p ->
                 prov_is_active p = true /\ truthy (commission_rate p) = true) ->
      spec_resolve svc t c provider_id
      = Some (_get_commission_rate svc t (Some c) provider_id)).
Proof.
  split; [apply first_offer_wins|]. split.
  - intros p s Hp Hs.
    destruct (first_offer_wins svc t c provider_id) as (hi & l & lo & Hsplit & Hhi & Hl).
    rewrite Hp in *.
    assert (Htop : offer svc t c (Some p) ProviderCurrency = Some (rate s))
      by (cbn; rewrite Hs; reflexivity).
    destruct hi as [|l0 hi'].
    + injection Hsplit as <- _. congruence.
    + injection Hsplit as <- _. apply Forall_cons in Hhi as [Hnone _]. congruence.
  - intros Hblank Hnamed.
    unfold spec_resolve, _get_commission_rate, named_provider, get_active_provider in *.
    destruct provider_id as [pid|]; cbn [mbind option_bind] in *.
    + destruct (String.eqb_spec pid "") as [->|_]; [congruence|].
      rewrite find_active_of_named by (intros p Hp; apply (Hnamed p Hp)).
      destruct (List.find _ (providers t)) as [p|] eqn:Hp.
      * destruct (Hnamed p eq_refl) as [_ Htruthy].
        cbn [first_match precedence spec_offer offer mbind option_bind fmap
             option_fmap option_map].
        rewrite Htruthy.
        destruct (first_setting t (q_provider_currency p c)); [reflexivity|].
        destruct (first_setting t (q_provider_only p)); reflexivity.
      * cbn [first_match precedence spec_offer offer mbind option_bind fmap
             option_fmap option_map].
        destruct (first_setting t (q_currency_only c)); [reflexivity|].
        destruct (first_setting t q_global); reflexivity.
    + cbn [first_match precedence spec_offer offer mbind option_bind fmap
           option_fmap option_map].
      destruct (first_setting t (q_currency_only c)); [reflexivity|].
      destruct (first_setting t q_global); reflexivity.
Qed.

Lemma commission_rate_precedence_witness :
  _get_commission_rate svc5 all_scopes (Some usdt) (Some "p-1") = mkDec 100 (-4)
  /\ spec_resolve svc5 all_scopes usdt (Some "p-1")
     = Some (_get_commission_rate svc5 all_scopes (Some usdt) (Some "p-1")).
Proof.
  split.
  - apply (proj1 (proj2 (commission_rate_precedence svc5 all_scopes usdt (Some "p-1")))
             {| prov_id := "p-1"; prov_is_active := true;
                commission_rate := mkDec 400 (-4) |}
             {| set_currency := Some 2%nat; set_provider := Some "p-1";
                rate := mkDec 100 (-4); set_is_active := true;
                is_global := false |}); reflexivity.
  - apply (proj2 (proj2 (commission_rate_precedence svc5 all_scopes usdt (Some "p-1")))).
    + discriminate.
    + intros p Hp. vm_compute in Hp. injection Hp as <-. split; reflexivity.
Defined.

End CommissionWaterfall.

(** ** Digits, and rounding to a balance column *)

Section EscrowArithmetic.

Import Escrow.

Lemma ndigits_aux_zero (fuel : nat) : ndigits_aux fuel 0 = 0.
Proof. destruct fuel; reflexivity. Qed.

Lemma ndigits_aux_spec (fuel : nat) :
  forall n : Z,
    0 < n -> n < 2 ^ Z.of_nat fuel ->
    1 <= ndigits_aux fuel n
    /\ 10 ^ (ndigits_aux fuel n - 1) <= n < 10 ^ ndigits_aux fuel n.
Proof.
  induction fuel as [|f IH]; intros n Hpos Hlt.
  - cbn in Hlt. lia.
  - cbn [ndigits_aux]. destruct (Z.eqb_spec n 0) as [->|_]; [lia|].
    destruct (Z.eq_dec (n / 10) 0) as [Hz|Hnz].
    + rewrite Hz, ndigits_aux_zero.
      assert (n < 10) by (apply Z.div_small_iff in Hz; lia).
      cbn. lia.
    + assert (0 < n / 10) by (pose proof (Z.div_pos n 10); lia).
      assert (n / 10 < 2 ^ Z.of_nat f).
      { rewrite Nat2Z.inj_succ, Z.pow_succ_r in Hlt by lia.
        apply Z.div_lt_upper_bound; lia. }
      destruct (IH (n / 10)) as (H1 & H2 & H3); [lia | lia |].
      set (k := ndigits_aux f (n / 10)) in *.
      replace (1 + k - 1) with (Z.succ (k - 1)) by lia.
      replace (1 + k) with (Z.succ k) by lia.
      rewrite !Z.pow_succ_r by lia.
      pose proof (Z.div_mod n 10 ltac:(lia)).
      pose proof (Z.mod_pos_bound n 10 ltac:(lia)).
      lia.
Qed.

Lemma ndigits_spec (n : Z) :
  n <> 0 ->
  1 <= ndigits n
  /\ 10 ^ (ndigits n - 1) <= Z.abs n < 10 ^ ndigits n.
Proof.
  intros Hn. unfold ndigits. apply ndigits_aux_spec; [lia|].
  assert (0 < Z.abs n) by lia.
  pose proof (Z.log2_nonneg (Z.abs n)).
  rewrite Nat2Z.inj_succ, Z2Nat.id by lia.
  apply Z.log2_spec. lia.
Qed.

Lemma round_half_even_bounds (q r p : Z) :
  q <= round_half_even q r p <= q + 1
  /\ (2 * r < p -> round_half_even q r p = q).
Proof.
  unfold round_half_even.
  destruct (Z.gtb_spec (2 * r) p); cbn [orb]; [lia|].
  destruct (Z.eqb_spec (2 * r) p); cbn [andb]; [|lia].
  destruct (Z.odd q); lia.
Qed.



End EscrowArithmetic.

Section ColumnRounding.

Import Escrow.

(** What the context rounding makes of a coefficient of more than 28
    digits: [q] at [d] places further left, [q] having at least 28
    digits' worth. *)
Lemma round_shape (c e : Z) :
  10 ^ prec <= Z.abs c ->
  exists d : Z,
    1 <= d
    /\ 10 ^ 27 * 10 ^ d <= Z.abs c
    /\ e + d <= expo (PyDecimal.round c e)
    /\ coef (PyDecimal.round c e) * 10 ^ (expo (PyDecimal.round c e) - e)
       = Z.sgn c
         * (round_half_even (Z.abs c / 10 ^ d) (Z.abs c mod 10 ^ d) (10 ^ d)
            * 10 ^ d).
Proof.
  intros Hbig. unfold PyDecimal.round.
  destruct (Z.ltb_spec (Z.abs c) (10 ^ prec)); [lia|].
  assert (Hc : c <> 0) by (unfold prec in *; lia).
  destruct (ndigits_spec c Hc) as (Hn1 & Hlo & Hhi).
  assert (Hn : prec < ndigits c).
  { apply (Z.pow_lt_mono_r_iff 10); lia. }
  exists (ndigits c - prec).
  set (d := ndigits c - prec) in *.
  assert (Hd : 1 <= d) by lia.
  assert (Hp : 0 < 10 ^ d) by (apply pow10_pos; lia).
  assert (Hsplit : 10 ^ (ndigits c - 1) = 10 ^ 27 * 10 ^ d).
  { rewrite <- Z.pow_add_r by lia. f_equal. unfold d, prec. lia. }
  split; [exact Hd|]. split; [lia|].
  set (q := round_half_even (Z.abs c / 10 ^ d) (Z.abs c mod 10 ^ d) (10 ^ d)).
  destruct (Z.eqb_spec q (10 ^ prec)) as [Hq|Hq]; cbn [coef expo].
  - split; [lia|].
    replace (e + d + 1 - e) with (Z.succ d) by lia.
    rewrite Z.pow_succ_r by lia. rewrite Hq. unfold prec.
    change (10 ^ (28 - 1)) with (10 ^ 27). change (10 ^ 28) with (10 ^ 27 * 10). lia.
  - split; [lia|].
    replace (e + d - e) with d by lia. lia.
Qed.




Lemma to_column_stored (n t : Z) : to_column (field n) = Ok t -> t = n /\ storable n.
Proof.
  unfold to_column, quantize, field, align, storable. cbn [expo coef].
  change (- (8)) with (-8).
  change (-8 >=? -8) with true. cbv iota.
  change (-8 - -8) with 0. rewrite Z.pow_0_r, Z.mul_1_r.
  destruct (Z.ltb_spec (Z.abs n) (10 ^ 20)); [|discriminate].
  intros [= <-]. split; [reflexivity | assumption].
Qed.

Lemma to_column_field (n : Z) : storable n -> to_column (field n) = Ok n.
Proof.
  unfold to_column, quantize, field, align, storable. cbn [expo coef].
  change (- (8)) with (-8).
  change (-8 >=? -8) with true. cbv iota.
  change (-8 - -8) with 0. rewrite Z.pow_0_r, Z.mul_1_r.
  intros H. destruct (Z.ltb_spec (Z.abs n) (10 ^ 20)); [reflexivity | lia].
Qed.


(** Rounded to the context or not, a number of units is stored as it
    is, if it can be stored at all. *)
Lemma to_column_round (n : Z) :
  to_column (PyDecimal.round n (-8)) = to_column (field n).
Proof.
  destruct (Z.lt_ge_cases (Z.abs n) (10 ^ prec)) as [Hsmall|Hbig].
  - rewrite round_small by exact Hsmall. reflexivity.
  - destruct (round_shape n (-8) Hbig) as (d & Hd & Hlo & He & Hval).
    assert (Hp : 0 < 10 ^ d) by (apply pow10_pos; lia).
    assert (Hf : 10 ^ 27 <= Z.abs n / 10 ^ d)
      by (apply Z.div_le_lower_bound; lia).
    pose proof (round_half_even_bounds (Z.abs n / 10 ^ d) (Z.abs n mod 10 ^ d)
                                       (10 ^ d)) as [[Hq _] _].
    assert (H10 : 10 <= 10 ^ d).
    { change 10 with (10 ^ 1) at 1. apply pow10_le. lia. }
    unfold to_column, quantize, field. cbn [expo coef].
    change (- (8)) with (-8).
    destruct (Z.geb_spec (expo (PyDecimal.round n (-8))) (-8)); [|lia].
    change (-8 >=? -8) with true. cbv iota.
    unfold align. cbn [expo coef]. rewrite Hval.
    change (-8 - -8) with 0. rewrite Z.pow_0_r, Z.mul_1_r.
    assert (H2028 : 10 ^ 20 < 10 ^ 27 * 10) by reflexivity.
    assert (H2028' : 10 ^ 20 < 10 ^ prec) by reflexivity.
    match goal with
    | |- (if ?a <? _ then _ else _) = (if ?b <? _ then _ else _) =>
        destruct (Z.ltb_spec a (10 ^ 20)); destruct (Z.ltb_spec b (10 ^ 20));
          try reflexivity; try lia
    end.
    exfalso.
    set (x := round_half_even (Z.abs n / 10 ^ d) (Z.abs n mod 10 ^ d) (10 ^ d)
              * 10 ^ d) in *.
    assert (10 ^ 27 * 10 <= x) by (unfold x; nia).
    destruct (Z.sgn_spec n) as [[? Hs]|[[? Hs]|[? Hs]]]; rewrite Hs in *; lia.
Qed.

Lemma units_nonneg (amount : Decimal) :
  -8 <= expo amount -> 0 <= coef amount -> 0 <= units amount.
Proof.
  intros He Hc. unfold units, align.
  apply Z.mul_nonneg_nonneg; [exact Hc|]. apply Z.pow_nonneg. lia.
Qed.

Lemma units_negative (amount : Decimal) :
  -8 <= expo amount -> coef amount < 0 -> units amount < 0.
Proof.
  intros He Hc. unfold units, align.
  assert (0 < 10 ^ (expo amount - -8)) by (apply pow10_pos; lia). nia.
Qed.

Lemma leb_field (amount : Decimal) (n : Z) :
  -8 <= expo amount -> leb amount (field n) = (units amount <=? n).
Proof.
  intros He. unfold leb, field, units, align. cbn [expo coef].
  rewrite Z.min_r by lia.
  change (-8 - -8) with 0. rewrite Z.pow_0_r, Z.mul_1_r. reflexivity.
Qed.

Lemma sub_field (n : Z) (amount : Decimal) :
  -8 <= expo amount ->
  sub (field n) amount = PyDecimal.round (n - units amount) (-8).
Proof.
  intros He. unfold sub, field, units, align. cbn [expo coef].
  rewrite Z.min_l by lia.
  change (-8 - -8) with 0. rewrite Z.pow_0_r, Z.mul_1_r. reflexivity.
Qed.

Lemma add_field (n : Z) (amount : Decimal) :
  -8 <= expo amount ->
  add (field n) amount = PyDecimal.round (n + units amount) (-8).
Proof.
  intros He. unfold add, field, units, align. cbn [expo coef].
  rewrite Z.min_l by lia.
  change (-8 - -8) with 0. rewrite Z.pow_0_r, Z.mul_1_r. reflexivity.
Qed.

(** The three methods on an amount of at most eight decimals: the
    balances move by whole units, and the row is written if the three
    results fit their columns. *)
Lemma save_units (self : EscrowAccount) (t a r : Z) :
  save self (PyDecimal.round t (-8)) (PyDecimal.round a (-8)) (PyDecimal.round r (-8))
  = save self (field t) (field a) (field r).
Proof. unfold save. rewrite !to_column_round. reflexivity. Qed.

Lemma save_field (self : EscrowAccount) (t a r : Z) :
  storable t -> storable a -> storable r ->
  save self (field t) (field a) (field r) = Ok (with_balances self t a r).
Proof.
  intros Ht Ha Hr. unfold save. rewrite !to_column_field by assumption. reflexivity.
Qed.

Lemma save_inv (self : EscrowAccount) (dt da dr : Decimal) (row : EscrowAccount) :
  save self dt da dr = Ok row ->
  exists t a r,
    to_column dt = Ok t /\ to_column da = Ok a /\ to_column dr = Ok r
    /\ row = with_balances self t a r.
Proof.
  unfold save.
  destruct (to_column dt) as [t|]; [|discriminate].
  destruct (to_column da) as [a|]; [|discriminate].
  destruct (to_column dr) as [r|]; [|discriminate].
  cbn. intros [= <-]. eauto 10.
Qed.

Lemma save_field_inv (self : EscrowAccount) (t a r : Z) (row : EscrowAccount) :
  save self (field t) (field a) (field r) = Ok row ->
  row = with_balances self t a r /\ storable t /\ storable a /\ storable r.
Proof.
  intros H. apply save_inv in H as (t' & a' & r' & Ht & Ha & Hr & ->).
  apply to_column_stored in Ht as [-> ?], Ha as [-> ?], Hr as [-> ?]. auto.
Qed.

End ColumnRounding.

(** ** The escrow ledger *)

Section EscrowLedger.

Import Escrow.

Lemma reserve_funds_units (self : EscrowAccount) (amount : Decimal) :
  -8 <= expo amount ->
  reserve_funds self amount
  = if units amount <=? available_balance self then
      row ← save self (field (total_balance self))
                 (field (available_balance self - units amount))
                 (field (reserved_balance self + units amount));
      Ok (true, row)
    else Ok (false, self).
Proof.
  intros He. unfold reserve_funds. cbv zeta.
  rewrite leb_field, sub_field, add_field by exact He.
  unfold save. rewrite !to_column_round. reflexivity.
Qed.

Lemma release_funds_units (self : EscrowAccount) (amount : Decimal) :
  -8 <= expo amount ->
  release_funds self amount
  = if units amount <=? reserved_balance self then
      row ← save self (field (total_balance self - units amount))
                 (field (available_balance self))
                 (field (reserved_balance self - units amount));
      Ok (true, row)
    else Ok (false, self).
Proof.
  intros He. unfold release_funds. cbv zeta.
  rewrite leb_field, !sub_field by exact He.
  unfold save. rewrite !to_column_round. reflexivity.
Qed.

Lemma return_funds_units (self : EscrowAccount) (amount : Decimal) :
  -8 <= expo amount ->
  return_funds self amount
  = if units amount <=? reserved_balance self then
      row ← save self (field (total_balance self))
                 (field (available_balance self + units amount))
                 (field (reserved_balance self - units amount));
      Ok (true, row)
    else Ok (false, self).
Proof.
  intros He. unfold return_funds. cbv zeta.
  rewrite leb_field, sub_field, add_field by exact He.
  unfold save. rewrite !to_column_round. reflexivity.
Qed.

Ltac saved H :=
  match goal with
  | |- context [save ?s (field ?t) (field ?a) (field ?r)] =>
      destruct (save s (field t) (field a) (field r)) as [?row|?e] eqn:H;
      [apply save_field_inv in H as (-> & ? & ? & ?)|];
      cbn [mbind res_bind Py.bind row_after fst snd with_balances
           total_balance available_balance reserved_balance]
  end.

Lemma apply_op_balanced (a : EscrowAccount) (o : Op) :
  balanced a -> nonnegative o -> eight_decimals o -> balanced (apply_op a o).
Proof.
  intros Hbal Hnn He. pose proof Hbal as (Heq & Ht & Hav & Hr).
  destruct o as [x|x|x|n]; cbn [apply_op nonnegative eight_decimals] in *.
  - pose proof (units_nonneg x He Hnn).
    rewrite reserve_funds_units by exact He.
    destruct (Z.leb_spec (units x) (available_balance a)); [|exact Hbal].
    saved Hs; [|exact Hbal]. unfold balanced. cbn. lia.
  - pose proof (units_nonneg x He Hnn).
    rewrite release_funds_units by exact He.
    destruct (Z.leb_spec (units x) (reserved_balance a)); [|exact Hbal].
    saved Hs; [|exact Hbal]. unfold balanced. cbn. lia.
  - pose proof (units_nonneg x He Hnn).
    rewrite return_funds_units by exact He.
    destruct (Z.leb_spec (units x) (reserved_balance a)); [|exact Hbal].
    saved Hs; [|exact Hbal]. unfold balanced. cbn. lia.
  - unfold balanced, add_funds. cbn. lia.
Qed.

(** C2, as the specification states it, fails: the three methods take
    any Decimal, and [save()] rounds each balance column to eight
    decimals on its own.  Reserving 0.000000005 on the balanced account
    (50.00000001, 50.00000001, 0) stores available 50.00000000 and
    reserved 0, which no longer add up to the total; and from the
    balanced account (0.00000003, 0.00000003, 0) two reserves of
    0.000000015, each followed by a release of 0.00000002, end with a
    total of -0.00000001. *)
Lemma escrow_invariant_broken_off_grid :
  let a := mkEscrow "stripe" "stripe_escrow_usd" 1 5000000001 5000000001 0 in
  let b := mkEscrow "stripe" "stripe_escrow_usd" 1 3 3 0 in
  let ops := [Reserve (mkDec 15 (-9)); Release (mkDec 2 (-8));
              Reserve (mkDec 15 (-9)); Release (mkDec 2 (-8))] in
  balanced a
  /\ nonnegative (Reserve (mkDec 5 (-9)))
  /\ reserve_funds a (mkDec 5 (-9))
     = Ok (true, with_balances a 5000000001 5000000000 0)
  /\ ~ balanced (run a [Reserve (mkDec 5 (-9))])
  /\ balanced b
  /\ Forall nonnegative ops
  /\ total_balance (run b ops) = -1.
Proof.
  cbv zeta. split; [unfold balanced; cbn; lia|].
  split; [cbn; lia|]. split; [vm_compute; reflexivity|]. split.
  - intros (Heq & _). vm_compute in Heq. discriminate Heq.
  - split; [unfold balanced; cbn; lia|].
    split; [repeat constructor; cbn; lia|]. vm_compute. reflexivity.
Qed.

(** C2 (amended): from an account with total = available + reserved and
    three non-negative balances, any sequence of reserve, release,
    return and deposit calls whose amounts are non-negative and have at
    most eight decimal places ends in an account with
    total = available + reserved and three non-negative balances. *)
Theorem escrow_invariant_preserved (a : EscrowAccount) (ops : list Op) :
  balanced a ->
  Forall nonnegative ops ->
  Forall eight_decimals ops ->
  balanced (run a ops).
Proof.
  unfold run. revert a.
  induction ops as [|o ops IH]; intros a Hbal Hops Hgrid; cbn [fold_left].
  - exact Hbal.
  - apply Forall_cons in Hops as [Ho Hrest].
    apply Forall_cons in Hgrid as [Hg Hgrest].
    apply IH; [apply apply_op_balanced; assumption | exact Hrest | exact Hgrest].
Qed.

Lemma escrow_invariant_preserved_witness :
  balanced (run {| account_type := "stripe";
                   account_reference := "stripe_escrow_usd";
                   currency := 1%nat;
                   total_balance := 0;
                   available_balance := 0;
                   reserved_balance := 0 |}
                [Deposit 5000000000; Reserve (mkDec 30 0); Reserve (mkDec 30 0);
                 Return (mkDec 1050 (-2)); Release (mkDec 195 (-1))]).
Proof.
  apply escrow_invariant_preserved.
  - unfold balanced. cbn. lia.
  - repeat constructor; cbn; lia.
  - repeat constructor; cbn; lia.
Defined.

(** The deposit of [_move_to_escrow] is [Deposit] on the account of the
    rail and currency, created with zero balances on first use. *)
Lemma move_to_escrow_deposits (tbl : gmap (string * nat) EscrowAccount)
      (ty : string) (cur : Currency) (net : Z) :
  _move_to_escrow tbl ty cur net !! (ty, cur_id cur)
  = Some (apply_op (get_or_create tbl ty cur) (Deposit net))
  /\ (tbl !! (ty, cur_id cur) = None -> balanced (get_or_create tbl ty cur)).
Proof.
  split.
  - unfold _move_to_escrow. apply lookup_insert_eq.
  - intros H. unfold get_or_create, balanced. rewrite H. cbn. lia.
Qed.

Lemma leb_ltb (x y : Decimal) : leb x y = negb (ltb y x).
Proof.
  unfold leb, ltb. rewrite (Z.min_comm (expo y)).
  destruct (Z.leb_spec (align x (Z.min (expo x) (expo y)))
                       (align y (Z.min (expo x) (expo y))));
    destruct (Z.ltb_spec (align y (Z.min (expo x) (expo y)))
                         (align x (Z.min (expo x) (expo y))));
    (reflexivity || lia).
Qed.

(** C8, as the specification states it, fails: there is no
    InsufficientFundsError.  On (available=20, reserved=30) the call
    reserve_funds(30) raises nothing; it returns False.  Nor does a
    call that is accepted always move exactly the amount: reserving
    0.000000005 from (50.00000001, 0) returns True and stores the
    reserved balance unchanged. *)
Lemma reserve_funds_raises_nothing :
  let a := mkEscrow "stripe" "stripe_escrow_usd" 1
                    5000000000 2000000000 3000000000 in
  let b := mkEscrow "stripe" "stripe_escrow_usd" 1 5000000001 5000000001 0 in
  reserve_funds a (mkDec 30 0) = Ok (false, a)
  /\ (forall e, reserve_funds a (mkDec 30 0) <> Raise e)
  /\ exists b',
      reserve_funds b (mkDec 5 (-9)) = Ok (true, b')
      /\ reserved_balance b' = reserved_balance b
      /\ available_balance b' = available_balance b - 1.
Proof.
  cbv zeta. split; [vm_compute; reflexivity|]. split.
  - intros e H. vm_compute in H. discriminate H.
  - eexists. split; [vm_compute; reflexivity|]. split; reflexivity.
Qed.

(** C8 (amended): [reserve_funds] raises no error for insufficient
    funds: when available_balance < amount it returns False and leaves
    the account as it was, whatever the amount.  When the available
    balance covers an amount of at most eight decimal places, and the
    balances before and after fit their columns, it returns True and
    moves exactly the amount from available_balance to reserved_balance,
    touching nothing else. *)
Theorem reserve_funds_moves_or_refuses (a : EscrowAccount) (amount : Decimal) :
  (ltb (field (available_balance a)) amount = true ->
   reserve_funds a amount = Ok (false, a))
  /\ (-8 <= expo amount ->
      leb amount (field (available_balance a)) = true ->
      storable (total_balance a) ->
      storable (available_balance a - units amount) ->
      storable (reserved_balance a + units amount) ->
      reserve_funds a amount
      = Ok (true,
            {| account_type := account_type a;
               account_reference := account_reference a;
               currency := currency a;
               total_balance := total_balance a;
               available_balance := available_balance a - units amount;
               reserved_balance := reserved_balance a + units amount |})).
Proof.
  split.
  - intros Hlt. unfold reserve_funds. cbv zeta.
    rewrite leb_ltb, Hlt. reflexivity.
  - intros He Hle Ht Hav Hres.
    rewrite leb_field in Hle by exact He.
    rewrite reserve_funds_units, Hle by exact He.
    rewrite save_field by assumption. reflexivity.
Qed.

(** The scenario of the specification: (available=50, reserved=0),
    reserve(30) gives (20, 30), and a second reserve(30) is refused. *)
Lemma reserve_funds_moves_or_refuses_witness :
  let a0 := {| account_type := "stripe"; account_reference := "stripe_escrow_usd";
               currency := 1%nat; total_balance := 5000000000;
               available_balance := 5000000000; reserved_balance := 0 |} in
  let a1 := {| account_type := "stripe"; account_reference := "stripe_escrow_usd";
               currency := 1%nat; total_balance := 5000000000;
               available_balance := 2000000000; reserved_balance := 3000000000 |} in
  reserve_funds a0 (mkDec 30 0) = Ok (true, a1)
  /\ reserve_funds a1 (mkDec 30 0) = Ok (false, a1).
Proof.
  cbv zeta. split.
  - apply (proj2 (reserve_funds_moves_or_refuses
                    {| account_type := "stripe"; account_reference := "stripe_escrow_usd";
                       currency := 1%nat; total_balance := 5000000000;
                       available_balance := 5000000000; reserved_balance := 0 |}
                    (mkDec 30 0)));
      try reflexivity; cbn; lia.
  - apply (proj1 (reserve_funds_moves_or_refuses
                    {| account_type := "stripe"; account_reference := "stripe_escrow_usd";
                       currency := 1%nat; total_balance := 5000000000;
                       available_balance := 2000000000;
                       reserved_balance := 3000000000 |}
                    (mkDec 30 0))).
    reflexivity.
Defined.

End EscrowLedger.

(** ** Promo links: issue, validate, claim *)

Section PromoLinks.

Import PromoLinkService PaymentService.

(** C9: the issue operation never produces a code.  The alphabet is
    built by [chars.replace('0', '').replace('O', '').replace('1',
    '').replace('I')]; the last call lacks its second argument, so
    [_generate_promo_code] raises TypeError on every call, and
    [create_promo_link] re-raises it without persisting a PromoLink. *)
Theorem promo_code_generation_raises
        (svc : PromoLinkService.Service) (rnd : nat -> nat) :
  (forall k : nat,
      _generate_promo_code svc rnd k
      = Raise (TypeError "replace expected at least 2 arguments"))
  /\ (forall (fuel : nat) (db : DB) (tx : Transaction),
         create_promo_link fuel svc rnd db tx
         = Some (Raise (TypeError "replace expected at least 2 arguments"), db)).
Proof.
  assert (H : forall k, _generate_promo_code svc rnd k
                        = Raise (TypeError "replace expected at least 2 arguments"))
    by (intros k; reflexivity).
  split; [exact H|].
  intros fuel db tx. unfold create_promo_link. rewrite H. reflexivity.
Qed.

(** C7: an unused, unexpired promo link whose transaction is
    ready_for_claim, the claimable state of the lifecycle and the one
    [process_promo_claim_with_payout] insists on, is refused with
    INVALID_TRANSACTION, while the same link on a still unpaid (pending)
    transaction validates. *)
Theorem validation_refuses_ready_for_claim :
  _validate_promo_link 500 link1 (tx1 "ready_for_claim")
  = {| valid := false;
       v_message := "This promo code is no longer valid";
       v_error_code := Some "INVALID_TRANSACTION" |}
  /\ valid (_validate_promo_link 500 link1 (tx1 "pending")) = true
  /\ error_code (fst (claim_promo_link (db1 "ready_for_claim") (call_at 500 "0xabc")))
     = Some "INVALID_TRANSACTION"
  /\ success (fst (claim_promo_link (db1 "pending") (call_at 500 "0xabc"))) = true.
Proof. repeat split; vm_compute; reflexivity. Qed.

(** What validation does honour: a used link is refused with
    ALREADY_USED, an unused link past its expiry with EXPIRED, and a
    refused claim writes nothing. *)
Lemma used_link_is_refused (db : DB) (call : ClaimCall) (p : PromoLink)
      (tx : Transaction) :
  is_used p = true ->
  finish call (Some (p, tx)) db
  = (failure "This promo code has already been used" "ALREADY_USED", db).
Proof.
  intros Hu. unfold finish, _validate_promo_link. rewrite Hu. reflexivity.
Qed.

Lemma expired_link_is_refused (db : DB) (call : ClaimCall) (p : PromoLink)
      (tx : Transaction) :
  load db (call_code call) = Some (p, tx) ->
  is_used p = false ->
  expires_at p < call_now call ->
  claim_promo_link db call
  = (failure "This promo code has expired" "EXPIRED", db).
Proof.
  intros Hl Hu He. unfold claim_promo_link. rewrite Hl.
  unfold finish, _validate_promo_link, is_expired. rewrite Hu.
  destruct (Z.gtb_spec (call_now call) (expires_at p)); [reflexivity | lia].
Qed.

Lemma bind_ok {A B} (r : Res A) (k : A -> Res B) (b : B) :
  (x ← r; k x) = Ok b -> exists a, r = Ok a /\ k a = Ok b.
Proof. destruct r as [a|e]; [eauto | discriminate]. Qed.

(** What [mark_as_used] saves, when it saves. *)
Lemma mark_as_used_ok (now : Z) (ip : option string) (rd : option Recipient)
      (p used : PromoLink) :
  mark_as_used now ip rd p = Ok used ->
  promo_code used = promo_code p
  /\ Ledger.transaction used = Ledger.transaction p
  /\ is_used used = true
  /\ used_at used = Some now
  /\ used_ip used = ip
  /\ expires_at used = expires_at p.
Proof.
  unfold mark_as_used. intros H.
  apply bind_ok in H as (w & _ & H).
  apply bind_ok in H as (e & _ & H).
  apply bind_ok in H as (t & _ & H).
  injection H as <-. repeat split.
Qed.

(** A successful claim leaves the link marked as used in the table. *)
Lemma successful_claim_marks_used (db db' : DB) (call : ClaimCall) (r : Response) :
  indexed_by_code db ->
  claim_promo_link db call = (r, db') ->
  success r = true ->
  exists p tx, load db' (call_code call) = Some (p, tx) /\ is_used p = true.
Proof.
  intros Hwf Hc Hs. unfold claim_promo_link, load in Hc.
  destruct (promo_links db !! call_code call) as [p|] eqn:Hp; cbn in Hc;
    [|injection Hc as <- <-; discriminate Hs].
  destruct (transactions db !! Ledger.transaction p) as [tx|] eqn:Htx; cbn in Hc;
    [|injection Hc as <- <-; discriminate Hs].
  destruct (valid (_validate_promo_link (call_now call) p tx)); cbn in Hc;
    [|injection Hc as <- <-; discriminate Hs].
  destruct (success (_process_claim tx (call_recipient call))) eqn:Hpc;
    [|injection Hc as <- <-; congruence].
  destruct (mark_as_used (call_now call) (call_ip call) (call_recipient call) p)
    as [used|e] eqn:Hm; [|injection Hc as <- <-; discriminate Hs].
  injection Hc as <- <-.
  destruct (mark_as_used_ok _ _ _ _ _ Hm) as (Hcode & Htr & Hused & _).
  pose proof (Hwf _ _ Hp) as Hkey.
  unfold load. destruct db as [trs pls pos lgs].
  destruct (String.eqb (status tx) "completed"); cbn in *;
    rewrite Hcode, Hkey, lookup_insert_eq; cbn; rewrite Htr.
  - destruct (decide (tx_id tx = Ledger.transaction p)) as [->|Hne].
    + rewrite lookup_insert_eq. cbn. eauto.
    + rewrite lookup_insert_ne by exact Hne. rewrite Htx. cbn. eauto.
  - rewrite Htx. cbn. eauto.
Qed.

(** C1, as the specification states it, fails for concurrent calls: two
    workers that both read the unused link before either writes both
    return success, and the second write replaces the first recipient. *)
Lemma concurrent_claims_both_succeed :
  let cfg := run_schedule
               {| cfg_db := db1 "completed";
                  worker_a := Ready (call_at 500 "0xaaa");
                  worker_b := Ready (call_at 501 "0xbbb") |}
               [WorkerA; WorkerB; WorkerA; WorkerB] in
  worker_a cfg = Returned {| success := true;
                             message := "Funds claimed successfully";
                             error_code := None;
                             reference := Some "crypto_payout_tx-1";
                             estimated_delivery := Some "10-30 minutes" |}
  /\ worker_b cfg = worker_a cfg
  /\ (recipient_wallet <$> promo_links (cfg_db cfg) !! "K7Q2M9") = Some "0xbbb".
Proof. repeat split; vm_compute; reflexivity. Qed.

(** C1 (amended): two claim calls on the same code served one after the
    other both return, and at most one of them succeeds: when the first
    succeeds, the second fails with ALREADY_USED. *)
Theorem sequential_claims_at_most_one (db : DB) (c1 c2 : ClaimCall) :
  indexed_by_code db ->
  call_code c1 = call_code c2 ->
  let cfg := run_schedule
               {| cfg_db := db; worker_a := Ready c1; worker_b := Ready c2 |}
               [WorkerA; WorkerA; WorkerB; WorkerB] in
  exists r1 r2,
    worker_a cfg = Returned r1
    /\ worker_b cfg = Returned r2
    /\ r1 = fst (claim_promo_link db c1)
    /\ r2 = fst (claim_promo_link (snd (claim_promo_link db c1)) c2)
    /\ (success r1 = true ->
        success r2 = false /\ error_code r2 = Some "ALREADY_USED").
Proof.
  intros Hwf Hcode. cbn zeta.
  unfold run_schedule. cbn [fold_left sched_step step worker_a worker_b cfg_db].
  fold (claim_promo_link db c1).
  destruct (claim_promo_link db c1) as [r1 db'] eqn:H1.
  cbn [fold_left sched_step step worker_a worker_b cfg_db fst snd].
  fold (claim_promo_link db' c2).
  destruct (claim_promo_link db' c2) as [r2 db''] eqn:H2.
  cbn [worker_a worker_b fst].
  exists r1, r2. repeat split; try reflexivity.
  - destruct (successful_claim_marks_used _ _ _ _ Hwf H1 H) as (p & tx & Hl & Hu).
    unfold claim_promo_link in H2. rewrite <- Hcode, Hl in H2.
    rewrite (used_link_is_refused db' c2 p tx Hu) in H2.
    injection H2 as <- <-. reflexivity.
  - destruct (successful_claim_marks_used _ _ _ _ Hwf H1 H) as (p & tx & Hl & Hu).
    unfold claim_promo_link in H2. rewrite <- Hcode, Hl in H2.
    rewrite (used_link_is_refused db' c2 p tx Hu) in H2.
    injection H2 as <- <-. reflexivity.
Qed.

Lemma db1_indexed (st : string) : indexed_by_code (db1 st).
Proof.
  intros c p H. cbn in H. apply lookup_singleton_Some in H as [<- <-]. reflexivity.
Qed.

Lemma sequential_claims_at_most_one_witness :
  let cfg := run_schedule
               {| cfg_db := db1 "completed";
                  worker_a := Ready (call_at 500 "0xaaa");
                  worker_b := Ready (call_at 501 "0xbbb") |}
               [WorkerA; WorkerA; WorkerB; WorkerB] in
  exists r1 r2,
    worker_a cfg = Returned r1
    /\ worker_b cfg = Returned r2
    /\ r1 = fst (claim_promo_link (db1 "completed") (call_at 500 "0xaaa"))
    /\ r2 = fst (claim_promo_link
                   (snd (claim_promo_link (db1 "completed") (call_at 500 "0xaaa")))
                   (call_at 501 "0xbbb"))
    /\ (success r1 = true ->
        success r2 = false /\ error_code r2 = Some "ALREADY_USED").
Proof.
  apply (sequential_claims_at_most_one (db1 "completed")
           (call_at 500 "0xaaa") (call_at 501 "0xbbb")).
  - apply db1_indexed.
  - reflexivity.
Defined.

(** What validation accepts: only transactions that are completed or
    pending. *)
Lemma valid_status (now : Z) (p : PromoLink) (tx : Transaction) :
  valid (_validate_promo_link now p tx) = true ->
  status tx = "completed" \/ status tx = "pending".
Proof.
  unfold _validate_promo_link, in_list.
  destruct (is_used p); [discriminate|].
  destruct (is_expired now p); [discriminate|].
  cbn [existsb].
  destruct (String.eqb_spec (status tx) "completed"); [auto|].
  destruct (String.eqb_spec (status tx) "pending"); [auto|].
  cbn. discriminate.
Qed.

(** The sibling path: [process_promo_claim_with_payout] first needs
    [claim_promo_link] to succeed (transaction completed or pending) and
    then needs the transaction to be ready_for_claim, so it never
    initiates a payout. *)
Lemma payout_is_never_initiated (db : DB) (call : ClaimCall) (rail_ok : bool) :
  success (fst (process_promo_claim_with_payout db call rail_ok)) = false.
Proof.
  unfold process_promo_claim_with_payout.
  destruct (claim_promo_link db call) as [r db'] eqn:Hc.
  destruct (success r) eqn:Hs; cbn [negb]; [|exact Hs].
  unfold claim_promo_link, load in Hc.
  destruct (promo_links db !! call_code call) as [p|] eqn:Hp; cbn in Hc;
    [|injection Hc as <- <-; discriminate Hs].
  destruct (transactions db !! Ledger.transaction p) as [tx|] eqn:Htx; cbn in Hc;
    [|injection Hc as <- <-; discriminate Hs].
  destruct (valid (_validate_promo_link (call_now call) p tx)) eqn:Hv; cbn in Hc;
    [|injection Hc as <- <-; discriminate Hs].
  apply valid_status in Hv.
  destruct (success (_process_claim tx (call_recipient call))) eqn:Hpc;
    [|injection Hc as <- <-; congruence].
  destruct (mark_as_used (call_now call) (call_ip call) (call_recipient call) p)
    as [used|e] eqn:Hm; [|injection Hc as <- <-; discriminate Hs].
  injection Hc as _ <-.
  destruct (mark_as_used_ok _ _ _ _ _ Hm) as (Hcode & Htr & _).
  destruct db as [trs pls pos lgs]. cbn in Hp, Htx.
  assert (Hnr : forall tx', status tx' = status tx \/ status tx' = "claimed" ->
                            String.eqb (status tx') "ready_for_claim" = false).
  { intros tx' [->| ->]; [|reflexivity]. destruct Hv as [-> | ->]; reflexivity. }
  unfold load.
  destruct (String.eqb (status tx) "completed"); cbn; rewrite Hcode;
    (destruct (decide (promo_code p = call_code call)) as [->|Hne];
     [rewrite lookup_insert_eq | rewrite lookup_insert_ne by exact Hne; rewrite Hp]);
    cbn; rewrite ?Htr.
  1,2: destruct (decide (tx_id tx = Ledger.transaction p)) as [->|Hne'];
       [rewrite lookup_insert_eq | rewrite lookup_insert_ne by exact Hne'; rewrite Htx];
       cbn; rewrite ?Hnr by auto; reflexivity.
  all: rewrite Htx; cbn; rewrite ?Hnr by auto; reflexivity.
Qed.

End PromoLinks.

(** ** Transaction status changes *)

Section TransactionStatus.

Import PromoLinkService PaymentService.



Lemma db1_indexed_by_id (st : string) : indexed_by_id (db1 st).
Proof.
  intros i tx H. cbn in H. apply lookup_singleton_Some in H as [<- <-]. reflexivity.
Qed.


End TransactionStatus.

(** ** Webhook delivery *)

Section WebhookRetries.

Import Webhooks.

Lemma process_keeps_nonpending (now : Z) (net : ProviderWebhook -> Attempt)
      (table : list ProviderWebhook) :
  forall (budget i : nat) (w : ProviderWebhook),
    table !! i = Some w ->
    is_pending now w = false ->
    process budget now net table !! i = Some w.
Proof.
  induction table as [|w0 rest IH]; intros budget i w Hi Hnp; [discriminate Hi|].
  cbn [process]. destruct (is_pending now w0) eqn:Hp0.
  - destruct budget as [|b]; [exact Hi|].
    destruct i as [|i']; cbn in *.
    + injection Hi as ->. congruence.
    + apply IH; assumption.
  - destruct i as [|i']; cbn in *; [exact Hi | apply IH; assumption].
Qed.

Lemma exhausted_not_pending (now : Z) (w : ProviderWebhook) :
  (5 <= delivery_attempts w)%nat -> is_pending now w = false.
Proof.
  intros H. unfold is_pending.
  destruct (Nat.ltb_spec (delivery_attempts w) 5); [lia|].
  rewrite andb_false_r. reflexivity.
Qed.

Lemma process_attempts_within_budget (now : Z) (net : ProviderWebhook -> Attempt)
      (table : list ProviderWebhook) :
  forall (budget i : nat) (w : ProviderWebhook),
    table !! i = Some w ->
    is_pending now w = true ->
    (i < budget)%nat ->
    process budget now net table !! i = Some (deliver (net w) w).
Proof.
  induction table as [|w0 rest IH]; intros budget i w Hi Hp Hlt; [discriminate Hi|].
  cbn [process]. destruct (is_pending now w0) eqn:Hp0.
  - destruct budget as [|b]; [lia|].
    destruct i as [|i']; cbn in *.
    + injection Hi as ->. reflexivity.
    + apply IH; [assumption | assumption | lia].
  - destruct i as [|i']; cbn in *.
    + injection Hi as ->. congruence.
    + apply (IH budget i' w); [assumption | assumption | lia].
Qed.

Lemma run_tasks_keeps_nonpending
      (runs : list (Z * (ProviderWebhook -> Attempt))) :
  forall (table : list ProviderWebhook) (i : nat) (w : ProviderWebhook),
    table !! i = Some w ->
    Forall (fun r => is_pending (fst r) w = false) runs ->
    run_tasks runs table !! i = Some w.
Proof.
  induction runs as [|[now net] runs IH]; intros table i w Hi Hf; [exact Hi|].
  apply Forall_cons in Hf as [Hnow Hrest].
  cbn [run_tasks fold_left fst snd]. apply IH; [|exact Hrest].
  apply process_keeps_nonpending; [exact Hi | exact Hnow].
Qed.

Lemma not_due_not_pending (now : Z) (w : ProviderWebhook) (t : Z) :
  next_retry w = Some t -> now < t -> is_pending now w = false.
Proof.
  intros Hn Hlt. unfold is_pending. rewrite Hn.
  destruct (Z.leb_spec t now); [lia|]. apply andb_false_r.
Qed.

Lemma pending_inv (now : Z) (w : ProviderWebhook) :
  is_pending now w = true ->
  delivered w = false /\ (delivery_attempts w < 5)%nat.
Proof.
  unfold is_pending. intros Hp.
  destruct (delivered w); [discriminate|].
  destruct (Nat.ltb_spec (delivery_attempts w) 5); [auto|discriminate].
Qed.

Lemma deliver_failed (a : Attempt) (w : ProviderWebhook) :
  delivery_fails a ->
  exists (msg : string) (code : option Z),
    deliver a w = mark_failed (at_time a) msg code w.
Proof.
  unfold delivery_fails, deliver. destruct (outcome a) as [status text|msg]; intros Hf.
  - replace ((200 <=? status) && (status <? 300)) with false; [eauto|].
    symmetry. apply andb_false_iff.
    destruct Hf; [left; apply Z.leb_gt | right; apply Z.ltb_ge]; lia.
  - eauto.
Qed.

Lemma mark_failed_schedule (now : Z) (msg : string) (code : option Z)
      (w : ProviderWebhook) :
  (delivery_attempts w < 5)%nat ->
  exists delay,
    retry_delays !! delivery_attempts w = Some delay
    /\ next_retry (mark_failed now msg code w) = Some (now + delay)
    /\ (delivery_attempts w = 4%nat -> delay = 7200).
Proof.
  intros Hlt. unfold mark_failed. cbn [next_retry].
  destruct (delivery_attempts w) as [|[|[|[|[|n]]]]]; try lia;
    eexists; (split; [reflexivity|]); (split; [reflexivity|]);
    intros H; try discriminate H; reflexivity.
Qed.

(** C10: inside the delivery task, a due webhook (among the fifty rows a
    run takes) whose delivery fails, by an answer outside 2xx or by an
    exception, stays undelivered, has its attempt count raised by one
    and its next_retry set to the failure time plus the entry of
    {5m, 15m, 30m, 1h, 2h} indexed by the attempt count it had.  The task
    waits for that time: runs before it leave the row as it is, and from
    that time on the row is due again as long as it has fewer than five
    attempts.  The fifth failure writes the 2h entry, but the row then
    has five attempts, is never selected again and stays undelivered
    whatever runs follow: the retries actually made come 5m, 15m, 30m
    and 1h after the failures before them. *)
Theorem webhook_backoff_then_stop :
  retry_delays = List.map (fun m => 60 * m) [5; 15; 30; 60; 120]
  /\ (forall (now : Z) (net : ProviderWebhook -> Attempt)
             (table : list ProviderWebhook) (i : nat) (w : ProviderWebhook),
         table !! i = Some w ->
         (i < 50)%nat ->
         is_pending now w = true ->
         delivery_fails (net w) ->
         exists (delay : Z) (w' : ProviderWebhook),
           retry_delays !! delivery_attempts w = Some delay
           /\ send_provider_webhooks now net table !! i = Some w'
           /\ delivered w' = false
           /\ delivery_attempts w' = S (delivery_attempts w)
           /\ next_retry w' = Some (at_time (net w) + delay)
           /\ (forall runs,
                  all_before (at_time (net w) + delay) runs ->
                  run_tasks runs (send_provider_webhooks now net table) !! i
                  = Some w')
           /\ (forall later : Z,
                  at_time (net w) + delay <= later ->
                  is_pending later w' = (delivery_attempts w <? 4)%nat)
           /\ (delivery_attempts w = 4%nat ->
               delay = 7200
               /\ forall runs,
                    run_tasks runs (send_provider_webhooks now net table) !! i
                    = Some w'))
  /\ (forall (runs : list (Z * (ProviderWebhook -> Attempt)))
             (table : list ProviderWebhook) (i : nat) (w : ProviderWebhook),
         table !! i = Some w ->
         (5 <= delivery_attempts w)%nat ->
         run_tasks runs table !! i = Some w).
Proof.
  assert (Hstop : forall (runs : list (Z * (ProviderWebhook -> Attempt)))
                         (table : list ProviderWebhook) (i : nat)
                         (w : ProviderWebhook),
             table !! i = Some w ->
             (5 <= delivery_attempts w)%nat ->
             run_tasks runs table !! i = Some w).
  { intros runs table i w Hi Hex. apply run_tasks_keeps_nonpending; [exact Hi|].
    apply Forall_forall. intros r _. apply exhausted_not_pending, Hex. }
  split; [reflexivity|]. split; [|exact Hstop].
  intros now net table i w Hi Hlt Hp Hf.
  destruct (pending_inv now w Hp) as [Hd Hatt].
  destruct (deliver_failed (net w) w Hf) as (msg & code & Hdel).
  destruct (mark_failed_schedule (at_time (net w)) msg code w Hatt)
    as (delay & Hdelay & Hnext & Hlast).
  assert (Hrow : send_provider_webhooks now net table !! i
                 = Some (mark_failed (at_time (net w)) msg code w)).
  { rewrite <- Hdel. apply process_attempts_within_budget; assumption. }
  exists delay, (mark_failed (at_time (net w)) msg code w).
  split; [exact Hdelay|]. split; [exact Hrow|].
  split; [exact Hd|]. split; [reflexivity|]. split; [exact Hnext|].
  split; [|split].
  - intros runs Hbefore. apply run_tasks_keeps_nonpending; [exact Hrow|].
    unfold all_before in Hbefore. rewrite Forall_forall in *.
    intros r Hr. eapply not_due_not_pending; [exact Hnext|]. apply Hbefore, Hr.
  - intros later Hlater. unfold is_pending. rewrite Hnext.
    change (delivered (mark_failed (at_time (net w)) msg code w))
      with (delivered w).
    change (delivery_attempts (mark_failed (at_time (net w)) msg code w))
      with (S (delivery_attempts w)).
    rewrite Hd. destruct (Z.leb_spec (at_time (net w) + delay) later); [|lia].
    rewrite andb_true_r. cbn [negb andb].
    destruct (Nat.ltb_spec (S (delivery_attempts w)) 5);
      destruct (Nat.ltb_spec (delivery_attempts w) 4); try reflexivity; lia.
  - intros H4. split; [exact (Hlast H4)|].
    intros runs. apply Hstop; [exact Hrow|].
    change (delivery_attempts (mark_failed (at_time (net w)) msg code w))
      with (S (delivery_attempts w)). lia.
Qed.

(** A webhook with two failures, due at 900, times out at 1000: it is
    next due at 1000 + 30m, a run at 2000 does not touch it. *)
Lemma webhook_backoff_then_stop_witness :
  exists w',
    send_provider_webhooks 1000 (timing_out 1000) [webhook_after 2 900] !! 0%nat
    = Some w'
    /\ delivery_attempts w' = 3%nat
    /\ next_retry w' = Some (1000 + 1800)
    /\ run_tasks [(2000, always_ok 2000)]
                 (send_provider_webhooks 1000 (timing_out 1000)
                                         [webhook_after 2 900]) !! 0%nat
       = Some w'.
Proof.
  destruct (proj1 (proj2 webhook_backoff_then_stop) 1000 (timing_out 1000)
                  [webhook_after 2 900] 0%nat (webhook_after 2 900))
    as (delay & w' & Hdelay & Hrow & _ & Hatt & Hnext & Hwait & _).
  - reflexivity.
  - lia.
  - reflexivity.
  - exact I.
  - injection Hdelay as <-. exists w'.
    split; [exact Hrow|]. split; [exact Hatt|]. split; [exact Hnext|].
    apply Hwait. repeat constructor.
Defined.

End WebhookRetries.

(** * Further properties of the modelled code *)

(** ** How the escrow calls compose *)

Section EscrowComposition.

Import Escrow.

(** On a balanced account whose balances fit their columns, reserving
    a non-negative amount of at most eight decimal places that the
    available balance covers, and returning it, gives the account back
    as it was. *)
Theorem reserve_then_return_restores (a : EscrowAccount) (amount : Decimal) :
  balanced a ->
  storable (total_balance a) ->
  0 <= coef amount ->
  -8 <= expo amount ->
  leb amount (field (available_balance a)) = true ->
  exists a',
    reserve_funds a amount = Ok (true, a')
    /\ return_funds a' amount = Ok (true, a).
Proof.
  intros (Heq & Ht & Hav & Hres) Hst Hnn He Hle.
  pose proof (units_nonneg amount He Hnn) as Hu.
  rewrite leb_field in Hle by exact He. pose proof Hle as Hle'.
  apply Z.leb_le in Hle'. unfold storable in *.
  exists (with_balances a (total_balance a) (available_balance a - units amount)
                        (reserved_balance a + units amount)).
  split.
  - rewrite reserve_funds_units, Hle by exact He.
    rewrite save_field by (unfold storable; lia). reflexivity.
  - rewrite return_funds_units by exact He.
    cbn [with_balances reserved_balance available_balance total_balance].
    destruct (Z.leb_spec (units amount) (reserved_balance a + units amount)); [|lia].
    rewrite save_field by (unfold storable; lia).
    cbn [mbind res_bind Py.bind]. destruct a. unfold with_balances. cbn.
    do 3 f_equal; lia.
Qed.

Lemma reserve_then_return_restores_witness :
  let a := {| account_type := "crypto"; account_reference := "crypto_escrow_btc";
              currency := 3%nat; total_balance := 7000000000;
              available_balance := 5000000000; reserved_balance := 2000000000 |} in
  exists a',
    reserve_funds a (mkDec 3025 (-2)) = Ok (true, a')
    /\ return_funds a' (mkDec 3025 (-2)) = Ok (true, a).
Proof.
  cbv zeta. apply reserve_then_return_restores;
    try reflexivity; unfold balanced, storable; cbn; lia.
Defined.

(** On such an account, reserving such an amount and releasing it takes
    exactly that amount out of the account: total and available both
    drop by it, reserved is as before. *)
Theorem reserve_then_release_pays_out (a : EscrowAccount) (amount : Decimal) :
  balanced a ->
  storable (total_balance a) ->
  0 <= coef amount ->
  -8 <= expo amount ->
  leb amount (field (available_balance a)) = true ->
  exists a',
    reserve_funds a amount = Ok (true, a')
    /\ release_funds a' amount
       = Ok (true,
             {| account_type := account_type a;
                account_reference := account_reference a;
                currency := currency a;
                total_balance := total_balance a - units amount;
                available_balance := available_balance a - units amount;
                reserved_balance := reserved_balance a |}).
Proof.
  intros (Heq & Ht & Hav & Hres) Hst Hnn He Hle.
  pose proof (units_nonneg amount He Hnn) as Hu.
  rewrite leb_field in Hle by exact He. pose proof Hle as Hle'.
  apply Z.leb_le in Hle'. unfold storable in *.
  exists (with_balances a (total_balance a) (available_balance a - units amount)
                        (reserved_balance a + units amount)).
  split.
  - rewrite reserve_funds_units, Hle by exact He.
    rewrite save_field by (unfold storable; lia). reflexivity.
  - rewrite release_funds_units by exact He.
    cbn [with_balances reserved_balance available_balance total_balance].
    destruct (Z.leb_spec (units amount) (reserved_balance a + units amount)); [|lia].
    rewrite save_field by (unfold storable; lia).
    cbn [mbind res_bind Py.bind]. unfold with_balances. cbn.
    do 3 f_equal; lia.
Qed.

Lemma reserve_then_release_pays_out_witness :
  exists a',
    reserve_funds
      {| account_type := "stripe"; account_reference := "stripe_escrow_usd";
         currency := 1%nat; total_balance := 5000000000;
         available_balance := 5000000000; reserved_balance := 0 |}
      (mkDec 30 0) = Ok (true, a')
    /\ release_funds a' (mkDec 30 0)
       = Ok (true,
             {| account_type := "stripe"; account_reference := "stripe_escrow_usd";
                currency := 1%nat; total_balance := 2000000000;
                available_balance := 2000000000; reserved_balance := 0 |}).
Proof.
  apply (reserve_then_release_pays_out
           {| account_type := "stripe"; account_reference := "stripe_escrow_usd";
              currency := 1%nat; total_balance := 5000000000;
              available_balance := 5000000000; reserved_balance := 0 |}
           (mkDec 30 0));
    try reflexivity; unfold balanced, storable; cbn; lia.
Defined.

(** The three methods compare the amount with a balance and nothing
    else, so on a balanced account a negative amount (of at most eight
    decimal places, the results fitting their columns) is never
    refused: [release_funds] then raises the total, and [reserve_funds]
    takes the amount out of the reserved balance, below zero when that
    balance is smaller.  The equation total = available + reserved
    holds after each of the three. *)
Theorem negative_amounts_are_accepted (a : EscrowAccount) (amount : Decimal) :
  balanced a ->
  coef amount < 0 ->
  -8 <= expo amount ->
  storable (total_balance a - units amount) ->
  (exists a',
      reserve_funds a amount = Ok (true, a')
      /\ reserved_balance a' = reserved_balance a + units amount
      /\ (reserved_balance a < - units amount -> reserved_balance a' < 0)
      /\ total_balance a' = available_balance a' + reserved_balance a')
  /\ (exists a',
         release_funds a amount = Ok (true, a')
         /\ total_balance a < total_balance a'
         /\ total_balance a' = available_balance a' + reserved_balance a')
  /\ (exists a',
         return_funds a amount = Ok (true, a')
         /\ available_balance a' = available_balance a + units amount
         /\ total_balance a' = available_balance a' + reserved_balance a').
Proof.
  intros (Heq & Ht & Hav & Hres) Hneg He Hst.
  pose proof (units_negative amount He Hneg) as Hu. unfold storable in Hst.
  rewrite reserve_funds_units, release_funds_units, return_funds_units by exact He.
  destruct (Z.leb_spec (units amount) (available_balance a)); [|lia].
  destruct (Z.leb_spec (units amount) (reserved_balance a)); [|lia].
  rewrite !save_field by (unfold storable; lia).
  cbn [mbind res_bind Py.bind].
  repeat split; eexists; (split; [reflexivity|]); cbn; lia.
Qed.

Lemma negative_amounts_are_accepted_witness :
  let a := {| account_type := "stripe"; account_reference := "stripe_escrow_usd";
              currency := 1%nat; total_balance := 5000000000;
              available_balance := 5000000000; reserved_balance := 0 |} in
  exists a',
    release_funds a (mkDec (-10) 0) = Ok (true, a')
    /\ total_balance a < total_balance a'
    /\ total_balance a' = available_balance a' + reserved_balance a'.
Proof.
  cbv zeta.
  destruct (negative_amounts_are_accepted
              {| account_type := "stripe"; account_reference := "stripe_escrow_usd";
                 currency := 1%nat; total_balance := 5000000000;
                 available_balance := 5000000000; reserved_balance := 0 |}
              (mkDec (-10) 0)) as (_ & Hrelease & _).
  - unfold balanced. cbn. lia.
  - cbn. lia.
  - cbn. lia.
  - vm_compute. reflexivity.
  - exact Hrelease.
Defined.

(** A deposit through [_move_to_escrow] touches the account of its rail
    and currency only, and keeps every account of the table balanced. *)
Theorem move_to_escrow_frame (tbl : gmap (string * nat) EscrowAccount)
        (ty : string) (cur : Currency) (net : Z) :
  0 <= net ->
  map_Forall (fun _ a => balanced a) tbl ->
  (forall k, k <> (ty, cur_id cur) ->
             _move_to_escrow tbl ty cur net !! k = tbl !! k)
  /\ map_Forall (fun _ a => balanced a) (_move_to_escrow tbl ty cur net).
Proof.
  intros Hnet Hall. split.
  - intros k Hk. unfold _move_to_escrow. apply lookup_insert_ne. congruence.
  - unfold _move_to_escrow. apply map_Forall_insert_2; [|exact Hall].
    unfold get_or_create.
    destruct (tbl !! (ty, cur_id cur)) as [a|] eqn:Ha.
    + pose proof (Hall _ _ Ha) as (H1 & H2 & H3 & H4).
      unfold balanced, add_funds. cbn. lia.
    + unfold balanced, add_funds. cbn. lia.
Qed.

Lemma move_to_escrow_frame_witness :
  map_Forall (fun _ a => balanced a)
             (_move_to_escrow ∅ "stripe" usd 9500000000).
Proof.
  apply (move_to_escrow_frame ∅ "stripe" usd 9500000000).
  - lia.
  - apply map_Forall_empty.
Defined.





End EscrowComposition.

(** ** What the delivery task does to a row *)

Section WebhookDelivery.

Import Webhooks.

(** A webhook that is already delivered, or whose next_retry was never
    set (the column's default), is not selected by the task: whatever
    runs follow, and at whatever time, leave the row exactly as it is. *)
Theorem delivered_or_unscheduled_never_attempted
        (runs : list (Z * (ProviderWebhook -> Attempt)))
        (table : list ProviderWebhook) (i : nat) (w : ProviderWebhook) :
  table !! i = Some w ->
  delivered w = true \/ next_retry w = None ->
  run_tasks runs table !! i = Some w.
Proof.
  intros Hi Hw. revert table Hi.
  induction runs as [|[now net] runs IH]; intros table Hi; [exact Hi|].
  cbn [run_tasks fold_left fst snd]. apply IH.
  apply process_keeps_nonpending; [exact Hi|].
  unfold is_pending. destruct Hw as [-> | ->]; [reflexivity|].
  rewrite andb_false_r. reflexivity.
Qed.

Lemma delivered_or_unscheduled_never_attempted_witness :
  run_tasks [(10000, always_ok 10000)]
            [ {| event := "payment_created"; delivered := false;
                 delivery_attempts := 0; last_attempt := None;
                 next_retry := None; response_code := None;
                 response_body := ""; error_message := "";
                 delivered_at := None |} ] !! 0%nat
  = Some {| event := "payment_created"; delivered := false;
            delivery_attempts := 0; last_attempt := None;
            next_retry := None; response_code := None;
            response_body := ""; error_message := "";
            delivered_at := None |}.
Proof.
  apply delivered_or_unscheduled_never_attempted.
  - reflexivity.
  - right. reflexivity.
Defined.

(** A due row among the first fifty rows of the table is attempted in the
    run: a 2xx answer marks it delivered (attempt count untouched), any
    other answer or an exception counts one more failed attempt. *)
Theorem due_row_is_attempted (now : Z) (net : ProviderWebhook -> Attempt)
        (table : list ProviderWebhook) (i : nat) (w : ProviderWebhook) :
  table !! i = Some w ->
  is_pending now w = true ->
  (i < 50)%nat ->
  exists w',
    send_provider_webhooks now net table !! i = Some w'
    /\ w' = deliver (net w) w
    /\ match outcome (net w) with
       | Responded code _ =>
           if (200 <=? code) && (code <? 300)
           then delivered w' = true
                /\ delivered_at w' = Some (at_time (net w))
                /\ delivery_attempts w' = delivery_attempts w
           else delivered w' = false
                /\ delivery_attempts w' = S (delivery_attempts w)
                /\ response_code w' = Some code
       | Raised msg =>
           delivered w' = false
           /\ delivery_attempts w' = S (delivery_attempts w)
           /\ error_message w' = msg
       end.
Proof.
  intros Hi Hp Hlt. eexists. split; [|split; [reflexivity|]].
  - apply process_attempts_within_budget; assumption.
  - assert (Hd : delivered w = false).
    { unfold is_pending in Hp. destruct (delivered w); [discriminate|reflexivity]. }
    unfold deliver. destruct (outcome (net w)) as [code text|msg].
    + destruct ((200 <=? code) && (code <? 300)); cbn; auto.
    + cbn. auto.
Qed.

Lemma due_row_is_attempted_witness :
  exists w',
    send_provider_webhooks 1000 (always_ok 1000) [webhook_after 1 900] !! 0%nat
    = Some w'
    /\ delivered w' = true.
Proof.
  destruct (due_row_is_attempted 1000 (always_ok 1000) [webhook_after 1 900]
                                 0 (webhook_after 1 900))
    as (w' & Hw & _ & Hd).
  - reflexivity.
  - reflexivity.
  - lia.
  - exists w'. split; [exact Hw|]. cbn in Hd. apply Hd.
Defined.

Lemma deliver_attempts_bound (a : Attempt) (now : Z) (w : ProviderWebhook) :
  is_pending now w = true -> (delivery_attempts (deliver a w) <= 5)%nat.
Proof.
  unfold is_pending. intros Hp.
  destruct (delivered w); [discriminate|].
  destruct (Nat.ltb_spec (delivery_attempts w) 5); [|discriminate].
  unfold deliver. destruct (outcome a) as [code text|msg];
    [destruct ((200 <=? code) && (code <? 300))|]; cbn; lia.
Qed.

Lemma process_length_and_bound (now : Z) (net : ProviderWebhook -> Attempt)
      (table : list ProviderWebhook) :
  forall budget : nat,
    length (process budget now net table) = length table
    /\ (Forall (fun w => (delivery_attempts w <= 5)%nat) table ->
        Forall (fun w => (delivery_attempts w <= 5)%nat)
               (process budget now net table)).
Proof.
  induction table as [|w rest IH]; intros budget; cbn [process].
  - split; [reflexivity | intros; constructor].
  - destruct (is_pending now w) eqn:Hp.
    + destruct budget as [|b]; [split; auto|].
      destruct (IH b) as [Hlen Hall]. cbn [length]. split; [congruence|].
      intros Hf. apply Forall_cons in Hf as [_ Hrest]. constructor.
      * apply (deliver_attempts_bound _ now). exact Hp.
      * apply Hall, Hrest.
    + destruct (IH budget) as [Hlen Hall]. cbn [length]. split; [congruence|].
      intros Hf. apply Forall_cons in Hf as [Hw Hrest]. constructor; auto.
Qed.

(** The task neither adds nor drops rows, and it never takes a webhook
    beyond five delivery attempts: a table whose rows have at most five
    attempts stays so under any sequence of runs. *)
Theorem attempts_never_exceed_five
        (runs : list (Z * (ProviderWebhook -> Attempt)))
        (table : list ProviderWebhook) :
  Forall (fun w => (delivery_attempts w <= 5)%nat) table ->
  length (run_tasks runs table) = length table
  /\ Forall (fun w => (delivery_attempts w <= 5)%nat) (run_tasks runs table).
Proof.
  revert table. induction runs as [|[now net] runs IH]; intros table Hf.
  - split; [reflexivity | exact Hf].
  - cbn [run_tasks fold_left fst snd].
    destruct (process_length_and_bound now net table 50) as [Hlen Hall].
    destruct (IH (send_provider_webhooks now net table) (Hall Hf)) as [Hl' Hf'].
    split; [|exact Hf'].
    etransitivity; [exact Hl'|exact Hlen].
Qed.

Lemma attempts_never_exceed_five_witness :
  Forall (fun w => (delivery_attempts w <= 5)%nat)
         (run_tasks [(1000, always_ok 1000); (2000, always_ok 2000)]
                    [webhook_after 4 900; webhook_after 5 100]).
Proof.
  apply (attempts_never_exceed_five
           [(1000, always_ok 1000); (2000, always_ok 2000)]
           [webhook_after 4 900; webhook_after 5 100]).
  repeat constructor; cbn; lia.
Defined.

End WebhookDelivery.

Section WebhookBatch.

Import Webhooks.

Lemma process_changes_at_most_budget (now : Z) (net : ProviderWebhook -> Attempt)
      (table : list ProviderWebhook) :
  forall budget : nat,
    (changed_rows table (process budget now net table) <= budget)%nat.
Proof.
  unfold changed_rows.
  induction table as [|w rest IH]; intros budget; cbn [process]; [cbn; lia|].
  destruct (is_pending now w).
  - destruct budget as [|b].
    + clear IH. induction (w :: rest) as [|x xs IHx]; [cbn; lia|].
      cbn [zip zip_with List.filter fst snd].
      rewrite bool_decide_eq_false_2 by (intros H; apply H; reflexivity).
      exact IHx.
    + cbn [zip zip_with List.filter fst snd].
      specialize (IH b).
      destruct (bool_decide (w <> deliver (net w) w)); cbn [length]; lia.
  - cbn [zip zip_with List.filter fst snd].
    rewrite bool_decide_eq_false_2 by (intros H; apply H; reflexivity).
    apply IH.
Qed.

(** One run of the task rewrites at most fifty rows, however many are
    due. *)
Theorem at_most_fifty_rows_per_run (now : Z) (net : ProviderWebhook -> Attempt)
        (table : list ProviderWebhook) :
  (changed_rows table (send_provider_webhooks now net table) <= 50)%nat.
Proof. apply process_changes_at_most_budget. Qed.

End WebhookBatch.

(** ** What a claim does and does not write *)

Section ClaimOutcomes.

Import PromoLinkService PaymentService.

Lemma process_claim_success (tx : Transaction)
      (recipient_data : option Recipient) :
  success (_process_claim tx recipient_data)
  = _validate_recipient_data recipient_data.
Proof.
  unfold _process_claim.
  destruct (_validate_recipient_data recipient_data); cbn [negb]; [|reflexivity].
  unfold _simulate_payout.
  destruct (has_key (default ∅ recipient_data) "wallet"); [reflexivity|].
  destruct (has_key (default ∅ recipient_data) "email"); reflexivity.
Qed.

(** A claim that does not succeed (unknown code, used or expired link,
    transaction in another status, no usable recipient data, a
    recipient entry the row cannot store) writes nothing at all. *)
Theorem failed_claim_writes_nothing (db : DB) (call : ClaimCall) :
  success (fst (claim_promo_link db call)) = false ->
  snd (claim_promo_link db call) = db.
Proof.
  unfold claim_promo_link, finish.
  destruct (load db (call_code call)) as [[p tx]|]; [|reflexivity].
  destruct (valid (_validate_promo_link (call_now call) p tx)); [|reflexivity].
  cbn [negb].
  destruct (success (_process_claim tx (call_recipient call))) eqn:Hs;
    [|reflexivity].
  destruct (mark_as_used _ _ _ _); [|reflexivity].
  cbn [fst]. congruence.
Qed.

Lemma failed_claim_writes_nothing_witness :
  snd (claim_promo_link (db1 "completed") (call_at 2000 "0xabc")) = db1 "completed".
Proof.
  apply failed_claim_writes_nothing. reflexivity.
Defined.

Lemma not_null_ok (v : option string) :
  (exists s, not_null v = Ok s) <-> v <> None.
Proof.
  destruct v as [s|]; cbn; split; try congruence; eauto.
  intros [s H]. discriminate H.
Qed.

(** With recipient data in hand, [mark_as_used] saves exactly when none
    of the three recipient entries is [None]. *)
Lemma mark_as_used_saves (now : Z) (ip : option string) (rd : option Recipient)
      (p : PromoLink) :
  dict_truthy rd = true ->
  (exists used, mark_as_used now ip rd p = Ok used) <-> stores_recipient rd.
Proof.
  intros Hd. unfold mark_as_used, stores_recipient. rewrite Hd.
  unfold recipient_get.
  split.
  - intros [used H] k Hk Hnone.
    cbn in Hk. destruct Hk as [<-|[<-|[<-|[]]]]; rewrite Hnone in H;
      cbn in H; try discriminate H;
      repeat match type of H with
             | context [not_null ?v] =>
                 destruct (not_null v); cbn in H; try discriminate H
             end.
  - intros Hall.
    assert (Hk : forall k, In k ["wallet"; "email"; "telegram"] ->
                           exists s, not_null match default ∅ rd !! k with
                                              | Some v => v
                                              | None => Some ""
                                              end = Ok s).
    { intros k Hin. specialize (Hall k Hin).
      destruct (default ∅ rd !! k) as [[s|]|]; cbn; eauto. congruence. }
    destruct (Hk "wallet") as [w ->]; [cbn; auto|].
    destruct (Hk "email") as [e ->]; [cbn; auto|].
    destruct (Hk "telegram") as [t ->]; [cbn; auto|].
    cbn. eauto.
Qed.

Lemma validated_is_truthy (rd : option Recipient) :
  _validate_recipient_data rd = true -> dict_truthy rd = true.
Proof.
  unfold _validate_recipient_data. destruct (dict_truthy rd); [reflexivity|].
  cbn. discriminate.
Qed.

Lemma claim_success_inv (db : DB) (call : ClaimCall) :
  success (fst (claim_promo_link db call)) = true ->
  exists p tx used,
    load db (call_code call) = Some (p, tx)
    /\ is_used p = false
    /\ call_now call <= expires_at p
    /\ (status tx = "completed" \/ status tx = "pending")
    /\ _validate_recipient_data (call_recipient call) = true
    /\ mark_as_used (call_now call) (call_ip call) (call_recipient call) p
       = Ok used.
Proof.
  unfold claim_promo_link, finish.
  destruct (load db (call_code call)) as [[p tx]|]; [|discriminate].
  destruct (valid (_validate_promo_link (call_now call) p tx)) eqn:Hv;
    cbn [negb]; [|cbn; intros Hf; destruct (_validate_promo_link _ _ _); discriminate Hf || congruence].
  pose proof (valid_status _ _ _ Hv) as Hst.
  unfold _validate_promo_link, is_expired in Hv.
  destruct (is_used p) eqn:Hu; [discriminate Hv|].
  destruct (Z.gtb_spec (call_now call) (expires_at p)); [discriminate Hv|].
  destruct (success (_process_claim tx (call_recipient call))) eqn:Hs.
  - destruct (mark_as_used _ _ _ _) as [used|e] eqn:Hm; [|discriminate].
    intros _. rewrite process_claim_success in Hs. exists p, tx, used. auto 10.
  - cbn [fst]. congruence.
Qed.

(** The outcome of a claim whose link, transaction and recipient data
    pass, once [mark_as_used] has saved. *)
Lemma claim_success_run (db : DB) (call : ClaimCall) (p used : PromoLink)
      (tx : Transaction) :
  load db (call_code call) = Some (p, tx) ->
  is_used p = false ->
  call_now call <= expires_at p ->
  status tx = "completed" \/ status tx = "pending" ->
  _validate_recipient_data (call_recipient call) = true ->
  mark_as_used (call_now call) (call_ip call) (call_recipient call) p = Ok used ->
  claim_promo_link db call
  = (_process_claim tx (call_recipient call),
     if String.eqb (status tx) "completed"
     then save_transaction (with_status tx "claimed") (save_promo_link used db)
     else save_promo_link used db).
Proof.
  intros Hl Hu He Hst Hr Hm. unfold claim_promo_link, finish. rewrite Hl.
  assert (Hv : valid (_validate_promo_link (call_now call) p tx) = true).
  { unfold _validate_promo_link, is_expired, in_list. rewrite Hu.
    destruct (Z.gtb_spec (call_now call) (expires_at p)); [lia|].
    destruct Hst as [-> | ->]; reflexivity. }
  rewrite Hv. cbn [negb]. rewrite process_claim_success, Hr, Hm. reflexivity.
Qed.

(** A claim succeeds exactly when the code exists, the link is unused
    and not past its expiry, the transaction is completed or pending,
    the recipient data names an e-mail, a telegram or a wallet, and
    none of its wallet, e-mail and telegram entries is None; with a
    None among them (what the claim view passes for a field the request
    left out) the save fails and the claim ends in CLAIM_ERROR. *)
Theorem claim_succeeds_iff (db : DB) (call : ClaimCall) :
  (success (fst (claim_promo_link db call)) = true
   <-> exists p tx,
       load db (call_code call) = Some (p, tx)
       /\ is_used p = false
       /\ call_now call <= expires_at p
       /\ (status tx = "completed" \/ status tx = "pending")
       /\ _validate_recipient_data (call_recipient call) = true
       /\ stores_recipient (call_recipient call))
  /\ (forall p tx,
         load db (call_code call) = Some (p, tx) ->
         is_used p = false ->
         call_now call <= expires_at p ->
         status tx = "completed" \/ status tx = "pending" ->
         _validate_recipient_data (call_recipient call) = true ->
         ~ stores_recipient (call_recipient call) ->
         claim_promo_link db call
         = (failure "An error occurred while processing your claim" "CLAIM_ERROR",
            db)).
Proof.
  split; [split|].
  - intros Hs.
    apply claim_success_inv in Hs as (p & tx & used & Hl & Hu & He & Hst & Hr & Hm).
    exists p, tx. repeat (split; [assumption|]).
    apply (mark_as_used_saves (call_now call) (call_ip call) _ p);
      [apply validated_is_truthy, Hr | eauto].
  - intros (p & tx & Hl & Hu & He & Hst & Hr & Hstore).
    apply (mark_as_used_saves (call_now call) (call_ip call) _ p) in Hstore
      as [used Hm]; [|apply validated_is_truthy, Hr].
    rewrite (claim_success_run db call p used tx Hl Hu He Hst Hr Hm).
    cbn [fst]. rewrite process_claim_success. exact Hr.
  - intros p tx Hl Hu He Hst Hr Hstore.
    unfold claim_promo_link, finish. rewrite Hl.
    assert (Hv : valid (_validate_promo_link (call_now call) p tx) = true).
    { unfold _validate_promo_link, is_expired, in_list. rewrite Hu.
      destruct (Z.gtb_spec (call_now call) (expires_at p)); [lia|].
      destruct Hst as [-> | ->]; reflexivity. }
    rewrite Hv. cbn [negb]. rewrite process_claim_success, Hr.
    destruct (mark_as_used _ _ _ _) as [used|e] eqn:Hm; [|reflexivity].
    exfalso. apply Hstore.
    apply (mark_as_used_saves (call_now call) (call_ip call) _ p);
      [apply validated_is_truthy, Hr | eauto].
Qed.

(** A wallet-only request as the claim view passes it on ends in
    CLAIM_ERROR and writes nothing. *)
Lemma claim_succeeds_iff_witness :
  claim_promo_link (db1 "completed") (call_from_view 500 "0xabc")
  = (failure "An error occurred while processing your claim" "CLAIM_ERROR",
     db1 "completed").
Proof.
  apply (proj2 (claim_succeeds_iff (db1 "completed") (call_from_view 500 "0xabc"))
               link1 (tx1 "completed")).
  - reflexivity.
  - reflexivity.
  - cbn. lia.
  - left. reflexivity.
  - vm_compute. reflexivity.
  - intros H. apply (H "email"); [cbn; auto | vm_compute; reflexivity].
Defined.

(** A successful claim rewrites one promo link, the claimed one, which
    from then on is used and carries the claim time and the caller's
    address; every other link is left alone, and neither a payout
    request nor an audit-log entry is written. *)
Theorem successful_claim_effect (db : DB) (call : ClaimCall) :
  indexed_by_code db ->
  success (fst (claim_promo_link db call)) = true ->
  exists p used,
    promo_links db !! call_code call = Some p
    /\ mark_as_used (call_now call) (call_ip call) (call_recipient call) p
       = Ok used
    /\ is_used used = true
    /\ used_at used = Some (call_now call)
    /\ used_ip used = call_ip call
    /\ promo_links (snd (claim_promo_link db call))
       = <[call_code call := used]> (promo_links db)
    /\ payout_requests (snd (claim_promo_link db call)) = payout_requests db
    /\ logs (snd (claim_promo_link db call)) = logs db.
Proof.
  intros Hwf Hs.
  apply claim_success_inv in Hs as (p & tx & used & Hl & Hu & He & Hst & Hr & Hm).
  rewrite (claim_success_run db call p used tx Hl Hu He Hst Hr Hm). cbn [snd].
  unfold load in Hl.
  destruct (promo_links db !! call_code call) as [p0|] eqn:Hp; [|discriminate Hl].
  cbn in Hl.
  destruct (transactions db !! Ledger.transaction p0) as [tx0|]; [|discriminate Hl].
  cbn in Hl. injection Hl as -> ->.
  destruct (mark_as_used_ok _ _ _ _ _ Hm) as (Hcode & _ & Hused & Hat & Hip & _).
  exists p, used. repeat (split; [assumption || reflexivity|]).
  rewrite <- (Hwf _ _ Hp), <- Hcode.
  destruct (String.eqb (status tx) "completed"); cbn; auto.
Qed.

Lemma successful_claim_effect_witness :
  exists p used,
    promo_links (db1 "pending") !! "K7Q2M9" = Some p
    /\ mark_as_used 500 None (Some {[ "wallet" := Some "0xabc" ]}) p = Ok used
    /\ is_used used = true
    /\ used_at used = Some 500
    /\ used_ip used = None
    /\ promo_links (snd (claim_promo_link (db1 "pending") (call_at 500 "0xabc")))
       = <["K7Q2M9" := used]> (promo_links (db1 "pending"))
    /\ payout_requests (snd (claim_promo_link (db1 "pending") (call_at 500 "0xabc")))
       = payout_requests (db1 "pending")
    /\ logs (snd (claim_promo_link (db1 "pending") (call_at 500 "0xabc")))
       = logs (db1 "pending").
Proof.
  apply (successful_claim_effect (db1 "pending") (call_at 500 "0xabc")).
  - apply db1_indexed.
  - reflexivity.
Defined.

(** After a successful claim the transaction read back is completed,
    pending or claimed, never ready_for_claim. *)
Lemma claimed_transaction_not_ready (db : DB) (call : ClaimCall) :
  success (fst (claim_promo_link db call)) = true ->
  exists p tx,
    load (snd (claim_promo_link db call)) (call_code call) = Some (p, tx)
    /\ String.eqb (status tx) "ready_for_claim" = false.
Proof.
  intros Hs.
  apply claim_success_inv in Hs as (p & tx & used & Hl & Hu & He & Hst & Hr & Hm).
  rewrite (claim_success_run db call p used tx Hl Hu He Hst Hr Hm). cbn [snd].
  destruct (mark_as_used_ok _ _ _ _ _ Hm) as (Hcode & Htr & _).
  unfold load in Hl.
  destruct (promo_links db !! call_code call) as [p0|] eqn:Hp; [|discriminate Hl].
  cbn in Hl.
  destruct (transactions db !! Ledger.transaction p0) as [tx0|] eqn:Htx;
    [|discriminate Hl].
  cbn in Hl. injection Hl as -> ->.
  destruct db as [trs pls pos lgs]. cbn in Hp, Htx.
  assert (Hnr : forall tx', status tx' = status tx \/ status tx' = "claimed" ->
                            String.eqb (status tx') "ready_for_claim" = false).
  { intros tx' [->| ->]; [|reflexivity]. destruct Hst as [-> | ->]; reflexivity. }
  unfold load.
  destruct (String.eqb (status tx) "completed"); cbn; rewrite Hcode;
    (destruct (decide (promo_code p = call_code call)) as [->|Hne];
     [rewrite lookup_insert_eq | rewrite lookup_insert_ne by exact Hne; rewrite Hp]);
    cbn; rewrite ?Htr.
  1,2: destruct (decide (tx_id tx = Ledger.transaction p)) as [->|Hne'];
       [rewrite lookup_insert_eq | rewrite lookup_insert_ne by exact Hne'; rewrite Htx];
       cbn; eexists _, _; (split; [reflexivity|]); cbn; rewrite ?Hnr by auto; reflexivity.
  all: rewrite Htx; cbn; eexists _, _; (split; [reflexivity|]);
    cbn; rewrite ?Hnr by auto; reflexivity.
Qed.

(** The claim endpoint consumes a valid code without paying it out:
    whenever the inner claim succeeds, [process_promo_claim_with_payout]
    answers NOT_READY, whatever the payout rail would have said, and
    keeps what the claim wrote, so the link is used and every later
    claim on the code is refused with ALREADY_USED. *)
Theorem claim_is_consumed_without_payout (db : DB) (call : ClaimCall)
        (rail_ok : bool) :
  indexed_by_code db ->
  success (fst (claim_promo_link db call)) = true ->
  process_promo_claim_with_payout db call rail_ok
  = (failure "Transaction is not ready for claim" "NOT_READY",
     snd (claim_promo_link db call))
  /\ forall call' : ClaimCall,
      call_code call' = call_code call ->
      fst (claim_promo_link (snd (claim_promo_link db call)) call')
      = failure "This promo code has already been used" "ALREADY_USED".
Proof.
  intros Hwf Hs. split.
  - destruct (claimed_transaction_not_ready db call Hs) as (p & tx & Hl & Hnr).
    unfold process_promo_claim_with_payout.
    destruct (claim_promo_link db call) as [r db'] eqn:Hc.
    cbn [fst snd] in *. rewrite Hs. cbn [negb]. rewrite Hl, Hnr. reflexivity.
  - intros call' Hcode.
    destruct (claim_promo_link db call) as [r db'] eqn:Hc. cbn [fst snd] in *.
    destruct (successful_claim_marks_used _ _ _ _ Hwf Hc Hs) as (p & tx & Hl & Hu).
    unfold claim_promo_link. rewrite Hcode, Hl.
    rewrite (used_link_is_refused db' call' p tx Hu). reflexivity.
Qed.

Lemma claim_is_consumed_without_payout_witness :
  process_promo_claim_with_payout (db1 "completed") (call_at 500 "0xabc") true
  = (failure "Transaction is not ready for claim" "NOT_READY",
     snd (claim_promo_link (db1 "completed") (call_at 500 "0xabc"))).
Proof.
  apply (claim_is_consumed_without_payout (db1 "completed") (call_at 500 "0xabc") true).
  - apply db1_indexed.
  - reflexivity.
Defined.

End ClaimOutcomes.

(** ** Fiat payments with an unsupported method *)

Section FiatEdge.

Import PaymentService.

(** [process_fiat_payment] saves the status "processing" before it looks
    at the payment method and is not wrapped in a database transaction:
    called on a pending transaction with any method other than stripe it
    raises ValueError, yet the transaction stays in "processing", and
    from then on every call for it is rejected as not pending. *)
Theorem unsupported_method_strands_transaction
        (now : Z) (db : DB) (id : string) (data : gmap string string)
        (tx : Transaction) :
  indexed_by_id db ->
  transactions db !! id = Some tx ->
  status tx = "pending" ->
  data !! "method" <> Some "stripe" ->
  fst (process_fiat_payment now db id data)
  = Raise (ValueError "Unsupported payment method")
  /\ transactions (snd (process_fiat_payment now db id data)) !! id
     = Some (with_status tx "processing")
  /\ forall (now' : Z) (data' : gmap string string),
      process_fiat_payment now' (snd (process_fiat_payment now db id data)) id data'
      = (Raise (ValueError "Transaction is not in pending status"),
         snd (process_fiat_payment now db id data)).
Proof.
  intros Hwf Htx Hst Hm. pose proof (Hwf _ _ Htx) as Hid.
  assert (Hrun : process_fiat_payment now db id data
                 = (Raise (ValueError "Unsupported payment method"),
                    _log_transaction_action (with_status tx "processing")
                      "status_changed" (Some "pending") (Some "processing") None
                      (save_transaction (with_status tx "processing") db))).
  { unfold process_fiat_payment. rewrite Htx, Hst.
    cbn [String.eqb Ascii.eqb Bool.eqb negb].
    rewrite (bool_decide_eq_false_2 _ Hm). reflexivity. }
  rewrite Hrun. cbn [fst snd].
  assert (Hlook : transactions
                    (_log_transaction_action (with_status tx "processing")
                       "status_changed" (Some "pending") (Some "processing") None
                       (save_transaction (with_status tx "processing") db)) !! id
                  = Some (with_status tx "processing")).
  { cbn. rewrite Hid. apply lookup_insert_eq. }
  split; [reflexivity|]. split; [exact Hlook|].
  intros now' data'. unfold process_fiat_payment at 1. rewrite Hlook. reflexivity.
Qed.

Lemma unsupported_method_strands_transaction_witness :
  fst (process_fiat_payment 100 (db1 "pending") "tx-1" {[ "method" := "paypal" ]})
  = Raise (ValueError "Unsupported payment method")
  /\ transactions
       (snd (process_fiat_payment 100 (db1 "pending") "tx-1" {[ "method" := "paypal" ]}))
       !! "tx-1"
     = Some (with_status (tx1 "pending") "processing")
  /\ forall (now' : Z) (data' : gmap string string),
      process_fiat_payment now'
        (snd (process_fiat_payment 100 (db1 "pending") "tx-1" {[ "method" := "paypal" ]}))
        "tx-1" data'
      = (Raise (ValueError "Transaction is not in pending status"),
         snd (process_fiat_payment 100 (db1 "pending") "tx-1" {[ "method" := "paypal" ]})).
Proof.
  apply (unsupported_method_strands_transaction
           100 (db1 "pending") "tx-1" {[ "method" := "paypal" ]} (tx1 "pending")).
  - apply db1_indexed_by_id.
  - reflexivity.
  - reflexivity.
  - rewrite lookup_singleton_eq. discriminate.
Defined.

End FiatEdge.

(** ** Edges of the commission waterfall *)

Section CommissionEdges.

Import CommissionService.

Lemma filter_active_absorbs (f : CommissionSetting -> bool)
      (l : list CommissionSetting) :
  (forall s, f s = true -> set_is_active s = true) ->
  List.filter f (List.filter set_is_active l) = List.filter f l.
Proof.
  intros Hf. induction l as [|s l IH]; [reflexivity|].
  cbn [List.filter]. destruct (set_is_active s) eqn:Ha.
  - cbn [List.filter]. rewrite IH. reflexivity.
  - rewrite IH. destruct (f s) eqn:Hfs; [|reflexivity].
    apply Hf in Hfs. congruence.
Qed.

Lemma first_setting_active_only (t : Tables) (f : CommissionSetting -> bool) :
  (forall s, f s = true -> set_is_active s = true) ->
  first_setting (active_only t) f = first_setting t f.
Proof.
  intros Hf. unfold first_setting, active_only. cbn [settings].
  rewrite filter_active_absorbs by exact Hf. reflexivity.
Qed.

(** Inactive commission settings play no part: removing them from the
    table changes no resolved rate. *)
Theorem inactive_settings_are_ignored (svc : Service) (t : Tables)
        (currency : option Currency) (provider_id : option string) :
  _get_commission_rate svc (active_only t) currency provider_id
  = _get_commission_rate svc t currency provider_id.
Proof.
  unfold _get_commission_rate.
  assert (Hq1 : forall p c s, q_provider_currency p c s = true -> set_is_active s = true)
    by (intros p c s H; unfold q_provider_currency in H;
        apply andb_prop in H as [_ H]; exact H).
  assert (Hq2 : forall p s, q_provider_only p s = true -> set_is_active s = true)
    by (intros p s H; unfold q_provider_only in H;
        apply andb_prop in H as [_ H]; exact H).
  assert (Hq3 : forall c s, q_currency_only c s = true -> set_is_active s = true)
    by (intros c s H; unfold q_currency_only in H;
        apply andb_prop in H as [_ H]; exact H).
  assert (Hq4 : forall s, q_global s = true -> set_is_active s = true)
    by (intros s H; unfold q_global in H;
        apply andb_prop in H as [_ H]; exact H).
  rewrite (first_setting_active_only t q_global Hq4).
  replace (get_active_provider (active_only t)) with (get_active_provider t)
    by reflexivity.
  destruct provider_id as [pid|]; [destruct (String.eqb pid "")|];
    try destruct (get_active_provider t pid) as [p|];
    destruct currency as [c|];
    rewrite ?(first_setting_active_only t (q_currency_only _) (Hq3 _)),
            ?(first_setting_active_only t (q_provider_only _) (Hq2 _)),
            ?(first_setting_active_only t (q_provider_currency _ _) (Hq1 _ _));
    reflexivity.
Qed.

(** A provider id that names no active provider is as good as none; and
    so is an active provider with no setting of its own whose default
    rate is zero, for a zero default counts as not set. *)
Theorem provider_without_offer_is_no_provider (svc : Service) (t : Tables)
        (c : Currency) (provider_id : option string) :
  (resolved_provider t provider_id = None
   \/ exists p,
       resolved_provider t provider_id = Some p
       /\ first_setting t (q_provider_currency p c) = None
       /\ first_setting t (q_provider_only p) = None
       /\ coef (commission_rate p) = 0) ->
  _get_commission_rate svc t (Some c) provider_id
  = _get_commission_rate svc t (Some c) None.
Proof.
  unfold resolved_provider, _get_commission_rate.
  destruct provider_id as [pid|]; cbn [mbind option_bind]; [|reflexivity].
  destruct (String.eqb pid ""); [reflexivity|].
  intros [Hn | (p & Hp & H1 & H2 & H3)].
  - rewrite Hn. reflexivity.
  - rewrite Hp, H1, H2. unfold truthy. rewrite H3. reflexivity.
Qed.

Lemma provider_without_offer_is_no_provider_witness :
  _get_commission_rate svc5 all_scopes (Some usdt) (Some "p-2")
  = _get_commission_rate svc5 all_scopes (Some usdt) None.
Proof.
  apply provider_without_offer_is_no_provider. left. reflexivity.
Defined.

(** For a non-negative amount of at most 20 digits and a rate between 0
    and 1 of at most five digits and four decimal places, neither the
    commission nor the net amount is negative, and the commission is
    zero exactly when the amount or the rate is. *)
Theorem commission_and_net_are_nonnegative
        (svc : Service) (t : Tables) (amount : Decimal) (currency : Currency)
        (provider_id : option string) :
  amount_shaped amount ->
  rate_shaped (_get_commission_rate svc t (Some currency) provider_id) ->
  0 <= coef amount ->
  0 <= coef (_get_commission_rate svc t (Some currency) provider_id)
    <= 10 ^ (- expo (_get_commission_rate svc t (Some currency) provider_id)) ->
  let r := calculate_commission svc t amount currency provider_id in
  0 <= coef (res_amount r)
  /\ 0 <= coef (res_net_amount r)
  /\ (coef (res_amount r) = 0 <-> coef amount = 0 \/ coef (res_rate r) = 0).
Proof.
  intros Ha Hr Hpos Hrate. cbn zeta. unfold calculate_commission.
  cbn [res_amount res_net_amount res_rate].
  rewrite (sub_exact _ _ Ha Hr), (mul_exact _ _ Ha Hr).
  unfold exact_mul. cbn [coef].
  set (cr := coef (_get_commission_rate svc t (Some currency) provider_id)) in *.
  set (er := expo (_get_commission_rate svc t (Some currency) provider_id)) in *.
  repeat split.
  - nia.
  - nia.
  - intros H. apply Z.mul_eq_0 in H. exact H.
  - intros [-> | ->]; lia.
Qed.

Lemma commission_and_net_are_nonnegative_witness :
  let r := calculate_commission svc5 no_rows (mkDec 10000000000 (-8)) usdt None in
  0 <= coef (res_amount r)
  /\ 0 <= coef (res_net_amount r)
  /\ (coef (res_amount r) = 0 <-> 10000000000 = 0 \/ coef (res_rate r) = 0).
Proof.
  apply (commission_and_net_are_nonnegative
           svc5 no_rows (mkDec 10000000000 (-8)) usdt None).
  - unfold amount_shaped. vm_compute. reflexivity.
  - unfold rate_shaped. vm_compute. intuition discriminate.
  - cbn. lia.
  - vm_compute. intuition discriminate.
Defined.

End CommissionEdges.

(** ** Creating a payment *)

Section PaymentCreation.

Import CommissionService PromoLinkService PaymentService PaymentLifecycle.

Lemma create_promo_link_always_raises
      (fuel : nat) (svc : PromoLinkService.Service) (rnd : nat -> nat)
      (db : DB) (tx : Transaction) :
  create_promo_link fuel svc rnd db tx
  = Some (Raise (TypeError "replace expected at least 2 arguments"), db).
Proof.
  unfold create_promo_link.
  change (_generate_promo_code svc rnd 0)
    with (@Raise string (TypeError "replace expected at least 2 arguments")).
  reflexivity.
Qed.

(** No payment can be created: whatever the request, the currencies, the
    exchange rate and the tables, [create_payment] raises, and since its
    body runs in one database transaction nothing it wrote on the way
    (the new Transaction row) survives. *)
Theorem create_payment_always_fails
        (fuel : nat) (env : Env) (now : Z) (db : DB) (payment_data : PaymentData) :
  (exists e : Exn, create_payment fuel env now db payment_data = Some (Raise e, db))
  /\ (forall (from to : Currency) (converted : Decimal) (tx : Transaction) (db1 : DB),
         _get_currency env (from_currency payment_data) = Ok from ->
         _get_currency env (to_currency payment_data) = Ok to ->
         _validate_amount env (amount payment_data) = Ok tt ->
         convert_currency env (amount payment_data) from to = Ok converted ->
         _create_transaction env now db to
           (calculate_commission (env_commission env) (env_tables env)
                                 converted to (provider_id payment_data))
           payment_data = (Ok tx, db1) ->
         create_payment fuel env now db payment_data
         = Some (Raise (TypeError "replace expected at least 2 arguments"), db)).
Proof.
  unfold create_payment, create_payment_body. split.
  - destruct (_get_currency env (from_currency payment_data)) as [from|e]; [|eauto].
    destruct (_get_currency env (to_currency payment_data)) as [to|e]; [|eauto].
    destruct (_validate_amount env (amount payment_data)) as [[]|e]; [|eauto].
    destruct (convert_currency env (amount payment_data) from to) as [conv|e]; [|eauto].
    destruct (_create_transaction env now db to _ payment_data) as [[tx|e] db1]; [|eauto].
    rewrite create_promo_link_always_raises. eauto.
  - intros from to conv tx db1 -> -> -> -> ->.
    rewrite create_promo_link_always_raises. reflexivity.
Qed.

Lemma create_payment_always_fails_witness :
  create_payment 10 shop_env 0 (db1 "completed") hundred_dollars
  = Some (Raise (TypeError "replace expected at least 2 arguments"), db1 "completed").
Proof.
  apply (proj2 (create_payment_always_fails 10 shop_env 0 (db1 "completed")
                                            hundred_dollars)
               usd usdt (mkDec 100000 (-3))
               {| tx_id := "tx-9"; status := "pending"; net_amount := 9500000000;
                  converted_currency := "USDT"; payment_reference := "";
                  tx_provider := None; tx_expires_at := 86400;
                  completed_at := None |}
               (save_transaction
                  {| tx_id := "tx-9"; status := "pending"; net_amount := 9500000000;
                     converted_currency := "USDT"; payment_reference := "";
                     tx_provider := None; tx_expires_at := 86400;
                     completed_at := None |} (db1 "completed")));
    reflexivity.
Defined.

End PaymentCreation.

(** ** The expiry sweep and the admin cancel action *)

Section ExpirySweep.

Import PromoLinkService PaymentService PaymentLifecycle.

Lemma in_rows {A} (m : gmap string A) (x : A) :
  In x (List.map snd (map_to_list m)) <-> exists k, m !! k = Some x.
Proof.
  rewrite in_map_iff. split.
  - intros ([k y] & Hy & Hin). cbn in Hy. subst y. exists k.
    apply elem_of_map_to_list, list_elem_of_In. exact Hin.
  - intros (k & Hk). exists (k, x). split; [reflexivity|].
    apply list_elem_of_In, elem_of_map_to_list. exact Hk.
Qed.

Lemma nodup_map_filter {A B} (f : A -> B) (P : A -> bool) (l : list A) :
  NoDup (List.map f l) -> NoDup (List.map f (List.filter P l)).
Proof.
  induction l as [|x l IH]; cbn [List.map List.filter]; [auto|].
  intros Hnd. apply NoDup_cons in Hnd as [Hx Hl].
  destruct (P x); cbn [List.map]; [|auto].
  apply NoDup_cons. split; [|auto].
  intros Hin. apply Hx. apply list_elem_of_In in Hin. apply list_elem_of_In.
  apply in_map_iff in Hin as (y & Hy & Hyin). apply in_map_iff.
  exists y. split; [exact Hy|]. apply filter_In in Hyin. tauto.
Qed.

Lemma nodup_row_ids (db : DB) :
  indexed_by_id db ->
  NoDup (List.map tx_id (List.map snd (map_to_list (transactions db)))).
Proof.
  intros Hwf.
  assert (Heq : List.map tx_id (List.map snd (map_to_list (transactions db)))
                = (map_to_list (transactions db)).*1).
  { assert (Hall : forall k tx, (k, tx) ∈ map_to_list (transactions db) -> tx_id tx = k)
      by (intros k tx H; apply elem_of_map_to_list in H; apply Hwf; exact H).
    induction (map_to_list (transactions db)) as [|[k tx] l IH]; [reflexivity|].
    cbn. rewrite (Hall k tx) by (left). f_equal.
    apply IH. intros k' tx' H. apply Hall. right. exact H. }
  rewrite Heq. apply NoDup_fst_map_to_list.
Qed.

Lemma expire_fold (rows : list Transaction) :
  forall acc : nat * DB,
    NoDup (List.map tx_id rows) ->
    (forall i, ~ In i (List.map tx_id rows) ->
               transactions (snd (fold_left expire_one rows acc)) !! i
               = transactions (snd acc) !! i)
    /\ (forall tx, In tx rows ->
                   transactions (snd (fold_left expire_one rows acc)) !! tx_id tx
                   = Some (with_status tx "expired"))
    /\ promo_links (snd (fold_left expire_one rows acc)) = promo_links (snd acc)
    /\ length (logs (snd (fold_left expire_one rows acc)))
       = (length (logs (snd acc)) + length rows)%nat
    /\ fst (fold_left expire_one rows acc) = (fst acc + length rows)%nat.
Proof.
  induction rows as [|t0 rows IH]; intros acc Hnd; cbn [fold_left List.map length].
  - repeat split; try lia; try reflexivity. intros tx [].
  - apply NoDup_cons in Hnd as [Ht0 Hnd].
    destruct (IH (expire_one acc t0) Hnd) as (H1 & H2 & H3 & H4 & H5).
    repeat split.
    + intros i Hi. rewrite H1 by (intros Hin; apply Hi; right; exact Hin).
      cbn. apply lookup_insert_ne. intros Heq. apply Hi. left. exact Heq.
    + intros tx [<- | Hin]; [|apply H2; exact Hin].
      rewrite H1 by (intros Hin; apply Ht0, list_elem_of_In; exact Hin).
      cbn. apply lookup_insert_eq.
    + rewrite H3. reflexivity.
    + rewrite H4. cbn. lia.
    + rewrite H5. cbn. lia.
Qed.

Lemma filter_all_false {A} (P : A -> bool) (l : list A) :
  (forall x, In x l -> P x = false) -> List.filter P l = [].
Proof.
  induction l as [|x l IH]; intros H; [reflexivity|].
  cbn [List.filter]. rewrite (H x) by (left; reflexivity).
  apply IH. intros y Hy. apply H. right. exact Hy.
Qed.

Lemma expire_sweep_spec (now : Z) (db : DB) :
  indexed_by_id db ->
  (forall i,
      transactions (snd (expire_old_transactions now db)) !! i
      = (fun tx => if stale_pending now tx then with_status tx "expired" else tx)
          <$> transactions db !! i)
  /\ promo_links (snd (expire_old_transactions now db)) = promo_links db
  /\ length (logs (snd (expire_old_transactions now db)))
     = (length (logs db) + fst (expire_old_transactions now db))%nat
  /\ fst (expire_old_transactions now db)
     = length (List.filter (stale_pending now)
                           (List.map snd (map_to_list (transactions db)))).
Proof.
  intros Hwf. unfold expire_old_transactions.
  set (rows := List.filter (stale_pending now)
                           (List.map snd (map_to_list (transactions db)))).
  assert (Hnd : NoDup (List.map tx_id rows))
    by (apply nodup_map_filter, nodup_row_ids, Hwf).
  assert (Hrows : forall tx, In tx rows
                             <-> stale_pending now tx = true
                                 /\ transactions db !! tx_id tx = Some tx).
  { intros tx. unfold rows. rewrite filter_In, in_rows. split.
    - intros [(k & Hk) Hs]. split; [exact Hs|].
      rewrite (Hwf _ _ Hk). exact Hk.
    - intros [Hs Hk]. split; [eauto | exact Hs]. }
  destruct (expire_fold rows (0%nat, db) Hnd) as (H1 & H2 & H3 & H4 & H5).
  cbn [fst snd] in *. repeat split.
  - intros i. destruct (transactions db !! i) as [tx|] eqn:Hi; cbn.
    + pose proof (Hwf _ _ Hi) as Hid.
      destruct (stale_pending now tx) eqn:Hs.
      * rewrite <- Hid. apply H2, Hrows. rewrite Hid. auto.
      * rewrite H1; [exact Hi|].
        intros Hin. apply in_map_iff in Hin as (tx' & Hid' & Hin').
        apply Hrows in Hin' as [Hs' Hk']. rewrite Hid' in Hk'. congruence.
    + rewrite H1; [exact Hi|].
      intros Hin. apply in_map_iff in Hin as (tx' & Hid' & Hin').
      apply Hrows in Hin' as [Hs' Hk']. rewrite Hid' in Hk'. congruence.
  - exact H3.
  - rewrite H4, H5. lia.
  - rewrite H5. reflexivity.
Qed.



(** A second sweep, at the same or an earlier clock reading, finds
    nothing: it returns 0 and writes nothing. *)
Theorem expire_old_transactions_idempotent (now now' : Z) (db : DB) :
  indexed_by_id db ->
  now' <= now ->
  expire_old_transactions now' (snd (expire_old_transactions now db))
  = (0%nat, snd (expire_old_transactions now db)).
Proof.
  intros Hwf Hle.
  destruct (expire_sweep_spec now db Hwf) as (Hlook & _).
  unfold expire_old_transactions at 1.
  rewrite filter_all_false; [reflexivity|].
  intros tx' Hin. apply in_rows in Hin as (k & Hk).
  rewrite Hlook in Hk.
  destruct (transactions db !! k) as [tx|]; [|discriminate Hk].
  cbn in Hk. injection Hk as <-.
  destruct (stale_pending now tx) eqn:Hs; [reflexivity|].
  unfold stale_pending in *.
  destruct (String.eqb (status tx) "pending"); [|reflexivity].
  cbn [andb] in *.
  destruct (Z.ltb_spec (tx_expires_at tx) now); [discriminate Hs|].
  destruct (Z.ltb_spec (tx_expires_at tx) now'); [lia | reflexivity].
Qed.

Lemma expire_old_transactions_idempotent_witness :
  expire_old_transactions 1500 (snd (expire_old_transactions 2000 (db1 "pending")))
  = (0%nat, snd (expire_old_transactions 2000 (db1 "pending"))).
Proof.
  apply expire_old_transactions_idempotent.
  - apply db1_indexed_by_id.
  - lia.
Defined.

(** The admin cancel action cancels a pending or processing transaction
    and refuses every other one with a 400, writing nothing; once a
    transaction is cancelled, no claim on its promo link succeeds. *)
Theorem cancel_blocks_claims (db : DB) (pk : string) (tx : Transaction) :
  indexed_by_id db ->
  transactions db !! pk = Some tx ->
  (status tx <> "pending" -> status tx <> "processing" ->
   cancel db pk
   = (Http400 "Can only cancel pending or processing transactions", db))
  /\ (status tx = "pending" \/ status tx = "processing" ->
      cancel db pk
      = (Http200 "Transaction cancelled successfully",
         save_transaction (with_status tx "cancelled") db)
      /\ forall call : ClaimCall,
          (exists p, promo_links db !! call_code call = Some p
                     /\ Ledger.transaction p = pk) ->
          success (fst (claim_promo_link (snd (cancel db pk)) call)) = false).
Proof.
  intros Hwf Htx. pose proof (Hwf _ _ Htx) as Hid. unfold cancel. rewrite Htx.
  unfold in_list. cbn [existsb]. split.
  - intros H1 H2.
    destruct (String.eqb_spec (status tx) "pending"); [contradiction|].
    destruct (String.eqb_spec (status tx) "processing"); [contradiction|].
    reflexivity.
  - intros Hst.
    assert (Hin : String.eqb (status tx) "pending"
                  || (String.eqb (status tx) "processing" || false) = true)
      by (destruct Hst as [-> | ->]; reflexivity).
    rewrite Hin. cbn [negb]. split; [reflexivity|].
    intros call (p & Hp & Hfk). cbn [snd].
    destruct (success (fst (claim_promo_link _ call))) eqn:Hs; [|reflexivity].
    apply claim_success_inv in Hs as (p' & tx' & used & Hl & _ & _ & Hst' & _).
    unfold load in Hl. cbn in Hl. rewrite Hp in Hl. cbn in Hl.
    rewrite Hfk, Hid, lookup_insert_eq in Hl. cbn in Hl.
    injection Hl as <- <-. cbn in Hst'. destruct Hst'; discriminate.
Qed.

Lemma cancel_blocks_claims_witness :
  success (fst (claim_promo_link (snd (cancel (db1 "pending") "tx-1"))
                                 (call_at 500 "0xabc"))) = false.
Proof.
  destruct (cancel_blocks_claims (db1 "pending") "tx-1" (tx1 "pending")
              (db1_indexed_by_id "pending") eq_refl) as [_ H].
  destruct (H (or_introl eq_refl)) as [_ Hc].
  apply Hc. exists link1. split; reflexivity.
Defined.

End ExpirySweep.

(** ** The sweep over expired promo links *)

Section PromoLinkSweep.

Import PromoLinkService PromoSweep.

Lemma swept_nil (i : string) (tx : Transaction) : swept [] i tx = tx.
Proof. unfold swept. cbn [existsb]. rewrite andb_false_r. reflexivity. Qed.

Lemma swept_expired (rows : list PromoLink) (i : string) (tx : Transaction) :
  swept rows i (with_status tx "expired") = with_status tx "expired".
Proof. reflexivity. Qed.

Lemma sweep_links_spec (rows : list PromoLink) :
  forall (n : nat) (db : DB),
    indexed_by_id db ->
    (forall p, In p rows -> is_Some (transactions db !! Ledger.transaction p)) ->
    exists db',
      sweep_links rows n db = Done (n + length rows) db'
      /\ promo_links db' = promo_links db
      /\ payout_requests db' = payout_requests db
      /\ logs db' = logs db
      /\ forall i, transactions db' !! i = swept rows i <$> transactions db !! i.
Proof.
  induction rows as [|p rest IH]; intros n db Hwf Hfk; cbn [sweep_links length].
  - exists db. rewrite Nat.add_0_r. repeat split.
    intros i. destruct (transactions db !! i); cbn; [rewrite swept_nil|]; reflexivity.
  - destruct (Hfk p (or_introl eq_refl)) as [tx0 Htx0]. rewrite Htx0.
    pose proof (Hwf _ _ Htx0) as Hid0.
    set (db1 := if in_list (status tx0) ["pending"; "completed"]
                then save_transaction (with_status tx0 "expired") db else db).
    assert (Hwf1 : indexed_by_id db1).
    { unfold db1. destruct (in_list (status tx0) _); [|exact Hwf].
      intros i tx. cbn. rewrite lookup_insert.
      destruct (decide (tx_id tx0 = i)) as [<-|_]; [intros [= <-]; reflexivity|].
      apply Hwf. }
    assert (Hfk1 : forall q, In q rest ->
                             is_Some (transactions db1 !! Ledger.transaction q)).
    { intros q Hq. unfold db1. destruct (in_list (status tx0) _);
        [|apply Hfk; right; exact Hq].
      cbn. rewrite lookup_insert. destruct (decide _); [eauto|].
      apply Hfk. right. exact Hq. }
    destruct (IH (S n) db1 Hwf1 Hfk1) as (db' & Hrun & Hpl & Hpo & Hlg & Htr).
    exists db'. rewrite Hrun.
    replace (S n + length rest)%nat with (n + S (length rest))%nat by lia.
    assert (Hsame : promo_links db1 = promo_links db
                    /\ payout_requests db1 = payout_requests db
                    /\ logs db1 = logs db)
      by (unfold db1; destruct (in_list (status tx0) _); auto).
    destruct Hsame as (E1 & E2 & E3).
    split; [reflexivity|]. split; [congruence|]. split; [congruence|].
    split; [congruence|].
    intros i. rewrite Htr. unfold db1.
    destruct (in_list (status tx0) ["pending"; "completed"]) eqn:Hc.
    + cbn [save_transaction transactions].
      change (tx_id (with_status tx0 "expired")) with (tx_id tx0).
      rewrite lookup_insert.
      destruct (decide (tx_id tx0 = i)) as [<-|Hne].
      * rewrite Hid0, Htx0. cbn [fmap option_fmap option_map].
        rewrite swept_expired. unfold swept. rewrite Hc. cbn [existsb].
        rewrite String.eqb_refl. reflexivity.
      * destruct (transactions db !! i) as [tx|]; [|reflexivity]. cbn.
        unfold swept. cbn [existsb].
        rewrite <- Hid0. rewrite (proj2 (String.eqb_neq _ _) Hne). reflexivity.
    + destruct (transactions db !! i) as [tx|] eqn:Hi; [|reflexivity]. cbn.
      unfold swept. cbn [existsb].
      destruct (String.eqb_spec (Ledger.transaction p) i) as [Heq|Hne];
        [|reflexivity].
      assert (tx = tx0) as -> by congruence. rewrite Hc. reflexivity.
Qed.

(** Provided every link's transaction exists, [expire_old_promo_links]
    returns the number of unused links past their expiry and, of their
    transactions, turns the pending and the completed (paid) ones into
    expired; every other transaction, every promo link and the audit log
    are left as they were. *)
Theorem expire_old_promo_links_effect (now : Z) (db : DB) :
  indexed_by_id db ->
  links_have_transactions db ->
  exists db',
    expire_old_promo_links now db
    = Done (length (List.filter (stale_link now)
                                (List.map snd (map_to_list (promo_links db))))) db'
    /\ promo_links db' = promo_links db
    /\ logs db' = logs db
    /\ forall i tx,
        transactions db !! i = Some tx ->
        (in_list (status tx) ["pending"; "completed"] = true ->
         (exists c p, promo_links db !! c = Some p
                      /\ stale_link now p = true
                      /\ Ledger.transaction p = i) ->
         transactions db' !! i = Some (with_status tx "expired"))
        /\ (transactions db' !! i = Some tx
            \/ (transactions db' !! i = Some (with_status tx "expired")
                /\ in_list (status tx) ["pending"; "completed"] = true
                /\ exists c p, promo_links db !! c = Some p
                               /\ stale_link now p = true
                               /\ Ledger.transaction p = i)).
Proof.
  intros Hwf Hfk. unfold expire_old_promo_links.
  set (rows := List.filter (stale_link now)
                           (List.map snd (map_to_list (promo_links db)))).
  assert (Hrows : forall p, In p rows
                            <-> stale_link now p = true
                                /\ exists c, promo_links db !! c = Some p).
  { intros p. unfold rows. rewrite filter_In, in_rows. tauto. }
  destruct (sweep_links_spec rows 0 db Hwf) as (db' & Hrun & Hpl & _ & Hlg & Htr).
  { intros p Hp. apply Hrows in Hp as [_ (c & Hc)]. exact (Hfk _ _ Hc). }
  exists db'. split; [exact Hrun|]. split; [exact Hpl|]. split; [exact Hlg|].
  intros i tx Hi. rewrite Htr, Hi. cbn [fmap option_fmap option_map]. unfold swept.
  split.
  - intros Hc (c & p & Hp & Hs & Hfki). rewrite Hc. cbn [andb].
    assert (Hex : existsb (fun p => String.eqb (Ledger.transaction p) i) rows = true).
    { apply existsb_exists. exists p. split; [apply Hrows; eauto|].
      rewrite Hfki. apply String.eqb_refl. }
    rewrite Hex. reflexivity.
  - destruct (in_list (status tx) ["pending"; "completed"]); cbn [andb]; [|auto].
    destruct (existsb _ rows) eqn:Hex; [|auto].
    right. split; [reflexivity|]. split; [reflexivity|].
    apply existsb_exists in Hex as (p & Hin & Heq).
    apply Hrows in Hin as [Hs (c & Hc)].
    exists c, p. split; [exact Hc|]. split; [exact Hs|].
    apply String.eqb_eq. exact Heq.
Qed.

Lemma db1_links_have_transactions (st : string) : links_have_transactions (db1 st).
Proof.
  intros c p H. cbn in H. apply lookup_singleton_Some in H as [<- <-].
  cbn. rewrite lookup_singleton_eq. eauto.
Qed.

Lemma expire_old_promo_links_effect_witness :
  exists db',
    expire_old_promo_links 2000 (db1 "completed") = Done 1 db'
    /\ transactions db' !! "tx-1" = Some (tx1 "expired").
Proof.
  destruct (expire_old_promo_links_effect 2000 (db1 "completed")
              (db1_indexed_by_id "completed")
              (db1_links_have_transactions "completed"))
    as (db' & Hrun & _ & _ & Htr).
  exists db'. split; [exact Hrun|].
  apply (proj1 (Htr "tx-1" (tx1 "completed") eq_refl)).
  - reflexivity.
  - exists "K7Q2M9", link1. repeat split; reflexivity.
Defined.

End PromoLinkSweep.

(** ** Commission settings: validation, writing, describing *)

Section CommissionSettings.

Import CommissionService CommissionAdmin PyMore.

(** A setting that passes [clean()] belongs to one scope at most: for
    any provider and currency, no more than one of the four queries of
    the waterfall selects it. *)
Theorem cleaned_setting_has_one_scope (s : CommissionSetting) (p : Provider)
        (c : Currency) :
  clean s = None ->
  (Nat.b2n (q_provider_currency p c s) + Nat.b2n (q_provider_only p s)
   + Nat.b2n (q_currency_only c s) + Nat.b2n (q_global s) <= 1)%nat.
Proof.
  unfold clean, q_provider_currency, q_provider_only, q_currency_only, q_global,
    fk_is, fk_isnull.
  destruct s as [[cu|] [pr|] r act glob]; cbn [set_currency set_provider
    set_is_active is_global]; destruct glob, act; cbn;
    try discriminate; intros _;
    repeat match goal with
           | |- context [String.eqb ?a ?b] => destruct (String.eqb a b)
           | |- context [Nat.eqb ?a ?b] => destruct (Nat.eqb a b)
           end; cbn; lia.
Qed.

Lemma cleaned_setting_has_one_scope_witness :
  (Nat.b2n (q_provider_currency (mkProvider "p-1" true (mkDec 400 (-4))) usdt
              (mkSetting None None (mkDec 500 (-4)) true true))
   + Nat.b2n (q_provider_only (mkProvider "p-1" true (mkDec 400 (-4)))
                (mkSetting None None (mkDec 500 (-4)) true true))
   + Nat.b2n (q_currency_only usdt (mkSetting None None (mkDec 500 (-4)) true true))
   + Nat.b2n (q_global (mkSetting None None (mkDec 500 (-4)) true true)) <= 1)%nat.
Proof.
  apply cleaned_setting_has_one_scope. reflexivity.
Defined.

Lemma head_filter_some {A} (f : A -> bool) (l : list A) (x : A) :
  head (List.filter f l) = Some x -> In x l /\ f x = true.
Proof.
  intros H. assert (Hin : In x (List.filter f l)).
  { destruct (List.filter f l) as [|y ys]; [discriminate H|].
    injection H as ->. left. reflexivity. }
  apply filter_In in Hin. exact Hin.
Qed.

(** The resolver never invents a rate: what it returns is the system
    default, the rate of an active setting of the table, or the non-zero
    default rate of an active provider. *)
Theorem resolved_rate_comes_from_tables (svc : Service) (t : Tables)
        (currency : option Currency) (provider_id : option string) :
  let r := _get_commission_rate svc t currency provider_id in
  r = default_rate svc
  \/ (exists s, In s (settings t) /\ set_is_active s = true /\ rate s = r)
  \/ (exists p, In p (providers t) /\ prov_is_active p = true
                /\ coef (commission_rate p) <> 0 /\ commission_rate p = r).
Proof.
  cbn zeta.
  assert (Hset : forall f s,
             (forall x, f x = true -> set_is_active x = true) ->
             first_setting t f = Some s ->
             exists s', In s' (settings t) /\ set_is_active s' = true /\ rate s' = rate s).
  { intros f s Hf H. apply head_filter_some in H as [Hin Hfs]. exists s. auto. }
  assert (Hq1 : forall p c s, q_provider_currency p c s = true -> set_is_active s = true)
    by (intros p c s H; unfold q_provider_currency in H;
        apply andb_prop in H as [_ H]; exact H).
  assert (Hq2 : forall p s, q_provider_only p s = true -> set_is_active s = true)
    by (intros p s H; unfold q_provider_only in H;
        apply andb_prop in H as [_ H]; exact H).
  assert (Hq3 : forall c s, q_currency_only c s = true -> set_is_active s = true)
    by (intros c s H; unfold q_currency_only in H;
        apply andb_prop in H as [_ H]; exact H).
  assert (Hq4 : forall s, q_global s = true -> set_is_active s = true)
    by (intros s H; unfold q_global in H;
        apply andb_prop in H as [_ H]; exact H).
  assert (Hdown : forall cur,
             let r := match match cur with
                            | Some c => first_setting t (q_currency_only c)
                            | None => None
                            end with
                      | Some setting => rate setting
                      | None => match first_setting t q_global with
                                | Some g => rate g
                                | None => default_rate svc
                                end
                      end in
             r = default_rate svc
             \/ (exists s, In s (settings t) /\ set_is_active s = true /\ rate s = r)
             \/ (exists p, In p (providers t) /\ prov_is_active p = true
                           /\ coef (commission_rate p) <> 0 /\ commission_rate p = r)).
  { intros cur. cbn zeta.
    destruct cur as [c|].
    - destruct (first_setting t (q_currency_only c)) eqn:H3;
        [right; left; exact (Hset _ _ (Hq3 c) H3)|].
      destruct (first_setting t q_global) eqn:H4;
        [right; left; exact (Hset _ _ Hq4 H4) | left; reflexivity].
    - destruct (first_setting t q_global) eqn:H4;
        [right; left; exact (Hset _ _ Hq4 H4) | left; reflexivity]. }
  unfold _get_commission_rate.
  destruct currency as [c|].
  - destruct provider_id as [pid|]; [|exact (Hdown (Some c))].
    destruct (String.eqb pid ""); [exact (Hdown (Some c))|].
    destruct (get_active_provider t pid) as [p|] eqn:Hp; [|exact (Hdown (Some c))].
    apply find_some in Hp as [Hin Hact]. apply andb_prop in Hact as [_ Hact].
    destruct (first_setting t (q_provider_currency p c)) eqn:H1;
      [right; left; exact (Hset _ _ (Hq1 p c) H1)|].
    destruct (first_setting t (q_provider_only p)) eqn:H2;
      [right; left; exact (Hset _ _ (Hq2 p) H2)|].
    destruct (truthy (commission_rate p)) eqn:Ht; [|exact (Hdown (Some c))].
    right; right. exists p. repeat split; auto.
    unfold truthy in Ht. destruct (Z.eqb_spec (coef (commission_rate p)) 0);
      [discriminate Ht | assumption].
  - destruct provider_id as [pid|]; [|exact (Hdown None)].
    destruct (String.eqb pid ""); [exact (Hdown None)|].
    destruct (get_active_provider t pid) as [p|] eqn:Hp; [|exact (Hdown None)].
    apply find_some in Hp as [Hin Hact]. apply andb_prop in Hact as [_ Hact].
    destruct (first_setting t (q_provider_only p)) eqn:H2;
      [right; left; exact (Hset _ _ (Hq2 p) H2)|].
    destruct (truthy (commission_rate p)) eqn:Ht; [|exact (Hdown None)].
    right; right. exists p. repeat split; auto.
    unfold truthy in Ht. destruct (Z.eqb_spec (coef (commission_rate p)) 0);
      [discriminate Ht | assumption].
Qed.

Lemma ltb_false_leb (x y : Decimal) : ltb x y = false -> leb y x = true.
Proof.
  unfold ltb, leb. rewrite (Z.min_comm (expo y)). intros H.
  destruct (Z.ltb_spec (align x (Z.min (expo x) (expo y)))
                       (align y (Z.min (expo x) (expo y)))); [discriminate H|].
  apply Z.leb_le. assumption.
Qed.

(** [update_commission_setting] refuses a rate below 0 or above the
    maximum with a ValueError, and an error of any kind leaves the table
    as it was.  When it succeeds, the object it reports carries the
    requested rate, which lies between 0 and the maximum; the row stored
    under the reported id is that object with the rate as the column
    keeps it, and no other row has changed.  So a table whose rates are
    all in range stays so, as long as what the column keeps of the rate
    is in range too. *)
Theorem update_commission_setting_effect (svc : Service)
        (store_rate : Decimal -> Res Decimal) (t : AdminTables)
        (setting_data : SettingData) :
  let out := update_commission_setting svc store_rate t setting_data in
  (forall e, fst out = Raise e -> snd out = t)
  /\ (ltb (sd_rate setting_data) (mkDec 0 0) = true
      \/ ltb (max_rate svc) (sd_rate setting_data) = true ->
      exists msg, fst out = Raise (ValueError msg))
  /\ (forall id row,
         fst out = Ok (id, row) ->
         rate row = sd_rate setting_data
         /\ rate_in_range svc row
         /\ (exists kept,
                store_rate (sd_rate setting_data) = Ok kept
                /\ setting_rows (snd out) !! id = Some (with_rate row kept))
         /\ forall j, j <> id -> setting_rows (snd out) !! j = setting_rows t !! j)
  /\ ((forall kept s, store_rate (sd_rate setting_data) = Ok kept ->
                      rate_in_range svc (with_rate s kept)) ->
      map_Forall (fun _ s => rate_in_range svc s) (setting_rows t) ->
      map_Forall (fun _ s => rate_in_range svc s) (setting_rows (snd out))).
Proof.
  cbv zeta. unfold update_commission_setting.
  destruct (ltb (sd_rate setting_data) (mkDec 0 0)) eqn:Hlo;
    [cbn; split; [auto|]; split; [eauto|]; split;
     [intros ? ? H; discriminate H | auto]|].
  destruct (ltb (max_rate svc) (sd_rate setting_data)) eqn:Hhi;
    [cbn; split; [auto|]; split; [eauto|]; split;
     [intros ? ? H; discriminate H | auto]|].
  cbn [orb].
  assert (Hno : ~ (false = true \/ false = true)) by (intros [H|H]; discriminate H).
  assert (Hrange : forall cu pr act glob,
             rate_in_range svc (mkSetting cu pr (sd_rate setting_data) act glob))
    by (intros; unfold rate_in_range; cbn [rate]; split; apply ltb_false_leb;
        assumption).
  set (post := fun out : Res (nat * CommissionSetting) * AdminTables =>
    (forall e, fst out = Raise e -> snd out = t)
    /\ (false = true \/ false = true ->
        exists msg, fst out = Raise (ValueError msg))
    /\ (forall id row,
           fst out = Ok (id, row) ->
           rate row = sd_rate setting_data
           /\ rate_in_range svc row
           /\ (exists kept,
                  store_rate (sd_rate setting_data) = Ok kept
                  /\ setting_rows (snd out) !! id = Some (with_rate row kept))
           /\ forall j, j <> id -> setting_rows (snd out) !! j = setting_rows t !! j)
    /\ ((forall kept s, store_rate (sd_rate setting_data) = Ok kept ->
                        rate_in_range svc (with_rate s kept)) ->
        map_Forall (fun _ s => rate_in_range svc s) (setting_rows t) ->
        map_Forall (fun _ s => rate_in_range svc s) (setting_rows (snd out)))).
  assert (Hfail : forall e, post (Raise e, t)).
  { intros e. unfold post. cbn. split; [auto|]. split; [intros H; destruct (Hno H)|].
    split; [intros ? ? H; discriminate H | auto]. }
  assert (Hdone : forall id row kept nid,
             rate row = sd_rate setting_data ->
             rate_in_range svc row ->
             store_rate (sd_rate setting_data) = Ok kept ->
             post (Ok (id, row),
                   {| currencies := currencies t;
                      admin_providers := admin_providers t;
                      setting_rows := <[id := with_rate row kept]> (setting_rows t);
                      next_id := nid |})).
  { intros id row kept nid Hr Hin Hkept. unfold post. cbn.
    split; [intros e H; discriminate H|].
    split; [intros H; destruct (Hno H)|]. split.
    - intros id' row' [= <- <-]. split; [exact Hr|]. split; [exact Hin|]. split.
      + exists kept. split; [exact Hkept | apply lookup_insert_eq].
      + intros j Hj. apply lookup_insert_ne. congruence.
    - intros Hstore Hall. apply map_Forall_insert_2; [|exact Hall].
      apply Hstore. exact Hkept. }
  match goal with
  | |- context [match ?cur with Ok _ => _ | Raise _ => _ end] =>
      destruct cur as [currency|e1]
  end; [|apply Hfail].
  match goal with
  | |- context [match ?prov with Ok _ => _ | Raise _ => _ end] =>
      destruct prov as [provider|e2]
  end; [|apply Hfail].
  destruct (sd_id setting_data) as [[|n]|].
  - destruct (store_rate (sd_rate setting_data)) as [kept|e3] eqn:Hkept; [|apply Hfail].
    destruct (clashes (setting_rows t) (next_id t) _); [apply Hfail|].
    apply Hdone; [reflexivity | apply Hrange | reflexivity].
  - destruct (setting_rows t !! S n) as [setting|]; [|apply Hfail].
    destruct (store_rate (sd_rate setting_data)) as [kept|e3] eqn:Hkept; [|apply Hfail].
    destruct (clashes (setting_rows t) (S n) _); [apply Hfail|].
    apply Hdone; [reflexivity | apply Hrange | reflexivity].
  - destruct (store_rate (sd_rate setting_data)) as [kept|e3] eqn:Hkept; [|apply Hfail].
    destruct (clashes (setting_rows t) (next_id t) _); [apply Hfail|].
    apply Hdone; [reflexivity | apply Hrange | reflexivity].
Qed.

Lemma update_commission_setting_effect_witness :
  rate_in_range svc5 (mkSetting (Some 2%nat) None (mkDec 25 (-3)) true false)
  /\ exists kept,
      four_places (mkDec 25 (-3)) = Ok kept
      /\ setting_rows
           (snd (update_commission_setting svc5 four_places
                   (mkAdminTables [usd; usdt] [] ∅ 1)
                   (mkSettingData None (Some "usdt") None (mkDec 25 (-3)) None)))
           !! 1%nat
         = Some (with_rate (mkSetting (Some 2%nat) None (mkDec 25 (-3)) true false)
                           kept).
Proof.
  destruct (proj1 (proj2 (proj2
              (update_commission_setting_effect svc5 four_places
                 (mkAdminTables [usd; usdt] [] ∅ 1)
                 (mkSettingData None (Some "usdt") None (mkDec 25 (-3)) None))))
              1%nat (mkSetting (Some 2%nat) None (mkDec 25 (-3)) true false)
              eq_refl)
    as (_ & Hrange & Hkept & _).
  split; [exact Hrange | exact Hkept].
Defined.

(** Nothing on this path calls [clean()]: a request that names no
    currency and no provider and is not global is accepted, and the row
    it stores is one that [clean()] rejects and that no query of the
    rate waterfall selects, whatever the provider and the currency. *)
Theorem unscoped_setting_is_stored (svc : Service)
        (store_rate : Decimal -> Res Decimal) (t : AdminTables)
        (setting_data : SettingData) (kept : Decimal) :
  sd_id setting_data = None ->
  str_truthy (sd_currency_code setting_data) = false ->
  str_truthy (sd_provider_id setting_data) = false ->
  default false (sd_is_global setting_data) = false ->
  ltb (sd_rate setting_data) (mkDec 0 0) = false ->
  ltb (max_rate svc) (sd_rate setting_data) = false ->
  store_rate (sd_rate setting_data) = Ok kept ->
  exists row,
    fst (update_commission_setting svc store_rate t setting_data)
    = Ok (next_id t, row)
    /\ setting_rows (snd (update_commission_setting svc store_rate t setting_data))
       !! next_id t = Some (with_rate row kept)
    /\ set_is_active (with_rate row kept) = true
    /\ clean (with_rate row kept)
       = Some "Commission must be global, currency-specific, or provider-specific"
    /\ forall (p : Provider) (c : Currency),
         q_provider_currency p c (with_rate row kept) = false
         /\ q_provider_only p (with_rate row kept) = false
         /\ q_currency_only c (with_rate row kept) = false
         /\ q_global (with_rate row kept) = false.
Proof.
  intros Hid Hcur Hprov Hglob Hlo Hhi Hkept.
  unfold update_commission_setting.
  rewrite Hlo, Hhi, Hcur, Hprov, Hid, Hkept, Hglob. cbn.
  eexists. split; [reflexivity|]. split; [apply lookup_insert_eq|].
  repeat split.
Qed.

Lemma unscoped_setting_is_stored_witness :
  exists row,
    fst (update_commission_setting svc5 four_places
           (mkAdminTables [usd; usdt] [] ∅ 1)
           (mkSettingData None None None (mkDec 25 (-3)) None))
    = Ok (1%nat, row)
    /\ clean (with_rate row (mkDec 250 (-4)))
       = Some "Commission must be global, currency-specific, or provider-specific".
Proof.
  destruct (unscoped_setting_is_stored svc5 four_places
              (mkAdminTables [usd; usdt] [] ∅ 1)
              (mkSettingData None None None (mkDec 25 (-3)) None)
              (mkDec 250 (-4)))
    as (row & Hout & _ & _ & Hclean & _); try reflexivity.
  exists row. split; [exact Hout | exact Hclean].
Defined.

End CommissionSettings.

(** ** Describing the source of a rate *)

Section RateSource.

Import CommissionService CommissionAdmin.

Lemma find_active_when_all_active (t : Tables) (pid : string) :
  (forall p, In p (providers t) -> prov_is_active p = true) ->
  List.find (fun p => String.eqb (prov_id p) pid) (providers t)
  = get_active_provider t pid.
Proof.
  unfold get_active_provider. induction (providers t) as [|p ps IH]; intros Hall.
  - reflexivity.
  - cbn [List.find]. rewrite (Hall p (or_introl eq_refl)), andb_true_r.
    destruct (String.eqb (prov_id p) pid); [reflexivity|].
    apply IH. intros q Hq. apply Hall. right. exact Hq.
Qed.

Ltac name_level hi l lo :=
  exists hi, l, lo;
  split; [reflexivity|];
  split; [repeat constructor|];
  cbn [offer resolved_provider level_label mbind option_bind fmap option_map mret];
  repeat match goal with
         | H : _ = _ |- _ => rewrite H
         end;
  split; reflexivity.

Ltac name_first_level :=
  first [ name_level (@nil Level) ProviderCurrency
            [ProviderOnly; ProviderDefault; CurrencyOnly; GlobalSetting; SystemDefault]
        | name_level [ProviderCurrency] ProviderOnly
            [ProviderDefault; CurrencyOnly; GlobalSetting; SystemDefault]
        | name_level [ProviderCurrency; ProviderOnly] ProviderDefault
            [CurrencyOnly; GlobalSetting; SystemDefault]
        | name_level [ProviderCurrency; ProviderOnly; ProviderDefault] CurrencyOnly
            [GlobalSetting; SystemDefault]
        | name_level [ProviderCurrency; ProviderOnly; ProviderDefault; CurrencyOnly]
            GlobalSetting [SystemDefault]
        | name_level [ProviderCurrency; ProviderOnly; ProviderDefault; CurrencyOnly;
                      GlobalSetting]
            SystemDefault (@nil Level) ].

(** When no provider of the table is inactive, [_get_rate_source]
    describes the rate that [_get_commission_rate] returns: its label is
    the one of the first level of the waterfall that has an offer, and
    the offer of that level is the rate returned. *)
Theorem rate_source_names_the_level_used (svc : Service) (t : Tables)
        (name_of : string -> string) (c : Currency) (provider_id : option string) :
  (forall p, In p (providers t) -> prov_is_active p = true) ->
  exists hi l lo,
    precedence = (hi ++ l :: lo)%list
    /\ Forall (fun l' => offer svc t c (resolved_provider t provider_id) l' = None) hi
    /\ offer svc t c (resolved_provider t provider_id) l
       = Some (_get_commission_rate svc t (Some c) provider_id)
    /\ _get_rate_source t name_of (Some c) provider_id
       = level_label name_of (resolved_provider t provider_id) c l.
Proof.
  intros Hall.
  unfold _get_rate_source, _get_commission_rate, resolved_provider.
  destruct provider_id as [pid|]; cbn [mbind option_bind].
  - rewrite (find_active_when_all_active t pid Hall).
    destruct (String.eqb pid "") eqn:Hpid.
    + destruct (first_setting t (q_currency_only c)) eqn:H4;
      destruct (first_setting t q_global) eqn:H5; name_first_level.
    + destruct (get_active_provider t pid) as [p|] eqn:Hp.
      * destruct (first_setting t (q_provider_currency p c)) eqn:H1;
        destruct (first_setting t (q_provider_only p)) eqn:H2;
        destruct (truthy (commission_rate p)) eqn:H3;
        destruct (first_setting t (q_currency_only c)) eqn:H4;
        destruct (first_setting t q_global) eqn:H5; name_first_level.
      * destruct (first_setting t (q_currency_only c)) eqn:H4;
        destruct (first_setting t q_global) eqn:H5; name_first_level.
  - destruct (first_setting t (q_currency_only c)) eqn:H4;
    destruct (first_setting t q_global) eqn:H5; name_first_level.
Qed.

Lemma rate_source_names_the_level_used_witness :
  exists hi l lo,
    precedence = (hi ++ l :: lo)%list
    /\ Forall (fun l' => offer svc5 all_scopes usdt
                           (resolved_provider all_scopes (Some "p-1")) l' = None) hi
    /\ offer svc5 all_scopes usdt (resolved_provider all_scopes (Some "p-1")) l
       = Some (_get_commission_rate svc5 all_scopes (Some usdt) (Some "p-1"))
    /\ _get_rate_source all_scopes (fun i => i) (Some usdt) (Some "p-1")
       = level_label (fun i => i) (resolved_provider all_scopes (Some "p-1")) usdt l.
Proof.
  apply (rate_source_names_the_level_used svc5 all_scopes (fun i => i) usdt
           (Some "p-1")).
  intros p [<-|[]]. reflexivity.
Defined.

(** An inactive provider is still named.  When the provider of the
    request exists but is inactive and has a non-zero default rate, the
    rate is resolved as if no provider had been given, yet the label is
    one of the three provider labels. *)
Theorem rate_source_names_inactive_provider (svc : Service) (t : Tables)
        (name_of : string -> string) (c : Currency) (pid : string) (p : Provider) :
  String.eqb pid "" = false ->
  List.find (fun p => String.eqb (prov_id p) pid) (providers t) = Some p ->
  get_active_provider t pid = None ->
  truthy (commission_rate p) = true ->
  _get_commission_rate svc t (Some c) (Some pid)
  = _get_commission_rate svc t (Some c) None
  /\ exists l,
      In l [ProviderCurrency; ProviderOnly; ProviderDefault]
      /\ _get_rate_source t name_of (Some c) (Some pid)
         = level_label name_of (Some p) c l.
Proof.
  intros Hpid Hfind Hnone Hrate. split.
  - unfold _get_commission_rate. rewrite Hpid, Hnone. reflexivity.
  - unfold _get_rate_source. rewrite Hpid, Hfind, Hrate.
    destruct (first_setting t (q_provider_currency p c));
      [exists ProviderCurrency; split; [cbn; auto | reflexivity]|].
    destruct (first_setting t (q_provider_only p));
      [exists ProviderOnly; split; [cbn; auto | reflexivity]|].
    exists ProviderDefault. split; [cbn; auto | reflexivity].
Qed.

Lemma rate_source_names_inactive_provider_witness :
  _get_commission_rate svc5
    {| providers := [mkProvider "p-1" false (mkDec 400 (-4))]; settings := [] |}
    (Some usdt) (Some "p-1")
  = mkDec 5 (-2)
  /\ exists l,
      In l [ProviderCurrency; ProviderOnly; ProviderDefault]
      /\ _get_rate_source
           {| providers := [mkProvider "p-1" false (mkDec 400 (-4))]; settings := [] |}
           (fun i => i) (Some usdt) (Some "p-1")
         = level_label (fun i => i) (Some (mkProvider "p-1" false (mkDec 400 (-4))))
             usdt l.
Proof.
  apply (rate_source_names_inactive_provider svc5
           {| providers := [mkProvider "p-1" false (mkDec 400 (-4))]; settings := [] |}
           (fun i => i) usdt "p-1" (mkProvider "p-1" false (mkDec 400 (-4))));
    reflexivity.
Defined.

End RateSource.

(** ** API keys and the key gate *)

Section ApiKeys.

Import Security PromoLinkService PyMore.

Lemma char_at_some (s : string) (i : nat) :
  (i < String.length s)%nat ->
  exists c, char_at s i = Some (String c EmptyString).
Proof.
  revert i. induction s as [|a s IH]; intros i Hi; cbn in Hi; [lia|].
  destruct i as [|i]; cbn; [eauto|]. apply IH. lia.
Qed.

Lemma join_choices_length (chars : string) (rnd : nat -> nat) (k n : nat) :
  (0 < String.length chars)%nat ->
  exists s, join_choices chars rnd k n = Ok s /\ String.length s = n.
Proof.
  intros Hne. revert k. induction n as [|n IH]; intros k; cbn [join_choices].
  - exists "". split; reflexivity.
  - unfold choice.
    destruct (char_at_some chars (rnd k mod String.length chars)) as [c Hc];
      [apply Nat.mod_upper_bound; lia|].
    rewrite Hc. destruct (IH (S k)) as (rest & Hrest & Hlen).
    cbn. rewrite Hrest. cbn. eexists. split; [reflexivity|].
    change (S (String.length rest) = S n). rewrite Hlen. reflexivity.
Qed.

Lemma startswith_own_prefix (prefix rest : string) :
  startswith (prefix ++ rest) prefix = true.
Proof.
  unfold startswith. induction prefix as [|a prefix IH];
    [change ("" ++ rest) with rest; destruct rest; reflexivity|].
  change (String a prefix ++ rest) with (String a (prefix ++ rest)).
  cbn [String.prefix]. destruct (ascii_dec a a) as [_|Hne]; [exact IH|].
  destruct (Hne eq_refl).
Qed.

(** Whatever the random draws, [generate_api_key] returns a key of 37
    characters, and the key gate of the provider endpoints lets a request
    that carries it pass on every path. *)
Theorem generated_key_passes_gate (rnd : nat -> nat) (path : string) :
  exists key,
    generate_api_key rnd = Ok key
    /\ String.length key = 37%nat
    /\ api_key_gate path (Some key) = PassOn.
Proof.
  unfold generate_api_key.
  destruct (join_choices_length "abcdefghijklmnopqrstuvwxyz0123456789" rnd 0 32)
    as (body & Hbody & Hlen); [cbn; lia|].
  rewrite Hbody. cbn [mbind res_bind bind].
  exists ("ucpg_" ++ body).
  assert (Hkey : String.length ("ucpg_" ++ body) = 37%nat)
    by (change (5 + String.length body = 37)%nat; rewrite Hlen; reflexivity).
  split; [reflexivity|]. split; [exact Hkey|].
  unfold api_key_gate. destruct (startswith path _); [|reflexivity].
  rewrite Hkey.
  change (String.eqb ("ucpg_" ++ body) "") with false.
  rewrite startswith_own_prefix. reflexivity.
Qed.

End ApiKeys.

(** ** The rate limiter *)

Section RateLimiter.

Import Security.

Lemma check_limit_allowed (cache : gmap string Entry) (now : Z)
      (client_id endpoint : string) (limit : nat) (window : Z) (v : nat) :
  cache_get cache now (limit_key endpoint client_id) 0 = v ->
  (v < limit)%nat ->
  _check_limit cache now client_id endpoint limit window
  = (false, cache_set cache now (limit_key endpoint client_id) (v + 1) window).
Proof.
  intros Hv Hlt. unfold _check_limit. cbv zeta.
  change ("rate_limit:" ++ endpoint ++ ":" ++ client_id)
    with (limit_key endpoint client_id).
  rewrite Hv. destruct (Nat.leb_spec limit v); [lia | reflexivity].
Qed.

Lemma check_limit_refused (cache : gmap string Entry) (now : Z)
      (client_id endpoint : string) (limit : nat) (window : Z) (v : nat) :
  cache_get cache now (limit_key endpoint client_id) 0 = v ->
  (limit <= v)%nat ->
  _check_limit cache now client_id endpoint limit window = (true, cache).
Proof.
  intros Hv Hle. unfold _check_limit. cbv zeta.
  change ("rate_limit:" ++ endpoint ++ ":" ++ client_id)
    with (limit_key endpoint client_id).
  rewrite Hv. destruct (Nat.leb_spec limit v); [reflexivity | lia].
Qed.

Lemma cache_get_set (cache : gmap string Entry) (now : Z) (key : string)
      (v : nat) (window t : Z) :
  t < now + window ->
  cache_get (cache_set cache now key v window) t key 0 = v.
Proof.
  intros Ht. unfold cache_get, cache_set. rewrite lookup_insert_eq. cbn.
  destruct (Z.ltb_spec t (now + window)); [reflexivity | lia].
Qed.

Lemma answers_shape (limit v n : nat) :
  (v < limit)%nat ->
  false :: (replicate (min (limit - (v + 1)) n) false
            ++ replicate (n - (limit - (v + 1))) true)%list
  = (replicate (min (limit - v) (S n)) false
     ++ replicate (S n - (limit - v)) true)%list.
Proof.
  intros Hv. replace (limit - v)%nat with (S (limit - (v + 1))) by lia.
  reflexivity.
Qed.

Lemma burst_counts (client_id endpoint : string) (limit : nat) (window T : Z)
      (times : list Z) :
  forall (cache : gmap string Entry) (v : nat),
    (forall t, T <= t < T + window ->
               cache_get cache t (limit_key endpoint client_id) 0 = v) ->
    Forall (fun now => T <= now < T + window) times ->
    fst (check_all cache client_id endpoint limit window times)
    = (replicate (min (limit - v) (length times)) false
       ++ replicate (length times - (limit - v)) true)%list.
Proof.
  induction times as [|now rest IH]; intros cache v Hinv Hall.
  - cbn. rewrite Nat.min_0_r. reflexivity.
  - apply Forall_cons in Hall as [Hnow Hrest]. cbn [check_all].
    destruct (le_lt_dec limit v) as [Hle|Hlt].
    + rewrite (check_limit_refused _ _ _ _ _ _ v (Hinv now Hnow) Hle).
      specialize (IH cache v Hinv Hrest).
      destruct (check_all cache client_id endpoint limit window rest) as [answers c'].
      cbn [fst] in *. rewrite IH.
      replace (limit - v)%nat with 0%nat by lia.
      cbn. rewrite Nat.sub_0_r. reflexivity.
    + rewrite (check_limit_allowed _ _ _ _ _ _ v (Hinv now Hnow) Hlt).
      assert (Hinv' : forall t, T <= t < T + window ->
                cache_get (cache_set cache now (limit_key endpoint client_id)
                             (v + 1) window) t (limit_key endpoint client_id) 0
                = (v + 1)%nat)
        by (intros t Ht; apply cache_get_set; lia).
      specialize (IH _ _ Hinv' Hrest).
      destruct (check_all _ client_id endpoint limit window rest) as [answers c'].
      cbn [fst] in *. rewrite IH. apply answers_shape. exact Hlt.
Qed.

(** A burst: of the requests one client sends to one endpoint within one
    window, starting with no live counter, exactly the first [limit] are
    let through and every later one is refused. *)
Theorem burst_is_cut_at_limit (cache : gmap string Entry)
        (client_id endpoint : string) (limit : nat) (window T : Z)
        (times : list Z) :
  (forall e, cache !! limit_key endpoint client_id = Some e -> expires e <= T) ->
  Forall (fun now => T <= now < T + window) times ->
  fst (check_all cache client_id endpoint limit window times)
  = (replicate (min limit (length times)) false
     ++ replicate (length times - limit) true)%list.
Proof.
  intros Hold Hall.
  rewrite (burst_counts client_id endpoint limit window T times cache 0).
  - rewrite Nat.sub_0_r. reflexivity.
  - intros t Ht. unfold cache_get.
    destruct (cache !! limit_key endpoint client_id) as [e|] eqn:He; [|reflexivity].
    specialize (Hold e eq_refl).
    destruct (Z.ltb_spec t (expires e)); [lia | reflexivity].
  - exact Hall.
Qed.

Lemma burst_is_cut_at_limit_witness :
  fst (check_all ∅ "ip:10.0.0.1" "promo_claim" 5 300 [0; 10; 20; 30; 40; 50; 299])
  = [false; false; false; false; false; true; true].
Proof.
  apply (burst_is_cut_at_limit ∅ "ip:10.0.0.1" "promo_claim" 5 300 0
           [0; 10; 20; 30; 40; 50; 299]).
  - intros e He. rewrite lookup_empty in He. discriminate He.
  - repeat constructor; lia.
Defined.

Lemma chain_counts (client_id endpoint : string) (limit : nat) (window : Z)
      (times : list Z) :
  forall (prev : Z) (cache : gmap string Entry) (v : nat),
    (forall t, t < prev + window ->
               cache_get cache t (limit_key endpoint client_id) 0 = v) ->
    chained window prev times ->
    (length times <= S (limit - v))%nat ->
    fst (check_all cache client_id endpoint limit window times)
    = (replicate (min (limit - v) (length times)) false
       ++ replicate (length times - (limit - v)) true)%list.
Proof.
  induction times as [|now rest IH]; intros prev cache v Hinv Hchain Hlen.
  - cbn. rewrite Nat.min_0_r. reflexivity.
  - destruct Hchain as [Hnow Hrest]. cbn [check_all]. cbn [length] in Hlen.
    destruct (le_lt_dec limit v) as [Hle|Hlt].
    + rewrite (check_limit_refused _ _ _ _ _ _ v (Hinv now Hnow) Hle).
      destruct rest as [|x rest]; [|cbn [length] in Hlen; lia].
      cbn. replace (limit - v)%nat with 0%nat by lia. reflexivity.
    + rewrite (check_limit_allowed _ _ _ _ _ _ v (Hinv now Hnow) Hlt).
      assert (Hinv' : forall t, t < now + window ->
                cache_get (cache_set cache now (limit_key endpoint client_id)
                             (v + 1) window) t (limit_key endpoint client_id) 0
                = (v + 1)%nat)
        by (intros t Ht; apply cache_get_set; lia).
      assert (Hlen' : (length rest <= S (limit - (v + 1)))%nat) by lia.
      specialize (IH _ _ _ Hinv' Hrest Hlen').
      destruct (check_all _ client_id endpoint limit window rest) as [answers c'].
      cbn [fst] in *. rewrite IH. apply answers_shape. exact Hlt.
Qed.

(** The window slides with every request that is let through: when each
    request comes less than a window after the one before, the request
    after the first [limit] is refused, however long the whole sequence
    has taken. *)
Theorem chained_requests_share_one_budget (cache : gmap string Entry)
        (client_id endpoint : string) (limit : nat) (window t0 : Z)
        (rest : list Z) :
  cache !! limit_key endpoint client_id = None ->
  0 < window ->
  chained window t0 rest ->
  length rest = limit ->
  fst (check_all cache client_id endpoint limit window (t0 :: rest))
  = (replicate limit false ++ [true])%list.
Proof.
  intros Hnone Hwin Hchain Hlen.
  rewrite (chain_counts client_id endpoint limit window (t0 :: rest) t0 cache 0).
  - cbn [length]. rewrite Nat.sub_0_r, Hlen.
    replace (min limit (S limit)) with limit by lia.
    replace (S limit - limit)%nat with 1%nat by lia. reflexivity.
  - intros t _. unfold cache_get. rewrite Hnone. reflexivity.
  - split; [lia | exact Hchain].
  - cbn [length]. lia.
Qed.

Lemma chained_requests_share_one_budget_witness :
  fst (check_all ∅ "ip:10.0.0.1" "promo_claim" 5 300
         [0; 290; 580; 870; 1160; 1450])
  = [false; false; false; false; false; true].
Proof.
  apply (chained_requests_share_one_budget ∅ "ip:10.0.0.1" "promo_claim" 5 300 0
           [290; 580; 870; 1160; 1450]).
  - apply lookup_empty.
  - lia.
  - cbn. lia.
  - reflexivity.
Defined.

End RateLimiter.
